(** * gaitbase: the data entry window and the text report template

    A shallow embedding of [gaitbase/sql_entryapp.py] (class [EntryApp]) and of
    the report template semantics documented in
    [gaitbase/templates/text_template.py].

    - Python values are [value]s: strings and numbers.  Numbers are exact
      rationals; the rounding of binary floating point is not modelled.
    - Python dicts whose order plays no role ([self.data], [self.data_empty],
      [self.__dict__] restricted to widgets, a row of the [roms] table) are
      [gmap]s; [self.input_widgets] and [self.autowidgets], which the program
      iterates over, are lists of object names.
    - Methods that mutate [self] or raise are computations in the monad [M]:
      a state transformer whose result is a value or a raised exception.  The
      state survives an exception, as the Python object does.
    - The Qt toolkit is a collaborator: a widget is a cell that holds what its
      setter stored and emits its change signal when the stored value changed.
      Range clamping and decimals rounding of spin boxes belong to the toolkit
      and are not modelled. *)

From Stdlib Require Import QArith Ascii.
From stdpp Require Import gmap strings list fin_maps sorting.

Local Open Scope string_scope.
Local Open Scope Z_scope.

(** ** Values and exceptions *)

Inductive value : Type :=
| VStr (s : string)
| VNum (q : Q).

(** Python's [==] on the values a widget produces: a string never equals a
    number, numbers compare by value. *)
Definition value_eqb (a b : value) : bool :=
  match a, b with
  | VStr s, VStr t => String.eqb s t
  | VNum p, VNum q => Qeq_bool p q
  | _, _ => false
  end.

(** The exception classes the program can raise, by their Python names. *)
Inductive exn : Type :=
| RuntimeError
| ValueError
| KeyError
| TypeError
| AttributeError
| ZeroDivisionError
| RecursionError.

Inductive Result (A : Type) : Type :=
| Ok (a : A)
| Raise (e : exn).
Arguments Ok {A} a.
Arguments Raise {A} e.

Definition is_ok {A} (r : Result A) : bool :=
  match r with Ok _ => true | Raise _ => false end.

(** ** Strings as Python slices them *)

(** [s[:n]] *)
Definition py_prefix (n : nat) (s : string) : string := String.substring 0 n s.

(** [s[n:]] *)
Definition py_drop (n : nat) (s : string) : string :=
  String.substring n (String.length s - n) s.

(** [s[-n:]] for [n > 0]: the last [n] characters, the whole string when it is
    shorter. *)
Definition py_suffix (n : nat) (s : string) : string :=
  py_drop (String.length s - n) s.

(** [s.replace(old, new)] for a non-empty [old]: occurrences are replaced from
    the left and do not overlap.  [skip] counts the characters of a matched
    occurrence that are still to be dropped. *)
Fixpoint py_replace_from (skip : nat) (old new s : string) : string :=
  match s with
  | EmptyString => EmptyString
  | String c s' =>
      match skip with
      | S k => py_replace_from k old new s'
      | O =>
          if String.prefix old s
          then new ++ py_replace_from (String.length old - 1) old new s'
          else String c (py_replace_from 0 old new s')
      end
  end.

Definition py_replace (old new s : string) : string :=
  py_replace_from 0 old new s.

(** [str.strip()]: the ASCII white space characters. *)
Definition is_space (c : Ascii.ascii) : bool :=
  let n := Ascii.nat_of_ascii c in
  ((9 <=? n) && (n <=? 13) || (n =? 32))%nat.

Fixpoint lstrip (s : string) : string :=
  match s with
  | EmptyString => EmptyString
  | String c s' => if is_space c then lstrip s' else s
  end.

Definition string_rev (s : string) : string :=
  String.string_of_list_ascii (rev (String.list_ascii_of_string s)).

Definition py_strip (s : string) : string :=
  string_rev (lstrip (string_rev (lstrip s))).

(** ** Constants *)

(** Modelled from the spec: [gaitbase/constants.py] is not among the sources.
    [spinbox_novalue_text] is the 'not measured' text of spin boxes (the module
    docstring gives it as 'Ei mitattu'); the two check box labels stand for
    checked and unchecked.  They are read once by [init_widgets] and are part
    of the window's state. *)
Record Constants : Type := mkConstants {
  spinbox_novalue_text : string;
  checkbox_yestext : string;
  checkbox_notext : string
}.

(** ** Widgets *)

(** Modelled from the spec: [CheckDegSpinBox] is defined in
    [gaitbase/widgets.py], which is not among the sources.  The specification
    describes it as a 'not applicable' flag paired with a degree value; the
    window only calls its [value] and [setValue], so its state is the one value
    these exchange: [setValue] stores it, [value] returns it, and
    [valueChanged] is emitted when it changed. *)
Definition checkdeg_value (stored : value) : value := stored.

Definition checkdeg_setValue (stored val : value) : value * bool :=
  (val, negb (value_eqb val stored)).

(** The Qt objects behind the input widgets, each with the part of its state the
    program reads and writes. *)
Inductive qwidget : Type :=
| QSpinBox (minimum val : Q)                   (* QSpinBox, QDoubleSpinBox *)
| QLineEdit (text : string)
| QComboBox (items : list string) (currentIndex : Z)
| QTextEdit (plainText : string)
| QCheckBox (checkState : Z)
| CheckDegSpinBox (stored : value)
| QOther.                                      (* labels, tabs, ... *)

(** The widget classes [init_widgets] tells apart by the first characters of
    the object name. *)
Inductive wkind : Type := Ksp | Kln | Kcb | Kcmt | Kxb | Kcsb.

(** The [if/elif] chain of [init_widgets], in its order. *)
Definition widget_kind (wname : string) : option wkind :=
  if String.eqb (py_prefix 2 wname) "sp" then Some Ksp
  else if String.eqb (py_prefix 2 wname) "ln" then Some Kln
  else if String.eqb (py_prefix 2 wname) "cb" then Some Kcb
  else if String.eqb (py_prefix 3 wname) "cmt" then Some Kcmt
  else if String.eqb (py_prefix 2 wname) "xb" then Some Kxb
  else if String.eqb (py_prefix 3 wname) "csb" then Some Kcsb
  else None.

(** [wsave] *)
Definition is_input_widget (wname : string) : bool :=
  match widget_kind wname with Some _ => true | None => false end.

(** The entry of [self.widget_to_var] for an input widget. *)
Definition varname_of (wname : string) : string :=
  if String.eqb (py_prefix 3 wname) "cmt" then wname
  else if String.eqb (py_prefix 3 wname) "csb" then py_drop 3 wname
  else py_drop 2 wname.

(** *** The getters and setters defined in [init_widgets] *)

Definition spinbox_getval (no_value_text : string) (minimum val : Q) : value :=
  if Qeq_bool val minimum then VStr no_value_text else VNum val.

(** [spinbox_setval]: the value handed to [w.setValue]; a string other than
    the 'not measured' text is no number. *)
Definition spinbox_setval (no_value_text : string) (minimum : Q) (val : value)
  : Result Q :=
  let val := if value_eqb val (VStr no_value_text) then VNum minimum else val in
  match val with
  | VNum q => Ok q
  | VStr _ => Raise TypeError
  end.

Definition checkbox_getval (yes_text no_text : string) (checkState : Z)
  : Result value :=
  let val := checkState in
  if val =? 0 then Ok (VStr no_text)
  else if val =? 2 then Ok (VStr yes_text)
  else Raise RuntimeError.

(** [checkbox_setval]: the state handed to [w.setCheckState]. *)
Definition checkbox_setval (yes_text no_text : string) (val : value) : Result Z :=
  if value_eqb val (VStr yes_text) then Ok 2
  else if value_eqb val (VStr no_text) then Ok 0
  else Raise RuntimeError.

(** [QComboBox.findText]: the index of the first item equal to [val], -1 when
    there is none. *)
Fixpoint findText (items : list string) (val : string) : Z :=
  match items with
  | [] => -1
  | item :: items' =>
      if String.eqb item val then 0
      else let idx := findText items' val in
           if idx <? 0 then -1 else idx + 1
  end.

(** [QComboBox.currentText]: empty when no item is current. *)
Definition currentText (items : list string) (currentIndex : Z) : string :=
  if currentIndex <? 0 then ""
  else default "" (items !! Z.to_nat currentIndex).

Definition combobox_getval (items : list string) (currentIndex : Z) : value :=
  VStr (currentText items currentIndex).

(** [combobox_setval]: the index handed to [w.setCurrentIndex]. *)
Definition combobox_setval (items : list string) (val : value) : Result Z :=
  match val with
  | VStr s =>
      let idx := findText items s in
      if 0 <=? idx then Ok idx else Raise ValueError
  | VNum _ => Raise TypeError
  end.

(** [w.getVal()] of the widget named [wname]: the getter is chosen by the name,
    and works on the Qt class that goes with it. *)
Definition widget_getVal (K : Constants) (wname : string) (w : qwidget)
  : Result value :=
  match widget_kind wname, w with
  | Some Ksp, QSpinBox minimum val =>
      Ok (spinbox_getval (spinbox_novalue_text K) minimum val)
  | Some Kln, QLineEdit text => Ok (VStr (py_strip text))
  | Some Kcb, QComboBox items idx => Ok (combobox_getval items idx)
  | Some Kcmt, QTextEdit text => Ok (VStr (py_strip text))
  | Some Kxb, QCheckBox st =>
      checkbox_getval (checkbox_yestext K) (checkbox_notext K) st
  | Some Kcsb, CheckDegSpinBox stored => Ok (checkdeg_value stored)
  | _, _ => Raise AttributeError
  end.

(** [w.setVal(val)]: the widget after the call, and whether a signal that
    [init_widgets] connected to [values_changed] is emitted.  Line and comment
    editors have no such signal: their updates come from the focus-out event
    filter. *)
Definition widget_setVal (K : Constants) (wname : string) (w : qwidget)
  (val : value) : Result (qwidget * bool) :=
  match widget_kind wname, w with
  | Some Ksp, QSpinBox minimum old =>
      match spinbox_setval (spinbox_novalue_text K) minimum val with
      | Ok q => Ok (QSpinBox minimum q, negb (Qeq_bool q old))
      | Raise e => Raise e
      end
  | Some Kln, QLineEdit _ =>
      match val with
      | VStr s => Ok (QLineEdit s, false)
      | VNum _ => Raise TypeError
      end
  | Some Kcb, QComboBox items old =>
      match combobox_setval items val with
      | Ok idx => Ok (QComboBox items idx, negb (idx =? old))
      | Raise e => Raise e
      end
  | Some Kcmt, QTextEdit _ =>
      match val with
      | VStr s => Ok (QTextEdit s, false)
      | VNum _ => Raise TypeError
      end
  | Some Kxb, QCheckBox old =>
      match checkbox_setval (checkbox_yestext K) (checkbox_notext K) val with
      | Ok st => Ok (QCheckBox st, negb (st =? old))
      | Raise e => Raise e
      end
  | Some Kcsb, CheckDegSpinBox old =>
      let (stored, emitted) := checkdeg_setValue old val in
      Ok (CheckDegSpinBox stored, emitted)
  | _, _ => Raise AttributeError
  end.

(** Python's [/] on two values. *)
Definition py_truediv (a b : value) : Result value :=
  match a, b with
  | VNum p, VNum q =>
      if Qeq_bool q 0 then Raise ZeroDivisionError else Ok (VNum (p / q))
  | _, _ => Raise TypeError
  end.

(** ** The window's state *)

(** The read-only patient fields ([rdonly_*] line edits). *)
Record PatientFields : Type := mkPatientFields {
  rdonly_firstname : string;
  rdonly_lastname : string;
  rdonly_ssn : string;
  rdonly_patient_code : string;
  rdonly_diagnosis : string
}.

(** The attributes of an [EntryApp] the methods below read and write, the row of
    the [roms] table the window is bound to, and three records of what the
    window did to its collaborators.

    - [roms_row]: a column that is absent is NULL.
    - [exec_outcomes]: what the coming calls of [QSqlQuery.exec] answer, in
      order ([false]: the statement fails, e.g. on a lock); when the list is
      used up, statements succeed.
    - [sql_updates]: the UPDATE statements sent so far, latest first.
    - [dialogs]: the number of [message_dialog] calls so far.
    - [guard_log]: for each run of [values_changed], latest first, the widget and
      the value [self.update_dict] had when it was tested. *)
Record State : Type := mkState {
  consts : Constants;
  widgets : gmap string qwidget;
  input_widgets : list string;
  autowidgets : list string;
  disabled : list string;
  data : gmap string value;
  data_empty : gmap string value;
  update_dict : bool;
  rdonly : PatientFields;
  roms_row : gmap string value;
  exec_outcomes : list bool;
  sql_updates : list (list (string * value));
  dialogs : nat;
  guard_log : list (string * bool)
}.

Definition set_widgets (ws : gmap string qwidget) (st : State) : State :=
  mkState (consts st) ws (input_widgets st) (autowidgets st) (disabled st)
    (data st) (data_empty st) (update_dict st) (rdonly st) (roms_row st)
    (exec_outcomes st) (sql_updates st) (dialogs st) (guard_log st).

Definition set_input_widgets (l : list string) (st : State) : State :=
  mkState (consts st) (widgets st) l (autowidgets st) (disabled st)
    (data st) (data_empty st) (update_dict st) (rdonly st) (roms_row st)
    (exec_outcomes st) (sql_updates st) (dialogs st) (guard_log st).

Definition set_autowidgets (l : list string) (st : State) : State :=
  mkState (consts st) (widgets st) (input_widgets st) l (disabled st)
    (data st) (data_empty st) (update_dict st) (rdonly st) (roms_row st)
    (exec_outcomes st) (sql_updates st) (dialogs st) (guard_log st).

Definition set_disabled (l : list string) (st : State) : State :=
  mkState (consts st) (widgets st) (input_widgets st) (autowidgets st) l
    (data st) (data_empty st) (update_dict st) (rdonly st) (roms_row st)
    (exec_outcomes st) (sql_updates st) (dialogs st) (guard_log st).

Definition set_data (d : gmap string value) (st : State) : State :=
  mkState (consts st) (widgets st) (input_widgets st) (autowidgets st)
    (disabled st) d (data_empty st) (update_dict st) (rdonly st) (roms_row st)
    (exec_outcomes st) (sql_updates st) (dialogs st) (guard_log st).

Definition set_data_empty (d : gmap string value) (st : State) : State :=
  mkState (consts st) (widgets st) (input_widgets st) (autowidgets st)
    (disabled st) (data st) d (update_dict st) (rdonly st) (roms_row st)
    (exec_outcomes st) (sql_updates st) (dialogs st) (guard_log st).

Definition set_update_dict (b : bool) (st : State) : State :=
  mkState (consts st) (widgets st) (input_widgets st) (autowidgets st)
    (disabled st) (data st) (data_empty st) b (rdonly st) (roms_row st)
    (exec_outcomes st) (sql_updates st) (dialogs st) (guard_log st).

Definition set_rdonly (p : PatientFields) (st : State) : State :=
  mkState (consts st) (widgets st) (input_widgets st) (autowidgets st)
    (disabled st) (data st) (data_empty st) (update_dict st) p (roms_row st)
    (exec_outcomes st) (sql_updates st) (dialogs st) (guard_log st).

Definition set_roms_row (r : gmap string value) (st : State) : State :=
  mkState (consts st) (widgets st) (input_widgets st) (autowidgets st)
    (disabled st) (data st) (data_empty st) (update_dict st) (rdonly st) r
    (exec_outcomes st) (sql_updates st) (dialogs st) (guard_log st).

Definition set_exec_outcomes (o : list bool) (st : State) : State :=
  mkState (consts st) (widgets st) (input_widgets st) (autowidgets st)
    (disabled st) (data st) (data_empty st) (update_dict st) (rdonly st)
    (roms_row st) o (sql_updates st) (dialogs st) (guard_log st).

Definition set_sql_updates (u : list (list (string * value))) (st : State)
  : State :=
  mkState (consts st) (widgets st) (input_widgets st) (autowidgets st)
    (disabled st) (data st) (data_empty st) (update_dict st) (rdonly st)
    (roms_row st) (exec_outcomes st) u (dialogs st) (guard_log st).

Definition set_dialogs (n : nat) (st : State) : State :=
  mkState (consts st) (widgets st) (input_widgets st) (autowidgets st)
    (disabled st) (data st) (data_empty st) (update_dict st) (rdonly st)
    (roms_row st) (exec_outcomes st) (sql_updates st) n (guard_log st).

Definition set_guard_log (l : list (string * bool)) (st : State) : State :=
  mkState (consts st) (widgets st) (input_widgets st) (autowidgets st)
    (disabled st) (data st) (data_empty st) (update_dict st) (rdonly st)
    (roms_row st) (exec_outcomes st) (sql_updates st) (dialogs st) l.

(** ** Methods as state transformers that may raise *)

Definition M (A : Type) : Type := State -> Result A * State.

Definition ret {A} (a : A) : M A := fun st => (Ok a, st).

Definition raise {A} (e : exn) : M A := fun st => (Raise e, st).

Definition bind {A B} (c : M A) (k : A -> M B) : M B :=
  fun st =>
    match c st with
    | (Ok a, st') => k a st'
    | (Raise e, st') => (Raise e, st')
    end.

Notation "'let!' x ':=' c 'in' k" := (bind c (fun x => k))
  (at level 10, x name, c at level 100, k at level 200).

Definition lift {A} (r : Result A) : M A := fun st => (r, st).

Definition gets {A} (f : State -> A) : M A := fun st => (Ok (f st), st).

Definition modify (f : State -> State) : M unit := fun st => (Ok tt, f st).

(** [for x in l: body(x)] *)
Fixpoint for_each {A} (l : list A) (body : A -> M unit) : M unit :=
  match l with
  | [] => ret tt
  | x :: l' => let! _ := body x in for_each l' body
  end.

(** [d[key]] on a dict: [KeyError] when the key is missing. *)
Definition getitem {V} (d : gmap string V) (key : string) : Result V :=
  match d !! key with
  | Some v => Ok v
  | None => Raise KeyError
  end.

(** *** The database *)

(** The database answers the next statement. *)
Definition next_exec (st : State) : bool :=
  match exec_outcomes st with
  | [] => true
  | ok :: _ => ok
  end.

(** [q.exec()]: the next answer of the database. *)
Definition exec : M bool :=
  fun st => (Ok (next_exec st), set_exec_outcomes (tail (exec_outcomes st)) st).

(** [db_failure]: a fatal failure raises, another one is shown in a dialog. *)
Definition db_failure (fatal : bool) : M unit :=
  if fatal then raise RuntimeError
  else modify (fun st => set_dialogs (S (dialogs st)) st).

(** [select]: the values of the columns [vars] of the window's row, [None] for
    NULL.  The row itself exists ([q.first()] holds when [q.exec()] does). *)
Definition select (vars : list string) : M (list (option value)) :=
  let! ok := exec in
  let! _ := (if ok then ret tt else db_failure true) in
  gets (fun st => (fun var => roms_row st !! var) <$> vars).

(** The row after [UPDATE roms SET var = value, ...]. *)
Definition apply_update (assignments : list (string * value))
  (row : gmap string value) : gmap string value :=
  foldl (fun r kv => <[kv.1 := kv.2]> r) row assignments.

(** [update_rom] *)
Definition update_rom (vars : list string) (values : list value) : M unit :=
  if negb (length vars =? length values)%nat then raise ValueError
  else
    let! _ := modify (fun st =>
                set_sql_updates (zip vars values :: sql_updates st) st) in
    let! ok := exec in
    if ok
    then modify (fun st => set_roms_row (apply_update (zip vars values) (roms_row st)) st)
    else db_failure false.

(** *** Widgets of the window *)

(** [self.widget_to_var[wname]] *)
Definition widget_to_var (wname : string) : M string :=
  fun st =>
    if bool_decide (wname ∈ input_widgets st)
    then (Ok (varname_of wname), st)
    else (Raise KeyError, st).

(** [self.input_widgets[wname].getVal()], and [w.getVal()] for a widget object
    [w] known by its name. *)
Definition getVal (wname : string) : M value :=
  fun st =>
    match widgets st !! wname with
    | Some w => (widget_getVal (consts st) wname w, st)
    | None => (Raise AttributeError, st)
    end.

(** [w.setVal(val)].  [notify] is the slot the widget's change signal is
    connected to; it runs inside the call, as a Qt direct connection does. *)
Definition setVal (notify : string -> M unit) (wname : string) (val : value)
  : M unit :=
  let! w := (fun st => (match widgets st !! wname with
                        | Some w => Ok w
                        | None => Raise AttributeError
                        end, st)) in
  let! K := gets consts in
  match widget_setVal K wname w val with
  | Raise e => raise e
  | Ok (w', emitted) =>
      let! _ := modify (fun st => set_widgets (<[wname := w']> (widgets st)) st) in
      if emitted then notify wname else ret tt
  end.

(** The weight widget [self.spAntropPaino]. *)
Definition weight_widget : string := "spAntropPaino".

(** An autowidget is a widget whose name ends in 'Norm'. *)
Definition is_autowidget (wname : string) : bool :=
  String.eqb (py_suffix 4 wname) "Norm".

(** The name of the corresponding unnormalized widget. *)
Definition wname_unnorm (wname : string) : string :=
  py_replace "Norm" "NormUn" wname.

(** [w._autoinputs] *)
Definition _autoinputs (wname : string) : list string :=
  [wname_unnorm wname; weight_widget].

(** [_weight_normalize(w)], which is [w._autocalculate()]. *)
Definition _weight_normalize (notify : string -> M unit) (w : string) : M unit :=
  let! val := getVal (wname_unnorm w) in
  let! weight := getVal weight_widget in
  let! K := gets consts in
  let noval := VStr (spinbox_novalue_text K) in
  let! res := (if value_eqb val noval || value_eqb weight noval
               then ret noval
               else lift (py_truediv val weight)) in
  setVal notify w res.

(** The autowidgets that depend on [w]. *)
Definition autowidgets_this (w : string) (autos : list string) : list string :=
  filter (fun widget => w ∈ _autoinputs widget) autos.

(** The second half of [values_changed]: under [self.update_dict], the internal
    dict and the database row take the widget's value. *)
Definition update_dict_and_rom (w : string) : M unit :=
  let! guard := gets update_dict in
  let! _ := modify (fun st => set_guard_log ((w, guard) :: guard_log st) st) in
  if guard then
    let! varname := widget_to_var w in
    let! newval := getVal w in
    let! _ := modify (fun st => set_data (<[varname := newval]> (data st)) st) in
    update_rom [varname] [newval]
  else ret tt.

(** The first half of [values_changed]: the autowidgets that depend on [w] are
    recalculated. *)
Definition update_autowidgets (notify : string -> M unit) (w : string) : M unit :=
  let! autos := gets autowidgets in
  for_each (autowidgets_this w autos) (_weight_normalize notify).

(** [values_changed(w)]: first the autowidgets that depend on [w] are
    recalculated, then the dict and the database are updated.  [depth] is the
    room left on the Python call stack: a widget whose change signal is
    connected calls [values_changed] again from inside [setVal]. *)
Fixpoint values_changed (depth : nat) (w : string) : M unit :=
  match depth with
  | O => raise RecursionError
  | S depth' =>
      let! _ := update_autowidgets (values_changed depth') w in
      update_dict_and_rom w
  end.

(** [restore_forms].  [self.save_to_tmp] is written here and read nowhere; it
    is left out. *)
Definition restore_forms (depth : nat) : M unit :=
  let! _ := modify (set_update_dict false) in
  let! wnames := gets input_widgets in
  let! _ := for_each wnames (fun wname =>
              let! var := widget_to_var wname in
              let! val := (fun st => (getitem (data st) var, st)) in
              setVal (values_changed depth) wname val) in
  modify (set_update_dict true).

(** [read_forms] *)
Definition read_forms : M unit :=
  let! wnames := gets input_widgets in
  for_each wnames (fun wname =>
    let! var := widget_to_var wname in
    let! val := getVal wname in
    modify (fun st => set_data (<[var := val]> (data st)) st)).

(** The dict comprehension of [_read_data]: the columns that are not NULL. *)
Definition record_di (vars : list string) (qvals : list (option value))
  : gmap string value :=
  list_to_map (omap (fun vq => match vq.2 with
                               | Some v => Some (vq.1, v)
                               | None => None
                               end) (zip vars qvals)).

(** [_read_data].  Python's [a | b] lets [b] win; stdpp's union lets its left
    operand win. *)
Definition _read_data (depth : nat) : M unit :=
  let! vars := gets (fun st => (map_to_list (data st)).*1) in
  let! qvals := select vars in
  let! _ := modify (fun st =>
              set_data (record_di vars qvals ∪ data_empty st) st) in
  restore_forms depth.

(** [vars_default] *)
Definition is_default (st : State) (key : string) : bool :=
  match data st !! key, data_empty st !! key with
  | Some v, Some v0 => value_eqb v v0
  | _, _ => false
  end.

Definition vars_default (st : State) : list string :=
  filter (fun key => is_default st key = true) (map_to_list (data st)).*1.

(** [get_patient_id_data] *)
Definition get_patient_id_data (st : State) : gmap string value :=
  let p := rdonly st in
  <["TiedotID" := VStr (rdonly_patient_code p)]>
  (<["TiedotNimi" := VStr (rdonly_firstname p ++ " " ++ rdonly_lastname p)]>
  (<["TiedotHetu" := VStr (rdonly_ssn p)]>
  (<["TiedotDiag" := VStr (rdonly_diagnosis p)]> ∅))).

(** *** Construction *)

(** [init_widgets], as far as the methods above depend on it.  The
    attributes are written as the source writes them: [self.input_widgets]
    and [self.autowidgets] start empty, the weight widget is looked up, every
    widget whose name ends in 'Norm' is appended to [self.autowidgets] before
    its unnormalized partner is looked up, then the autowidgets are disabled
    and the specially named widgets become the input widgets.  [allwidgets]
    are the object names in the order of [findChildren]; object names are
    unique.  The lookups that follow in the source (the tabs, the first widget
    of each page, the status bar) are left out: the window has them. *)
Definition init_widgets (allwidgets : list string) : M unit :=
  let! _ := modify (set_input_widgets []) in
  let! _ := modify (set_autowidgets []) in
  let! ws := gets widgets in
  let! _ := (match ws !! weight_widget with
             | Some _ => ret tt
             | None => raise AttributeError
             end) in
  let! _ := for_each (filter (fun wname => is_autowidget wname = true) allwidgets)
              (fun wname =>
                 let! _ := modify (fun st =>
                             set_autowidgets (autowidgets st ++ [wname]) st) in
                 match ws !! wname_unnorm wname with
                 | Some _ => ret tt
                 | None => raise KeyError
                 end) in
  let! _ := modify (fun st => set_disabled (autowidgets st) st) in
  modify (set_input_widgets
            (filter (fun wname => is_input_widget wname = true) allwidgets)).

(** [init_readonly_fields].  Its failure branch calls [db_failure] without the
    query argument, which Python answers with a [TypeError]. *)
Definition init_readonly_fields (patient : PatientFields) : M unit :=
  let! _ := select ["patient_id"] in
  let! ok := exec in
  if ok then modify (set_rdonly patient) else raise TypeError.

(** The object before [__init__] has run: the widgets as the Designer file
    gives them, the database as it is, and no attribute set. *)
Definition blank (K : Constants) (children : list (string * qwidget))
  (row : gmap string value) (outcomes : list bool) : State :=
  mkState K (list_to_map children) [] [] [] ∅ ∅ false
    (mkPatientFields "" "" "" "" "") row outcomes [] O [].

(** [__init__] with a database.  [patient] is the window's row of the
    [patients] table, [datestr] today's date. *)
Definition EntryApp_init (allwidgets : list string) (patient : PatientFields)
  (newly_created : bool) (datestr : string) (depth : nat) : M unit :=
  let! _ := init_widgets allwidgets in
  let! _ := modify (set_data ∅) in
  let! _ := read_forms in
  let! _ := modify (fun st => set_data_empty (data st) st) in
  let! _ := modify (set_update_dict true) in
  let! _ := init_readonly_fields patient in
  if newly_created then
    let! ws := gets widgets in
    let! _ := (match ws !! "lnTiedotPvm" with
               | Some (QLineEdit _) =>
                   modify (set_widgets (<["lnTiedotPvm" := QLineEdit datestr]> ws))
               | _ => raise AttributeError
               end) in
    values_changed depth "lnTiedotPvm"
  else _read_data depth.

(** [EntryApp(database, rom_id, newly_created)]: the constructed window, or the
    exception that left no window behind. *)
Definition new_EntryApp (K : Constants) (children : list (string * qwidget))
  (row : gmap string value) (outcomes : list bool) (patient : PatientFields)
  (newly_created : bool) (datestr : string) (depth : nat) : Result State :=
  match EntryApp_init children.*1 patient newly_created datestr depth
          (blank K children row outcomes) with
  | (Ok _, st) => Ok st
  | (Raise e, _) => Raise e
  end.

(** *** What can happen to a window *)

(** - [Edit]: the user brings a widget into a new state and the toolkit
      delivers the change ([valueChanged], [stateChanged], the focus-out event
      filter, ...) to [values_changed].  The toolkit keeps the user away from
      a disabled widget: nothing happens there.
    - [SetVal]: a programmatic [setVal].
    - [ReadData], [ReadForms], [RestoreForms]: the methods of these names.
    - [Outside]: another process rewrites the row, and the database's coming
      answers change. *)
Inductive op : Type :=
| Edit (wname : string) (w : qwidget)
| SetVal (wname : string) (val : value)
| ReadData
| ReadForms
| RestoreForms
| Outside (row : gmap string value) (outcomes : list bool).

Definition run_op (depth : nat) (o : op) : M unit :=
  match o with
  | Edit wname w =>
      let! off := gets (fun st => bool_decide (wname ∈ disabled st)) in
      if off then ret tt
      else
        let! _ := modify (fun st => set_widgets (<[wname := w]> (widgets st)) st) in
        values_changed depth wname
  | SetVal wname val => setVal (values_changed depth) wname val
  | ReadData => _read_data depth
  | ReadForms => read_forms
  | RestoreForms => restore_forms depth
  | Outside row outcomes =>
      modify (fun st => set_exec_outcomes outcomes (set_roms_row row st))
  end.

(** The window after a sequence of events; an event that raises leaves the
    window as it was when the exception left the method. *)
Fixpoint run_ops (depth : nat) (ops : list op) (st : State) : State :=
  match ops with
  | [] => st
  | o :: ops' => run_ops depth ops' (run_op depth o st).2
  end.

(** ** The JSON backup *)

(** The two encoders of Python's [json] module that the dump of a flat dict
    uses: the quoted and escaped form of a string, and the text of a number. *)
Record JSONEncoder : Type := mkJSONEncoder {
  encode_basestring : string -> string;
  number_repr : Q -> string
}.

Definition encode_value (enc : JSONEncoder) (v : value) : string :=
  match v with
  | VStr s => encode_basestring enc s
  | VNum q => number_repr enc q
  end.

Definition nl : string := String (Ascii.ascii_of_nat 10) EmptyString.

(** [sorted(dct.items())]: the keys of a dict are distinct, so the order of two
    items is the order of their keys. *)
Definition item_leb (a b : string * value) : bool := String.leb a.1 b.1.

Fixpoint insert_sorted (x : string * value) (l : list (string * value))
  : list (string * value) :=
  match l with
  | [] => [x]
  | y :: l' => if item_leb x y then x :: l else y :: insert_sorted x l'
  end.

Fixpoint py_sorted (l : list (string * value)) : list (string * value) :=
  match l with
  | [] => []
  | x :: l' => insert_sorted x (py_sorted l')
  end.

Definition json_item (enc : JSONEncoder) (kv : string * value) : string :=
  encode_basestring enc kv.1 ++ ": " ++ encode_value enc kv.2.

(** [json.dumps(items, ensure_ascii=False, indent=True, sort_keys=True)] for the
    items of a flat dict, in the order the dict yields them.  [indent=True]
    counts as an indent of one space. *)
Definition json_dumps (enc : JSONEncoder) (items : list (string * value))
  : string :=
  match py_sorted items with
  | [] => "{}"
  | sorted =>
      "{" ++ nl ++ " "
      ++ String.concat ("," ++ nl ++ " ") (json_item enc <$> sorted)
      ++ nl ++ "}"
  end.

(** The order of two items as a proposition. *)
Definition item_le (a b : string * value) : Prop := String.le a.1 b.1.

(** [rdata] of [save_file]: [self.data | self.get_patient_id_data()]. *)
Definition save_rdata (st : State) : gmap string value :=
  get_patient_id_data st ∪ data st.

(** [save_file]: the text written to the file. *)
Definition save_file (enc : JSONEncoder) (st : State) : string :=
  json_dumps enc (map_to_list (save_rdata st)).

(** ** The report renderer

    [gaitbase/reporter.py], which builds the report from the template, is not
    among the sources.  The definitions of this part follow the rendering
    algorithm of the specification (4.2) and the docstring of
    [text_template.py]. *)

(** Modelled from the spec: [reporter.py] is missing.  A piece of a block's
    text: plain text or a [{field}] placeholder. *)
Inductive part : Type :=
| Text (s : string)
| Field (name : string).

(** Modelled from the spec: [reporter.py] is missing.  A block of a template:
    a text with placeholders, or the smart end-of-line. *)
Inductive block : Type :=
| Literal (parts : list part)
| SMART_EOL.

(** Modelled from the spec: [reporter.py] is missing.  What a rendering is
    given.  [report_data] is the
    record, [report_default] the fields in their default state,
    [replace_data] the replacement table for raw values, [report_units] the
    unit string of each field. *)
Record Report : Type := mkReport {
  report_data : gmap string string;
  report_default : list string;
  replace_data : gmap string string;
  report_units : gmap string string
}.

(** Modelled from the spec: [reporter.py] is missing.  The renderer's outcome
    is the text or
    [UnknownFieldError] for a placeholder that names no field of the record. *)
Inductive Rendered : Type :=
| Rendering (text : string)
| UnknownFieldError (name : string).

(** Modelled from the spec: [reporter.py] is missing.  The field set of a
    block, in the order of the placeholders. *)
Fixpoint block_fields (parts : list part) : list string :=
  match parts with
  | [] => []
  | Text _ :: parts' => block_fields parts'
  | Field name :: parts' => name :: block_fields parts'
  end.

(** Modelled from the spec: [reporter.py] is missing.  All of the fields are
    at their default. *)
Definition all_default (R : Report) (fields : list string) : bool :=
  forallb (fun f => bool_decide (f ∈ report_default R)) fields.

(** Modelled from the spec: [reporter.py] is missing.  Step 1: a block is
    discarded when it has fields and all of them are at their default. *)
Definition discarded (R : Report) (parts : list part) : bool :=
  match block_fields parts with
  | [] => false
  | fields => all_default R fields
  end.

(** Modelled from the spec: [reporter.py] is missing.  Step 2: the replaced
    value followed by its unit. *)
Definition render_field (R : Report) (name : string) : option string :=
  match report_data R !! name with
  | Some raw =>
      Some (default raw (replace_data R !! raw)
            ++ default "" (report_units R !! name))
  | None => None
  end.

(** Modelled from the spec: [reporter.py] is missing.  Step 2: every
    placeholder is replaced; one that names no field of the record fails. *)
Fixpoint substitute (R : Report) (parts : list part) : Rendered :=
  match parts with
  | [] => Rendering ""
  | Text s :: parts' =>
      match substitute R parts' with
      | Rendering rest => Rendering (s ++ rest)
      | UnknownFieldError f => UnknownFieldError f
      end
  | Field name :: parts' =>
      match render_field R name with
      | None => UnknownFieldError name
      | Some v =>
          match substitute R parts' with
          | Rendering rest => Rendering (v ++ rest)
          | UnknownFieldError f => UnknownFieldError f
          end
      end
  end.

(** Modelled from the spec: [reporter.py] is missing.  The text of a block's
    plain pieces. *)
Fixpoint plain_text (parts : list part) : string :=
  match parts with
  | [] => ""
  | Text s :: parts' => s ++ plain_text parts'
  | Field _ :: parts' => plain_text parts'
  end.

(** Modelled from the spec: [reporter.py] is missing.  Upper case of a letter
    of ASCII. *)
Definition upper_ascii (c : Ascii.ascii) : Ascii.ascii :=
  let n := Ascii.nat_of_ascii c in
  if ((97 <=? n) && (n <=? 122))%nat then Ascii.ascii_of_nat (n - 32) else c.

(** Modelled from the spec: [reporter.py] is missing.  Step 3: upper case of
    the first character. *)
Definition upper_first (s : string) : string :=
  match s with
  | EmptyString => EmptyString
  | String c s' => String (upper_ascii c) s'
  end.

(** Modelled from the spec: [reporter.py] is missing.  The last character of
    the output is a newline. *)
Definition ends_with_newline (out : string) : bool :=
  match rev (String.list_ascii_of_string out) with
  | c :: _ => Ascii.eqb c (Ascii.ascii_of_nat 10)
  | [] => false
  end.

(** Modelled from the spec: [reporter.py] is missing.  Step 4: the trailing
    run of the item separator [", "] is dropped; on the reversed output. *)
Fixpoint strip_sep_rev (l : list Ascii.ascii) : list Ascii.ascii :=
  match l with
  | c1 :: (c2 :: l') as tail =>
      if Ascii.eqb c1 (Ascii.ascii_of_nat 32) && Ascii.eqb c2 (Ascii.ascii_of_nat 44)
      then strip_sep_rev l'
      else l
  | _ => l
  end.

(** Modelled from the spec: [reporter.py] is missing.  Step 4: the output
    without its trailing run of [", "]. *)
Definition strip_trailing_sep (out : string) : string :=
  String.string_of_list_ascii
    (rev (strip_sep_rev (rev (String.list_ascii_of_string out)))).

(** Modelled from the spec: [reporter.py] is missing.  Step 4: the smart
    end-of-line.  At the start of the output there is no line to close, and
    nothing is emitted: in the scenario of section 8 a discarded block
    followed by the marker renders the empty text. *)
Definition smart_eol (out : string) : string :=
  match out with
  | EmptyString => EmptyString
  | _ =>
      if ends_with_newline out then out
      else strip_trailing_sep out ++ "." ++ nl
  end.

(** Modelled from the spec: [reporter.py] is missing.  Step 3: a block starts
    a line when it is block zero or the output so far ends in a newline. *)
Definition starts_line (i : nat) (out : string) : bool :=
  (i =? 0)%nat || ends_with_newline out.

(** Modelled from the spec: [reporter.py] is missing.  The output [out]
    extended by the text of block number [i]. *)
Definition emit (i : nat) (out text : string) : string :=
  out ++ (if starts_line i out then upper_first text else text).

(** Modelled from the spec: [reporter.py] is missing.  Steps 2 and 3: a block
    that is not discarded is substituted and appended. *)
Definition render_surviving (R : Report) (i : nat) (out : string)
  (parts : list part) : Rendered :=
  match substitute R parts with
  | Rendering text => Rendering (emit i out text)
  | UnknownFieldError f => UnknownFieldError f
  end.

(** Modelled from the spec: [reporter.py] is missing.  The output after block
    number [i], given the output [out] before it. *)
Definition render_block (R : Report) (i : nat) (out : string) (b : block)
  : Rendered :=
  match b with
  | SMART_EOL => Rendering (smart_eol out)
  | Literal parts =>
      if discarded R parts then Rendering out
      else render_surviving R i out parts
  end.

(** Modelled from the spec: [reporter.py] is missing.  Step 5: the blocks in
    template order. *)
Fixpoint render_from (R : Report) (i : nat) (out : string) (blocks : list block)
  : Rendered :=
  match blocks with
  | [] => Rendering out
  | b :: blocks' =>
      match render_block R i out b with
      | Rendering out' => render_from R (S i) out' blocks'
      | UnknownFieldError f => UnknownFieldError f
      end
  end.

(** Modelled from the spec: [reporter.py] is missing.  The report for a
    template. *)
Definition render (R : Report) (blocks : list block) : Rendered :=
  render_from R 0 "" blocks.

(** Modelled from the spec: [reporter.py] is missing.  A surviving block is a
    literal block that is not discarded. *)
Definition block_survives (R : Report) (b : block) : bool :=
  match b with
  | SMART_EOL => false
  | Literal parts => negb (discarded R parts)
  end.

(** Modelled from the spec: [reporter.py] is missing.  The name of a
    placeholder, up to its closing brace, and the text after it. *)
Fixpoint until_brace (s : string) : option (string * string) :=
  match s with
  | EmptyString => None
  | String c s' =>
      if Ascii.eqb c (Ascii.ascii_of_nat 125) then Some (EmptyString, s')
      else match until_brace s' with
           | Some (name, rest) => Some (String c name, rest)
           | None => None
           end
  end.

(** Modelled from the spec: [reporter.py] is missing.  A block's text as the
    template writes it: [{name}] is a placeholder.  An opening brace that is
    never closed is plain text.  [fuel] bounds the number of pieces. *)
Fixpoint parse_block_fuel (fuel : nat) (s : string) : list part :=
  match fuel with
  | O => []
  | S fuel' =>
      match s with
      | EmptyString => []
      | String c s' =>
          if Ascii.eqb c (Ascii.ascii_of_nat 123) then
            match until_brace s' with
            | Some (name, rest) => Field name :: parse_block_fuel fuel' rest
            | None => [Text s]
            end
          else
            match parse_block_fuel fuel' s' with
            | Text t :: parts => Text (String c t) :: parts
            | parts => Text (String c EmptyString) :: parts
            end
      end
  end.

(** Modelled from the spec: [reporter.py] is missing.  The block of a
    template string. *)
Definition parse_block (s : string) : block :=
  Literal (parse_block_fuel (S (String.length s)) s).

(** ** A small window, for concrete runs *)

Definition K0 : Constants := mkConstants "Ei mitattu" "Kylla" "Ei".

(** A Designer file with one widget of each class, the weight widget and one
    weight normalized pair.  The spin boxes have the minimum -1, which they show
    as 'Ei mitattu'. *)
Definition children0 : list (string * qwidget) :=
  [ ("lblOtsikko", QOther);
    ("lnTiedotPvm", QLineEdit "");
    ("spAntropPaino", QSpinBox (-1) (-1));
    ("spIsokinPolviNormUn", QSpinBox (-1) (-1));
    ("spIsokinPolviNorm", QSpinBox (-1) (-1));
    ("cbTasapOik", QComboBox ["Ei mitattu"; "Kylla"; "Ei"] 0);
    ("xbKyselyApuvaline", QCheckBox 0);
    ("cmtTiedot", QTextEdit "");
    ("csbLonkkaFleksioOik", CheckDegSpinBox (VStr "Ei mitattu")) ].

Definition patient0 : PatientFields :=
  mkPatientFields "Maija" "Meikalainen" "010101-123A" "P001" "CP".

(** The window for a newly created entry; the database answers every
    statement.  (The construction succeeds; the second branch is never
    taken.) *)
Definition app0 : State :=
  match new_EntryApp K0 children0 ∅ [] patient0 true "04.11.2026" 3 with
  | Ok st => st
  | Raise _ => blank K0 [] ∅ []
  end.

(** The scenario of the specification: the record of a report in which
    [weight] is at its default, and one in which it is not. *)
Definition R_default : Report :=
  mkReport {[ "weight" := "Ei mitattu" ]} ["weight"] {[ "Ei mitattu" := "-" ]} ∅.

Definition R_modified : Report :=
  mkReport {[ "weight" := "Ei mitattu" ]} [] {[ "Ei mitattu" := "-" ]} ∅.


(** ** Predicates on runs *)

(** [keeps I R c]: started in a state that satisfies [I], the computation [c]
    ends, with a value or an exception, in a state that satisfies [I] again
    and is related by [R] to the one it started in. *)
Definition keeps (I : State -> Prop) (R : State -> State -> Prop) {A}
  (c : M A) : Prop :=
  forall st, I st -> R st (c st).2 /\ I (c st).2.

(** What a run may touch while the window restores its widgets: the widgets
    themselves, and the record of the [values_changed] runs, each of which
    found [self.update_dict] off. *)
Definition frame (st st' : State) : Prop :=
  consts st' = consts st
  /\ input_widgets st' = input_widgets st
  /\ autowidgets st' = autowidgets st
  /\ data st' = data st
  /\ data_empty st' = data_empty st
  /\ update_dict st' = update_dict st
  /\ rdonly st' = rdonly st
  /\ roms_row st' = roms_row st
  /\ exec_outcomes st' = exec_outcomes st
  /\ sql_updates st' = sql_updates st
  /\ dialogs st' = dialogs st
  /\ exists calls, guard_log st' = (calls ++ guard_log st)%list
                   /\ Forall (fun c => c.2 = false) calls.

(** The characters of a matched 'Norm' that are still to be skipped are its
    last ones. *)
Definition skip_ok (skip : nat) (s : string) : Prop :=
  match skip with
  | 0%nat => True
  | 1%nat => exists r, s = String "m"%char r
  | 2%nat => exists r, s = String "r"%char (String "m"%char r)
  | 3%nat => exists r, s = String "o"%char (String "r"%char (String "m"%char r))
  | _ => False
  end.

(** What no method changes once [init_widgets] has run. *)
Definition same_config (st st' : State) : Prop :=
  consts st' = consts st
  /\ input_widgets st' = input_widgets st
  /\ autowidgets st' = autowidgets st
  /\ disabled st' = disabled st.

(** ** Weight normalized widgets that are ready to be calculated *)







(** The autowidgets that the loop of [init_widgets] has appended when it
    ends: all of them, or those up to and including the first one that has no
    unnormalized partner among the widgets [ws]. *)
Fixpoint appended_autowidgets (ws : gmap string qwidget) (autos : list string)
  : list string :=
  match autos with
  | [] => []
  | wname :: autos' =>
      wname :: match ws !! wname_unnorm wname with
               | Some _ => appended_autowidgets ws autos'
               | None => []
               end
  end.

(** The invariant that every state satisfies. *)
Definition always (st : State) : Prop := True.

(** The relation that allows every change. *)
Definition any_change (st st' : State) : Prop := True.

(** [self.update_dict] is off. *)
Definition guard_off (st : State) : Prop := update_dict st = false.

(** The keys of the record are those of the defaults, and the variable of every
    input widget is among them. *)
Definition keys_ok (st : State) : Prop :=
  dom (data st) = dom (data_empty st)
  /\ forall wname, wname ∈ input_widgets st -> varname_of wname ∈ dom (data st).

(** The small window after the weight 70 and the unnormalized value 35 were
    entered. *)
Definition app_weight : State :=
  run_ops 3 [Edit "spAntropPaino" (QSpinBox (-1) 70);
             Edit "spIsokinPolviNormUn" (QSpinBox (-1) 35)] app0.

(** The small window with the weight 70 just typed in, while the database is
    locked. *)
Definition app_locked : State :=
  set_widgets (<["spAntropPaino" := QSpinBox (-1) 70]> (widgets app0))
    (set_exec_outcomes [false] app0).

(** A JSON encoder for concrete runs: single quotes around a string, and every
    number as 0. *)
Definition enc_demo : JSONEncoder :=
  mkJSONEncoder (fun s => "'" ++ s ++ "'") (fun _ => "0").

(** * The rest of the class *)

(** ** Counting modified values *)

(** The list comprehension of [n_modified] over the keys of the record, in
    their order: [self.data_empty[x]] raises [KeyError] for a key that has no
    default. *)
Fixpoint modified_keys (st : State) (keys : list string) : Result (list string) :=
  match keys with
  | [] => Ok []
  | x :: keys' =>
      match getitem (data st) x, getitem (data_empty st) x with
      | Ok v, Ok v0 =>
          match modified_keys st keys' with
          | Ok l => Ok (if value_eqb v v0 then l else x :: l)
          | Raise e => Raise e
          end
      | Raise e, _ => Raise e
      | _, Raise e => Raise e
      end
  end.

(** [n_modified] *)
Definition n_modified (st : State) : Result nat :=
  match modified_keys st (map_to_list (data st)).*1 with
  | Ok l => Ok (length l)
  | Raise e => Raise e
  end.

(** ** Keys and focus *)

(** [keyPressEvent_resetOnEsc] for the Escape key: the spin box is set to its
    minimum, and its [valueChanged], which [init_widgets] connected to
    [values_changed], is emitted when that changed the value.  (Every other
    key goes to the handler of the Qt class.) *)
Definition keyPressEvent_resetOnEsc (depth : nat) (obj : string) : M unit :=
  let! ws := gets widgets in
  match ws !! obj with
  | Some (QSpinBox minimum old) =>
      let! _ := modify (set_widgets (<[obj := QSpinBox minimum minimum]> ws)) in
      if negb (Qeq_bool minimum old) then values_changed depth obj else ret tt
  | _ => raise AttributeError
  end.

(** [eventFilter]: a focus-out event of a widget the filter is installed on
    runs [values_changed] for it. *)
Definition eventFilter (depth : nat) (source : string) (focus_out : bool)
  : M unit :=
  if focus_out then values_changed depth source else ret tt.

(** [init_widgets] installs the event filter on line and comment editors. *)
Definition has_event_filter (wname : string) : bool :=
  match widget_kind wname with
  | Some Kln | Some Kcmt => true
  | _ => false
  end.

(** [self.setFocus()]: the widget that had the keyboard focus, if one had,
    loses it, and the toolkit delivers the focus-out event to the filter
    installed on it.  An exception of the filter ends the call. *)
Definition setFocus (depth : nat) (focused : option string) : M unit :=
  match focused with
  | Some wname =>
      if has_event_filter wname then eventFilter depth wname true else ret tt
  | None => ret tt
  end.

(** ** Reporting keys *)

(** [keyerror_dialog]: whether the dialog is shown.  (Its text is made with
    the formats of [Finnish], which is not among the sources, and lists the
    keys in the order of a Python set.) *)
Definition keyerror_dialog (origkeys newkeys : gset string) : M unit :=
  let cmnkeys := origkeys ∩ newkeys in
  let extra_in_new := newkeys ∖ cmnkeys in
  if bool_decide (extra_in_new ≠ ∅)
  then modify (fun st => set_dialogs (S (dialogs st)) st)
  else ret tt.

(** ** Closing the window *)

(** [str.split()]: the words between runs of white space.  [word] holds the
    characters of the current word, last first. *)
Fixpoint py_split_from (word : list Ascii.ascii) (s : string) : list string :=
  match s with
  | EmptyString =>
      match word with
      | [] => []
      | _ => [String.string_of_list_ascii (rev word)]
      end
  | String c s' =>
      if is_space c
      then match word with
           | [] => py_split_from [] s'
           | _ => String.string_of_list_ascii (rev word) :: py_split_from [] s'
           end
      else py_split_from (c :: word) s'
  end.

Definition py_split (s : string) : list string := py_split_from [] s.

(** What the closing ritual takes from outside the program: whether
    [datetime.strptime(datestr, '%d.%m.%Y')] accepts a text, the text of
    [datetime.now().strftime('%Y_%m_%d_%H_%M_%S')], whether a file of a given
    name can be opened and written, and the encoders of the [json] module. *)
Record Env : Type := mkEnv {
  strptime_ok : string -> bool;
  now_stamp : string;
  open_ok : string -> bool;
  json_enc : JSONEncoder
}.

(** The window with the attributes and collaborators of the closing ritual:
    [self.confirm_close], [self.newly_created], the files written so far (name
    under [Constants.json_backup_path] and text, latest first) and the number
    of times the [closing] signal was emitted.  [self.BACKUP_NEW_ROMS] is set
    to [True] by [__init__] and never changed. *)
Record Window : Type := mkWindow {
  app : State;
  confirm_close : bool;
  newly_created : bool;
  files : list (string * string);
  closing : nat
}.

Definition set_app (st : State) (w : Window) : Window :=
  mkWindow st (confirm_close w) (newly_created w) (files w) (closing w).

(** [_validate_date]: [strptime] raises [ValueError], which is caught, for a
    text that is no date, and [TypeError], which is not, for a number. *)
Definition _validate_date (env : Env) (datestr : value) : Result bool :=
  match datestr with
  | VStr s => Ok (strptime_ok env s)
  | VNum _ => Raise TypeError
  end.

(** [_validate_outputs]: the status; the text of the message is shown in a
    dialog and read nowhere. *)
Definition _validate_outputs (env : Env) (st : State) : Result bool :=
  match getitem (data st) "TiedotPvm" with
  | Ok date => _validate_date env date
  | Raise e => Raise e
  end.

(** [pdata] of [_compose_json_filename]:
    [self.get_patient_id_data() | self.data], in which the record wins. *)
Definition filename_pdata (st : State) : gmap string value :=
  data st ∪ get_patient_id_data st.

(** [_compose_json_filename]: the name under [Constants.json_backup_path].
    A number where a text is expected ends [fn += '_'] in [TypeError] and
    [.split()] in [AttributeError]. *)
Definition _compose_json_filename (env : Env) (st : State) : Result string :=
  let pdata := filename_pdata st in
  match getitem pdata "TiedotID" with
  | Raise e => Raise e
  | Ok (VNum _) => Raise TypeError
  | Ok (VStr fn) =>
      match getitem pdata "TiedotNimi" with
      | Raise e => Raise e
      | Ok (VNum _) => Raise AttributeError
      | Ok (VStr name) =>
          Ok (fn ++ "_" ++ String.concat "" (rev (py_split name))
                 ++ "_" ++ now_stamp env ++ ".json")
      end
  end.

(** [do_close]: the backup of a newly created entry is written, an [IOError]
    is ignored, the [closing] signal is emitted and the event is accepted. *)
Definition do_close (env : Env) (w : Window) : Result bool * Window :=
  let emit w := mkWindow (app w) (confirm_close w) (newly_created w) (files w)
                  (S (closing w)) in
  if newly_created w then
    match _compose_json_filename env (app w) with
    | Raise e => (Raise e, w)
    | Ok fn =>
        let w' := if open_ok env fn
                  then mkWindow (app w) (confirm_close w) (newly_created w)
                         ((fn, save_file (json_enc env) (app w)) :: files w)
                         (closing w)
                  else w in
        (Ok true, emit w')
    end
  else (Ok true, emit w).

(** [closeEvent]: whether the event is accepted.  [focused] is the widget that
    has the keyboard focus when the window is asked to close. *)
Definition closeEvent (env : Env) (depth : nat) (focused : option string)
  (w : Window) : Result bool * Window :=
  match setFocus depth focused (app w) with
  | (Raise e, st) => (Raise e, set_app st w)
  | (Ok _, st) =>
      let w := set_app st w in
      if negb (confirm_close w) then do_close env w
      else
        match _validate_outputs env st with
        | Raise e => (Raise e, w)
        | Ok true => do_close env w
        | Ok false => (Ok false, set_app (set_dialogs (S (dialogs st)) st) w)
        end
  end.

(** [force_close]: [self.close()] sends the close event. *)
Definition force_close (env : Env) (depth : nat) (focused : option string)
  (w : Window) : Result bool * Window :=
  closeEvent env depth focused
    (mkWindow (app w) false (newly_created w) (files w) (closing w)).

(** ** More windows for concrete runs *)

(** The small window with a record entry that is no item of its combo box. *)
Definition app_no_item : State :=
  set_data (<["TasapOik" := VStr "Ehka"]> (data app0)) app0.

(** The small window with the weight 70 just typed in; the database answers
    every statement. *)
Definition app_typed : State :=
  set_widgets (<["spAntropPaino" := QSpinBox (-1) 70]> (widgets app0)) app0.

(** The small window opened on an existing entry whose row holds a weight and
    a column that is no variable of the window. *)
Definition app_existing : State :=
  match new_EntryApp K0 children0 {[ "AntropPaino" := VNum 70; "Vanha" := VNum 1 ]}
          [] patient0 false "" 3 with
  | Ok st => st
  | Raise _ => blank K0 [] ∅ []
  end.

(** An environment for concrete runs: a date is a text of ten characters, and
    every file can be written. *)
Definition env_demo : Env :=
  mkEnv (fun s => (String.length s =? 10)%nat) "2026_11_04_12_00_00"
    (fun _ => true) enc_demo.

(** The small window as a newly created entry that asks before it closes. *)
Definition win0 : Window := mkWindow app0 true true [] 0.

(** ** More predicates on runs *)

(** The autowidgets of the window are named as [init_widgets] collects them:
    every one ends in 'Norm'. *)
Definition named_autowidgets (st : State) : Prop :=
  Forall (fun widget => is_autowidget widget = true) (autowidgets st).

(** [never e I c]: started in a state that satisfies [I], the computation [c]
    does not raise [e], and ends in a state that satisfies [I]. *)
Definition never (e : exn) (I : State -> Prop) {A} (c : M A) : Prop :=
  forall st, I st -> (c st).1 <> Raise e /\ I (c st).2.

(** The autowidgets are the names in [A]. *)
Definition autowidgets_are (A : list string) (st : State) : Prop :=
  autowidgets st = A.

(** Every widget whose name is not in [A] is as it was. *)
Definition widgets_outside (A : list string) (st st' : State) : Prop :=
  forall y, y ∉ A -> widgets st' !! y = widgets st !! y.

(** [self.update_dict] is as it was. *)
Definition same_guard (st st' : State) : Prop :=
  update_dict st' = update_dict st.

(** The string does not start with white space. *)
Definition no_leading_space (s : string) : Prop :=
  match s with
  | EmptyString => True
  | String c _ => is_space c = false
  end.

(** The text holds no white space. *)
Definition no_space (s : string) : Prop :=
  Forall (fun c => is_space c = false) (String.list_ascii_of_string s).

(** The events that reach a widget: an edit by the user, a programmatic
    [setVal]. *)
Definition is_edit (o : op) : bool :=
  match o with
  | Edit _ _ | SetVal _ _ => true
  | _ => false
  end.

(** The statement sets one column, the variable of an input widget. *)
Definition one_column (st : State) (stmt : list (string * value)) : Prop :=
  exists w v, w ∈ input_widgets st /\ stmt = [(varname_of w, v)].

Definition updates_one_column (st : State) : Prop :=
  Forall (one_column st) (sql_updates st).

(** * Properties *)

(** ** Check boxes *)

(** C8.  Reading a check box gives the 'no' label for state 0 and the 'yes'
    label for state 2, and raises for every other state ([RuntimeError] is the
    exception class the program uses for an invalid state); writing one stores
    state 0 or 2 only, so the indeterminate state 1 is never stored. *)
Theorem checkbox_states :
  (forall yes_text no_text,
      checkbox_getval yes_text no_text 0 = Ok (VStr no_text)
      /\ checkbox_getval yes_text no_text 2 = Ok (VStr yes_text))
  /\ (forall yes_text no_text st,
         st <> 0 -> st <> 2 ->
         checkbox_getval yes_text no_text st = Raise RuntimeError)
  /\ (forall K wname st,
         widget_kind wname = Some Kxb ->
         widget_getVal K wname (QCheckBox st)
         = checkbox_getval (checkbox_yestext K) (checkbox_notext K) st)
  /\ (forall K wname st val w' emitted,
         widget_setVal K wname (QCheckBox st) val = Ok (w', emitted) ->
         w' = QCheckBox 0 \/ w' = QCheckBox 2).
Proof.
  repeat split.
  - intros yes_text no_text st H0 H2. unfold checkbox_getval.
    destruct (Z.eqb_spec st 0) as [->|_]; [done|].
    destruct (Z.eqb_spec st 2) as [->|_]; [done|]. reflexivity.
  - intros K wname st Hk. unfold widget_getVal. by rewrite Hk.
  - intros K wname st val w' emitted. unfold widget_setVal.
    destruct (widget_kind wname) as [[]|]; try discriminate.
    unfold checkbox_setval.
    destruct (value_eqb val (VStr (checkbox_yestext K))).
    + intros [= <- _]. by right.
    + destruct (value_eqb val (VStr (checkbox_notext K))).
      * intros [= <- _]. by left.
      * discriminate.
Qed.

(** At a check box of the small window: state 1 raises, and storing the 'yes'
    label leaves state 2. *)
Lemma checkbox_states_witness :
  checkbox_getval "Kylla" "Ei" 1 = Raise RuntimeError
  /\ (QCheckBox 2 = QCheckBox 0 \/ QCheckBox 2 = QCheckBox 2).
Proof.
  destruct checkbox_states as (_ & Hother & _ & Hset).
  split.
  - apply Hother; lia.
  - apply (Hset K0 "xbKyselyApuvaline" 0 (VStr "Kylla") (QCheckBox 2) true).
    reflexivity.
Defined.

(** ** The report renderer *)

Lemma list_ascii_of_string_app (a b : string) :
  String.list_ascii_of_string (a ++ b)
  = (String.list_ascii_of_string a ++ String.list_ascii_of_string b)%list.
Proof. induction a as [|c a IH]; simpl; [done|]. by rewrite IH. Qed.

Lemma ends_with_newline_app_nl (a : string) :
  ends_with_newline (a ++ nl) = true.
Proof.
  unfold ends_with_newline. rewrite list_ascii_of_string_app, rev_app_distr.
  reflexivity.
Qed.

Lemma string_app_cons (x : Ascii.ascii) (a b : string) :
  (String x a ++ b = String x (a ++ b))%string.
Proof. reflexivity. Qed.

Lemma string_app_assoc (a b c : string) :
  (a ++ (b ++ c) = (a ++ b) ++ c)%string.
Proof.
  induction a as [|x a IH]; [done|]. by rewrite !string_app_cons, IH.
Qed.

Lemma ends_with_newline_nonempty (out : string) :
  ends_with_newline out = true -> out <> "".
Proof. by intros H ->. Qed.

Lemma smart_eol_nonempty (out : string) :
  out <> "" ->
  smart_eol out
  = if ends_with_newline out then out
    else (strip_trailing_sep out ++ "." ++ nl)%string.
Proof. by destruct out. Qed.

(** After the smart end-of-line no line is open: the output is empty or ends
    in a newline. *)
Lemma smart_eol_ends_line (out : string) :
  smart_eol out = "" \/ ends_with_newline (smart_eol out) = true.
Proof.
  destruct (decide (out = "")) as [->|Hne]; [by left|]. right.
  rewrite smart_eol_nonempty by done.
  destruct (ends_with_newline out) eqn:E; [done|].
  rewrite string_app_assoc. apply ends_with_newline_app_nl.
Qed.

Lemma smart_eol_fixed (out : string) :
  out = "" \/ ends_with_newline out = true -> smart_eol out = out.
Proof.
  intros [->|H]; [done|].
  rewrite smart_eol_nonempty by by apply ends_with_newline_nonempty.
  by rewrite H.
Qed.

(** Past block zero the block number plays no role. *)
Lemma render_block_past_zero R i j out b :
  render_block R (S i) out b = render_block R (S j) out b.
Proof. destruct b; reflexivity. Qed.

Lemma render_from_past_zero R i j out blocks :
  render_from R (S i) out blocks = render_from R (S j) out blocks.
Proof.
  revert i j out. induction blocks as [|b blocks IH]; intros i j out; simpl.
  - reflexivity.
  - rewrite (render_block_past_zero R i j).
    destruct (render_block R (S j) out b); [apply IH | reflexivity].
Qed.

(** A block that does not survive leaves an output in which no line is open
    as it is. *)
Lemma render_block_not_surviving R i out b :
  block_survives R b = false ->
  out = "" \/ ends_with_newline out = true ->
  render_block R i out b = Rendering out.
Proof.
  destruct b as [parts|]; simpl; intros Hs Hout.
  - apply negb_false_iff in Hs. by rewrite Hs.
  - by rewrite smart_eol_fixed.
Qed.

Lemma render_from_not_surviving R i out bs rest :
  Forall (fun b => block_survives R b = false) bs ->
  out = "" \/ ends_with_newline out = true ->
  render_from R i out (bs ++ rest) = render_from R (length bs + i) out rest.
Proof.
  intros Hbs Hout. revert i. induction Hbs as [|b bs Hb _ IH]; intros i; simpl.
  - reflexivity.
  - rewrite render_block_not_surviving by done. rewrite IH.
    f_equal. lia.
Qed.

Lemma substitute_no_fields R parts :
  block_fields parts = [] -> substitute R parts = Rendering (plain_text parts).
Proof.
  induction parts as [|[s|name] parts IH]; simpl; intros H.
  - reflexivity.
  - by rewrite IH.
  - discriminate.
Qed.

Lemma substitute_known R parts :
  (forall f, f ∈ block_fields parts -> is_Some (report_data R !! f)) ->
  exists text, substitute R parts = Rendering text.
Proof.
  induction parts as [|[s|name] parts IH]; simpl; intros H.
  - by eexists.
  - destruct (IH H) as [text ->]. by eexists.
  - destruct (IH (fun f Hf => H f (list_elem_of_further _ _ _ Hf))) as [text ->].
    destruct (H name (list_elem_of_here _ _)) as [raw Hraw].
    unfold render_field. rewrite Hraw. by eexists.
Qed.

Lemma all_default_spec R fields :
  all_default R fields = true <-> (forall f, f ∈ fields -> f ∈ report_default R).
Proof.
  unfold all_default. rewrite forallb_forall. split.
  - intros H f Hf. apply list_elem_of_In in Hf.
    specialize (H f Hf). by apply bool_decide_eq_true in H.
  - intros H f Hf. apply bool_decide_eq_true, H. by apply list_elem_of_In.
Qed.

(** C6.  A literal block whose fields are all at their default adds nothing to
    the output; a block with a field that is not at its default is rendered
    (substituted and appended, in full when the record has its fields); a block
    without placeholders is never discarded: its text is appended. *)
Theorem render_block_omission (R : Report) (i : nat) (out : string)
  (parts : list part) :
  (block_fields parts <> [] ->
   (forall f, f ∈ block_fields parts -> f ∈ report_default R) ->
   render_block R i out (Literal parts) = Rendering out)
  /\ ((exists f, f ∈ block_fields parts /\ f ∉ report_default R) ->
      render_block R i out (Literal parts) = render_surviving R i out parts
      /\ ((forall f, f ∈ block_fields parts -> is_Some (report_data R !! f)) ->
          exists text, substitute R parts = Rendering text
                       /\ render_block R i out (Literal parts)
                          = Rendering (emit i out text)))
  /\ (block_fields parts = [] ->
      render_block R i out (Literal parts)
      = Rendering (emit i out (plain_text parts))).
Proof.
  split; [|split].
  - intros Hne Hall. simpl. unfold discarded.
    destruct (block_fields parts) as [|f fs] eqn:E; [done|].
    apply all_default_spec in Hall. by rewrite Hall.
  - intros (f & Hf & Hnd).
    assert (Hd : discarded R parts = false).
    { unfold discarded. destruct (block_fields parts) as [|g fs] eqn:E; [done|].
      apply not_true_is_false. intros Hall.
      rewrite all_default_spec in Hall. by apply Hnd, Hall. }
    split.
    + simpl. by rewrite Hd.
    + intros Hknown. destruct (substitute_known R parts Hknown) as [text Ht].
      exists text. split; [done|]. simpl. rewrite Hd.
      unfold render_surviving. by rewrite Ht.
  - intros Hnone. simpl. unfold discarded, render_surviving.
    rewrite Hnone. by rewrite substitute_no_fields.
Qed.

(** The scenario of the specification, at [R_default] and [R_modified]. *)
Lemma render_block_omission_witness :
  render_block R_default 0 "" (Literal [Text "weight: "; Field "weight"; Text ", "])
  = Rendering ""
  /\ render_block R_modified 0 ""
       (Literal [Text "weight: "; Field "weight"; Text ", "])
     = render_surviving R_modified 0 ""
         [Text "weight: "; Field "weight"; Text ", "]
  /\ render_block R_modified 0 "" (Literal [Text "weight"])
     = Rendering "Weight".
Proof.
  split; [|split].
  - apply (render_block_omission R_default 0 "").
    + discriminate.
    + intros f Hf. simpl in Hf. apply list_elem_of_singleton in Hf as ->.
      apply list_elem_of_here.
  - apply (render_block_omission R_modified 0 "").
    exists "weight". split; [apply list_elem_of_here | apply not_elem_of_nil].
  - apply (render_block_omission R_modified 0 "" [Text "weight"]). reflexivity.
Defined.

(** C7.  The smart end-of-line emits nothing when the output already ends in a
    newline, and nothing at the start of the output, where there is no line to
    close; otherwise it strips the trailing run of ", " and appends "." and a
    newline.  It is idempotent, and a second marker, with no surviving block
    since the first, adds nothing: two markers close an open line with
    exactly one ".\n", and a discarded block followed by a marker renders
    the empty text. *)
Theorem smart_eol_collapse :
  (forall out, ends_with_newline out = true -> smart_eol out = out)
  /\ (forall out, out <> "" -> ends_with_newline out = false ->
        smart_eol out = (strip_trailing_sep out ++ "." ++ nl)%string)
  /\ smart_eol "" = ""
  /\ (forall out, smart_eol (smart_eol out) = smart_eol out)
  /\ (forall R i out bs rest,
        Forall (fun b => block_survives R b = false) bs ->
        render_from R i out (SMART_EOL :: bs ++ SMART_EOL :: rest)
        = render_from R i out (SMART_EOL :: bs ++ rest))
  /\ (forall R i out bs,
        Forall (fun b => block_survives R b = false) bs ->
        render_from R i out (SMART_EOL :: bs ++ [SMART_EOL])
        = Rendering (smart_eol out))
  /\ (forall R i out bs,
        Forall (fun b => block_survives R b = false) bs ->
        out <> "" -> ends_with_newline out = false ->
        render_from R i out (SMART_EOL :: bs ++ [SMART_EOL])
        = Rendering (strip_trailing_sep out ++ "." ++ nl)%string)
  /\ (forall R parts,
        discarded R parts = true ->
        render R [Literal parts; SMART_EOL] = Rendering "").
Proof.
  assert (Htwo : forall R i out bs,
             Forall (fun b => block_survives R b = false) bs ->
             render_from R i out (SMART_EOL :: bs ++ [SMART_EOL])
             = Rendering (smart_eol out)).
  { intros R i out bs Hbs. simpl.
    rewrite render_from_not_surviving by (done || apply smart_eol_ends_line).
    simpl. by rewrite smart_eol_fixed by apply smart_eol_ends_line. }
  split; [|split; [|split; [|split; [|split; [|split; [|split]]]]]].
  - intros out H. apply smart_eol_fixed. by right.
  - intros out Hne H. by rewrite smart_eol_nonempty, H.
  - reflexivity.
  - intros out. apply smart_eol_fixed, smart_eol_ends_line.
  - intros R i out bs rest Hbs. simpl.
    rewrite !render_from_not_surviving by (done || apply smart_eol_ends_line).
    simpl. rewrite smart_eol_fixed by apply smart_eol_ends_line.
    rewrite Nat.add_succ_r. apply render_from_past_zero.
  - exact Htwo.
  - intros R i out bs Hbs Hne H. by rewrite Htwo, smart_eol_nonempty, H.
  - intros R parts Hd. unfold render. simpl. by rewrite Hd.
Qed.

(** The line "weight: -, " closed by two markers with a discarded block between
    them ends in one ".\n"; and the scenario of the specification: the block
    'Weight: {weight}, ' followed by a marker renders the empty text when the
    weight is at its default, and 'Weight: -.' and a newline when it is
    not. *)
Lemma smart_eol_collapse_witness :
  render_from R_default 1 "weight: -, "
    (SMART_EOL :: [Literal [Field "weight"]] ++ [SMART_EOL])
  = Rendering ("weight: -." ++ nl)%string
  /\ smart_eol "weight: -, " = ("weight: -." ++ nl)%string
  /\ render R_default [Literal [Text "Weight: "; Field "weight"; Text ", "]; SMART_EOL]
     = Rendering ""
  /\ render R_modified [Literal [Text "Weight: "; Field "weight"; Text ", "]; SMART_EOL]
     = Rendering ("Weight: -." ++ nl)%string.
Proof.
  destruct smart_eol_collapse as (_ & Hstrip & _ & _ & _ & _ & Hone & Hscen).
  split; [|split; [|split]].
  - apply (Hone R_default 1%nat "weight: -, " [Literal [Field "weight"]]).
    + repeat constructor.
    + discriminate.
    + reflexivity.
  - apply (Hstrip "weight: -, "); [discriminate | reflexivity].
  - apply (Hscen R_default). reflexivity.
  - reflexivity.
Defined.

(** ** Runs of the window's methods *)

Section Keeps.
Context (I : State -> Prop) (R : State -> State -> Prop) `{!PreOrder R}.

Lemma keeps_same {A} (c : M A) :
  (forall st, (c st).2 = st) -> keeps I R c.
Proof. intros H st HI. rewrite H. by split. Qed.

Lemma keeps_ret {A} (a : A) : keeps I R (ret a).
Proof. by apply keeps_same. Qed.

Lemma keeps_raise {A} (e : exn) : keeps I R (raise (A:=A) e).
Proof. by apply keeps_same. Qed.

Lemma keeps_lift {A} (r : Result A) : keeps I R (lift r).
Proof. by apply keeps_same. Qed.

Lemma keeps_gets {A} (f : State -> A) : keeps I R (gets f).
Proof. by apply keeps_same. Qed.

Lemma keeps_modify (f : State -> State) :
  (forall st, I st -> R st (f st) /\ I (f st)) -> keeps I R (modify f).
Proof. intros H st HI. by apply H. Qed.

Lemma keeps_bind {A B} (c : M A) (k : A -> M B) :
  keeps I R c -> (forall a, keeps I R (k a)) -> keeps I R (bind c k).
Proof.
  intros Hc Hk st HI. unfold bind. specialize (Hc st HI).
  destruct (c st) as [[a|e] st1]; simpl in *.
  - destruct Hc as [HR1 HI1]. destruct (Hk a st1 HI1) as [HR2 HI2].
    split; [by etrans|done].
  - done.
Qed.

Lemma keeps_for_each {A} (l : list A) (body : A -> M unit) :
  (forall x, x ∈ l -> keeps I R (body x)) -> keeps I R (for_each l body).
Proof.
  induction l as [|x l IH]; intros Hbody; simpl.
  - apply keeps_ret.
  - apply keeps_bind.
    + apply Hbody, list_elem_of_here.
    + intros _. apply IH. intros y Hy. by apply Hbody, list_elem_of_further.
Qed.

Lemma keeps_if {A} (b : bool) (c1 c2 : M A) :
  keeps I R c1 -> keeps I R c2 -> keeps I R (if b then c1 else c2).
Proof. by destruct b. Qed.

Lemma keeps_widget_to_var (wname : string) : keeps I R (widget_to_var wname).
Proof.
  apply keeps_same. intros st. unfold widget_to_var. by case_bool_decide.
Qed.

Lemma keeps_getVal (wname : string) : keeps I R (getVal wname).
Proof.
  apply keeps_same. intros st. unfold getVal. by destruct (widgets st !! wname).
Qed.

(** Writing the widgets is the only step of [setVal] and [_weight_normalize]
    themselves. *)
Hypothesis keeps_widgets :
  forall ws st, I st -> R st (set_widgets ws st) /\ I (set_widgets ws st).

Lemma keeps_setVal (notify : string -> M unit) (wname : string) (val : value) :
  (forall w, keeps I R (notify w)) -> keeps I R (setVal notify wname val).
Proof.
  intros Hn. unfold setVal. apply keeps_bind.
  { apply keeps_same. intros st. by destruct (widgets st !! wname). }
  intros w. apply keeps_bind; [apply keeps_gets|]. intros K.
  destruct (widget_setVal K wname w val) as [[w' emitted]|e].
  - apply keeps_bind.
    + apply keeps_modify. intros st HI. by apply keeps_widgets.
    + intros _. apply keeps_if; [apply Hn | apply keeps_ret].
  - apply keeps_raise.
Qed.

Lemma keeps_weight_normalize (notify : string -> M unit) (w : string) :
  (forall w, keeps I R (notify w)) -> keeps I R (_weight_normalize notify w).
Proof.
  intros Hn. unfold _weight_normalize.
  apply keeps_bind; [apply keeps_getVal|]. intros val.
  apply keeps_bind; [apply keeps_getVal|]. intros weight.
  apply keeps_bind; [apply keeps_gets|]. intros K.
  apply keeps_bind.
  - apply keeps_if; [apply keeps_ret | apply keeps_lift].
  - intros res. by apply keeps_setVal.
Qed.

(** [values_changed] keeps what its second half keeps. *)
Lemma keeps_values_changed (depth : nat) (w : string) :
  (forall w, keeps I R (update_dict_and_rom w)) ->
  keeps I R (values_changed depth w).
Proof.
  intros Hrec. revert w. induction depth as [|depth IH]; intros w; simpl.
  - apply keeps_raise.
  - apply keeps_bind; [|intros _; apply Hrec].
    apply keeps_bind; [apply keeps_gets|]. intros autos.
    apply keeps_for_each. intros x _. by apply keeps_weight_normalize.
Qed.

End Keeps.

(** *** Restoring the widgets *)

Global Instance frame_preorder : PreOrder frame.
Proof.
  split.
  - intros st. repeat split. exists []. by split.
  - intros s1 s2 s3 H12 H23.
    destruct H12 as (?&?&?&?&?&?&?&?&?&?&?&calls1&Hl1&Hc1).
    destruct H23 as (?&?&?&?&?&?&?&?&?&?&?&calls2&Hl2&Hc2).
    repeat split; try congruence.
    exists (calls2 ++ calls1)%list. split.
    + by rewrite Hl2, Hl1, app_assoc.
    + by apply Forall_app.
Qed.

Lemma frame_set_widgets ws st :
  guard_off st -> frame st (set_widgets ws st) /\ guard_off (set_widgets ws st).
Proof. intros H. split; [|done]. repeat split. exists []. by split. Qed.

Lemma quiet_update_dict_and_rom (w : string) :
  keeps guard_off frame (update_dict_and_rom w).
Proof.
  intros st H. unfold update_dict_and_rom, bind, gets, modify; simpl.
  rewrite H. simpl. split; [|done].
  repeat split. exists [(w, false)]. split; [done|]. by constructor.
Qed.

Lemma quiet_values_changed (depth : nat) (w : string) :
  keeps guard_off frame (values_changed depth w).
Proof.
  apply keeps_values_changed; try apply _.
  - apply frame_set_widgets.
  - apply quiet_update_dict_and_rom.
Qed.

Lemma quiet_restore_loop (depth : nat) (wnames : list string) :
  keeps guard_off frame
    (for_each wnames (fun wname =>
       let! var := widget_to_var wname in
       let! val := (fun st => (getitem (data st) var, st)) in
       setVal (values_changed depth) wname val)).
Proof.
  apply keeps_for_each; [apply _|]. intros wname _.
  apply keeps_bind; [apply _ | apply keeps_widget_to_var; apply _ |].
  intros var. apply keeps_bind; [apply _ | apply keeps_same; [apply _ | done] |].
  intros val. apply keeps_setVal; [apply _ | apply frame_set_widgets |].
  intros w. apply quiet_values_changed.
Qed.

(** What [restore_forms] leaves alone, and what it does to the guard. *)
Lemma restore_forms_effect (depth : nat) (st : State) :
  let r := restore_forms depth st in
  frame (set_update_dict (is_ok r.1) st) r.2.
Proof.
  unfold restore_forms, bind, modify, gets; simpl.
  pose proof (quiet_restore_loop depth (input_widgets st)
                (set_update_dict false st) eq_refl) as [Hf Hoff].
  unfold guard_off in Hoff.
  destruct (for_each _ _ _) as [[[]|e] st1]; simpl in *;
    destruct Hf as (?&?&?&?&?&?&?&?&?&?&?&calls&Hl&Hc);
    repeat split; try done; by exists calls.
Qed.

Lemma select_run (vars : list string) st :
  select vars st
  = (if next_exec st
     then Ok ((fun var => roms_row st !! var) <$> vars)
     else Raise RuntimeError,
     set_exec_outcomes (tail (exec_outcomes st)) st).
Proof. unfold select, bind, exec. by destruct (next_exec st). Qed.

(** [_read_data] sends no UPDATE and shows no dialog. *)
Lemma read_data_no_writes (depth : nat) (st : State) :
  let l := _read_data depth st in
  roms_row l.2 = roms_row st
  /\ sql_updates l.2 = sql_updates st
  /\ dialogs l.2 = dialogs st
  /\ (is_ok l.1 = true -> update_dict l.2 = true).
Proof.
  assert (Hrun : _read_data depth st
                 = if next_exec st
                   then restore_forms depth
                          (set_data
                             (record_di (map_to_list (data st)).*1
                                ((fun var => roms_row st !! var)
                                   <$> (map_to_list (data st)).*1)
                              ∪ data_empty st)
                             (set_exec_outcomes (tail (exec_outcomes st)) st))
                   else (Raise RuntimeError,
                         set_exec_outcomes (tail (exec_outcomes st)) st)).
  { unfold _read_data. unfold bind at 1, gets at 1. unfold bind at 1.
    rewrite select_run. by destruct (next_exec st). }
  cbv zeta. rewrite Hrun. destruct (next_exec st).
  - match goal with |- context [restore_forms depth ?s] =>
      destruct (restore_forms_effect depth s) as (_&_&_&_&_&Hu&_&Hr&_&Hs&Hg&_)
    end.
    rewrite Hr, Hs, Hg. repeat split.
    intros Hok. rewrite Hu. simpl. exact Hok.
  - by repeat split.
Qed.

(** C10.  Whatever the widgets and the record hold, [restore_forms] leaves the
    record, the defaults, the database row and the statements sent as they
    were and opens no dialog; every [values_changed] run it triggers finds
    [self.update_dict] off; and [self.update_dict] is on when [restore_forms]
    returns (it stays off when a setter raises and ends the method early).
    The same holds for the restore at the end of [_read_data]: a load sends
    no UPDATE and returns with [self.update_dict] on. *)
Theorem restore_forms_frame (depth : nat) (st : State) :
  let r := restore_forms depth st in
  let l := _read_data depth st in
  data r.2 = data st
  /\ data_empty r.2 = data_empty st
  /\ roms_row r.2 = roms_row st
  /\ sql_updates r.2 = sql_updates st
  /\ exec_outcomes r.2 = exec_outcomes st
  /\ dialogs r.2 = dialogs st
  /\ update_dict r.2 = is_ok r.1
  /\ (exists calls, guard_log r.2 = (calls ++ guard_log st)%list
                    /\ Forall (fun c => c.2 = false) calls)
  /\ roms_row l.2 = roms_row st
  /\ sql_updates l.2 = sql_updates st
  /\ dialogs l.2 = dialogs st
  /\ (is_ok l.1 = true -> update_dict l.2 = true).
Proof.
  intros r l.
  destruct (restore_forms_effect depth st)
    as (_&_&_&Hd&He&Hu&_&Hr&Ho&Hs&Hg&calls&Hl&Hc).
  fold r in Hd, He, Hu, Hr, Ho, Hs, Hg, Hl.
  destruct (read_data_no_writes depth st) as (Hlr & Hls & Hlg & Hlu).
  fold l in Hlr, Hls, Hlg, Hlu.
  repeat split; try done. by exists calls.
Qed.

(** *** The keys of the record *)

Global Instance any_change_preorder : PreOrder any_change.
Proof. by split. Qed.

Lemma bind_ok_inv {A B} (c : M A) (k : A -> M B) st b st' :
  bind c k st = (Ok b, st') ->
  exists a st1, c st = (Ok a, st1) /\ k a st1 = (Ok b, st').
Proof.
  unfold bind. destruct (c st) as [[a|e] st1]; [|discriminate].
  intros H. by exists a, st1.
Qed.

Lemma keys_ok_set_widgets ws st :
  keys_ok st -> any_change st (set_widgets ws st) /\ keys_ok (set_widgets ws st).
Proof. done. Qed.

Lemma keys_keeps_exec : keeps keys_ok any_change exec.
Proof. by intros st H. Qed.

Lemma keys_keeps_db_failure fatal : keeps keys_ok any_change (db_failure fatal).
Proof. destruct fatal; [apply keeps_raise; apply _|]. by intros st H. Qed.

Lemma keys_keeps_select vars : keeps keys_ok any_change (select vars).
Proof.
  unfold select. apply keeps_bind; [apply _ | apply keys_keeps_exec |].
  intros ok. apply keeps_bind; [apply _ | |].
  - apply keeps_if; [apply keeps_ret; apply _ | apply keys_keeps_db_failure].
  - intros _. apply keeps_gets; apply _.
Qed.

Lemma keys_keeps_update_rom vars values :
  keeps keys_ok any_change (update_rom vars values).
Proof.
  unfold update_rom. apply keeps_if; [apply keeps_raise; apply _|].
  apply keeps_bind; [apply _ | by intros st H |].
  intros _. apply keeps_bind; [apply _ | apply keys_keeps_exec |].
  intros ok. apply keeps_if; [by intros st H | apply keys_keeps_db_failure].
Qed.

(** Storing the value of an input widget under its variable adds no key. *)
Lemma keys_ok_store (wname : string) (val : value) st :
  keys_ok st -> wname ∈ input_widgets st ->
  keys_ok (set_data (<[varname_of wname := val]> (data st)) st).
Proof.
  intros [Hdom Hin] Hw. pose proof (Hin wname Hw) as Hvar.
  assert (Hsame : dom (<[varname_of wname := val]> (data st)) = dom (data st)).
  { rewrite dom_insert_L. apply subseteq_union_1_L.
    by apply singleton_subseteq_l. }
  split; simpl.
  - by rewrite Hsame.
  - intros w' Hw'. rewrite Hsame. by apply Hin.
Qed.

Lemma keys_keeps_update_dict_and_rom (w : string) :
  keeps keys_ok any_change (update_dict_and_rom w).
Proof.
  unfold update_dict_and_rom.
  apply keeps_bind; [apply _ | apply keeps_gets; apply _ |]. intros guard.
  apply keeps_bind; [apply _ | by intros st H |]. intros _.
  destruct guard; [|apply keeps_ret; apply _].
  intros st H. split; [done|].
  unfold bind, widget_to_var. case_bool_decide as Hw; [|done].
  pose proof (keeps_getVal keys_ok any_change w st H) as [_ Hg].
  assert (Hst : (getVal w st).2 = st).
  { unfold getVal. by destruct (widgets st !! w). }
  destruct (getVal w st) as [[newval|e] st1]; simpl in *; [|done]. subst st1.
  apply (keys_keeps_update_rom _ _ _ (keys_ok_store w newval st H Hw)).
Qed.

Lemma keys_keeps_values_changed (depth : nat) (w : string) :
  keeps keys_ok any_change (values_changed depth w).
Proof.
  apply keeps_values_changed; [apply _ | apply keys_ok_set_widgets |].
  apply keys_keeps_update_dict_and_rom.
Qed.

Lemma keys_keeps_setVal (depth : nat) (wname : string) (val : value) :
  keeps keys_ok any_change (setVal (values_changed depth) wname val).
Proof.
  apply keeps_setVal; [apply _ | apply keys_ok_set_widgets |].
  intros w. apply keys_keeps_values_changed.
Qed.

Lemma keys_keeps_restore_forms (depth : nat) :
  keeps keys_ok any_change (restore_forms depth).
Proof.
  unfold restore_forms.
  apply keeps_bind; [apply _ | by intros st H |]. intros _.
  apply keeps_bind; [apply _ | apply keeps_gets; apply _ |]. intros wnames.
  apply keeps_bind; [apply _ | | by intros _ st H].
  apply keeps_for_each; [apply _|]. intros wname _.
  apply keeps_bind; [apply _ | apply keeps_widget_to_var; apply _ |].
  intros var. apply keeps_bind; [apply _ | apply keeps_same; [apply _ | done] |].
  intros val. apply keys_keeps_setVal.
Qed.

Lemma keys_keeps_read_forms : keeps keys_ok any_change read_forms.
Proof.
  unfold read_forms.
  apply keeps_bind; [apply _ | apply keeps_gets; apply _ |]. intros wnames.
  apply keeps_for_each; [apply _|]. intros wname _.
  intros st H. split; [done|].
  unfold bind, widget_to_var. case_bool_decide as Hw; [|done].
  assert (Hst : (getVal wname st).2 = st).
  { unfold getVal. by destruct (widgets st !! wname). }
  destruct (getVal wname st) as [[val|e] st1]; simpl in *; subst st1; [|done].
  by apply keys_ok_store.
Qed.

(** The dict comprehension of [_read_data] has a key only for a variable that
    was asked for, and then the column's value. *)
Lemma record_di_lookup (vars : list string) (row : gmap string value) k v :
  record_di vars ((fun var => row !! var) <$> vars) !! k = Some v ->
  k ∈ vars /\ row !! k = Some v.
Proof.
  unfold record_di. intros H. apply elem_of_list_to_map_2 in H.
  apply list_elem_of_omap in H as ([var qval] & Hzip & Hsome).
  simpl in Hsome. destruct qval as [v'|]; [|discriminate].
  injection Hsome as -> ->.
  apply list_elem_of_lookup in Hzip as [i Hi].
  apply lookup_zip_with_Some in Hi as (x & y & Heq & Hx & Hy).
  injection Heq as <- <-.
  rewrite list_lookup_fmap, Hx in Hy. simpl in Hy. injection Hy as Hy.
  split; [|done]. by eapply list_elem_of_lookup_2.
Qed.

Lemma keys_keeps_read_data (depth : nat) :
  keeps keys_ok any_change (_read_data depth).
Proof.
  unfold _read_data.
  intros st H. split; [done|]. unfold bind at 1, gets at 1.
  set (vars := (map_to_list (data st)).*1).
  unfold bind at 1.
  pose proof (keys_keeps_select vars st H) as [_ Hsel].
  destruct (select vars st) as [[qvals|e] st1] eqn:Esel; simpl in *; [|done].
  assert (Hq : qvals = (fun var => roms_row st1 !! var) <$> vars).
  { unfold select, bind, exec in Esel.
    destruct (next_exec st); simpl in Esel;
      try discriminate; by injection Esel as <- <-. }
  assert (Hsame : data st1 = data st /\ data_empty st1 = data_empty st
                  /\ input_widgets st1 = input_widgets st).
  { unfold select, bind, exec in Esel.
    destruct (next_exec st); simpl in Esel;
      try discriminate; by injection Esel as _ <-. }
  destruct Hsame as (Hd & He & Hi).
  unfold bind at 1, modify at 1.
  apply keys_keeps_restore_forms.
  destruct H as [Hdom Hin].
  assert (Hnew : dom (record_di vars qvals ∪ data_empty st1) = dom (data st)).
  { rewrite dom_union_L, He, <- Hdom. apply set_eq. intros k.
    rewrite elem_of_union. split; [|by right].
    intros [Hk|Hk]; [|done].
    apply elem_of_dom in Hk as [v Hv]. subst qvals.
    apply record_di_lookup in Hv as [Hk _].
    unfold vars in Hk. apply list_elem_of_fmap in Hk as ([k' v'] & -> & Hkv).
    apply elem_of_map_to_list in Hkv. apply elem_of_dom. by eexists. }
  split; simpl.
  - by rewrite Hnew, He.
  - intros w Hw. rewrite Hnew. apply Hin. by rewrite <- Hi.
Qed.

Lemma keys_keeps_run_op (depth : nat) (o : op) :
  keeps keys_ok any_change (run_op depth o).
Proof.
  destruct o as [wname w|wname val| | | |row outcomes]; simpl.
  - apply keeps_bind; [apply _ | apply keeps_gets; apply _ |]. intros off.
    apply keeps_if; [apply keeps_ret; apply _|].
    apply keeps_bind; [apply _ | by intros st H |].
    intros _. apply keys_keeps_values_changed.
  - apply keys_keeps_setVal.
  - apply keys_keeps_read_data.
  - apply keys_keeps_read_forms.
  - apply keys_keeps_restore_forms.
  - by intros st H.
Qed.

Lemma keys_ok_run_ops (depth : nat) (ops : list op) (st : State) :
  keys_ok st -> keys_ok (run_ops depth ops st).
Proof.
  revert st. induction ops as [|o ops IH]; intros st H; simpl; [done|].
  apply IH. by apply keys_keeps_run_op.
Qed.

(** Reading the forms gives every input widget's variable a key. *)
Lemma read_forms_loop_keys (l : list string) st st' :
  for_each l (fun wname =>
    let! var := widget_to_var wname in
    let! val := getVal wname in
    modify (fun st => set_data (<[var := val]> (data st)) st)) st = (Ok tt, st') ->
  input_widgets st' = input_widgets st
  /\ dom (data st) ⊆ dom (data st')
  /\ forall wname, wname ∈ l -> varname_of wname ∈ dom (data st').
Proof.
  revert st. induction l as [|w l IH]; intros st; simpl.
  - intros [= <-]. split; [done|]. split; [done|]. intros w Hw. inversion Hw.
  - intros H. apply bind_ok_inv in H as ([] & st1 & Hbody & Hrest).
    apply bind_ok_inv in Hbody as (var & st0 & Hvar & Hbody).
    apply bind_ok_inv in Hbody as (val & st0' & Hval & Hbody).
    unfold widget_to_var in Hvar. case_bool_decide; [|discriminate].
    injection Hvar as <- <-.
    unfold getVal in Hval. destruct (widgets st !! w); [|discriminate].
    injection Hval as _ <-. injection Hbody as <-.
    destruct (IH _ Hrest) as (Hi & Hsub & Hl). simpl in *.
    rewrite dom_insert_L in Hsub.
    split; [done|]. split.
    { etrans; [|exact Hsub]. apply union_subseteq_r. }
    intros w' Hw'. apply elem_of_cons in Hw' as [->|Hw']; [|by apply Hl].
    apply Hsub, elem_of_union_l. by apply elem_of_singleton.
Qed.

Lemma keys_keeps_init_readonly_fields patient :
  keeps keys_ok any_change (init_readonly_fields patient).
Proof.
  unfold init_readonly_fields.
  apply keeps_bind; [apply _ | apply keys_keeps_select |]. intros _.
  apply keeps_bind; [apply _ | apply keys_keeps_exec |]. intros ok.
  apply keeps_if; [by intros st H | apply keeps_raise; apply _].
Qed.

(** A constructed window has the same keys in its record and its defaults. *)
Lemma new_EntryApp_keys_ok K children row outcomes patient newly_created
  datestr depth st :
  new_EntryApp K children row outcomes patient newly_created datestr depth
  = Ok st ->
  keys_ok st.
Proof.
  unfold new_EntryApp, EntryApp_init.
  destruct (bind _ _ _) as [[[]|e] st'] eqn:E; [|discriminate].
  intros [= ->].
  apply bind_ok_inv in E as ([] & s1 & _ & E).
  apply bind_ok_inv in E as ([] & s2 & [= <-] & E).
  apply bind_ok_inv in E as ([] & s3 & Hread & E).
  apply bind_ok_inv in E as ([] & s4 & [= <-] & E).
  unfold read_forms, bind at 1, gets at 1 in Hread.
  apply read_forms_loop_keys in Hread as (Hi & _ & Hl). simpl in Hi, Hl.
  assert (H4 : keys_ok (set_data_empty (data s3) s3)).
  { split; [done|]. simpl. intros w Hw. apply Hl. by rewrite <- Hi. }
  match type of E with ?c _ = _ =>
    assert (Hk : keeps keys_ok any_change c) end.
  { apply keeps_bind; [apply _ | by intros s H |]. intros _.
    apply keeps_bind; [apply _ | apply keys_keeps_init_readonly_fields |].
    intros _. apply keeps_if.
    - apply keeps_bind; [apply _ | apply keeps_gets; apply _ |]. intros ws.
      apply keeps_bind; [apply _ | |].
      + destruct (ws !! "lnTiedotPvm") as [[]|];
          first [apply keeps_raise; apply _ | by intros s H].
      + intros _. apply keys_keeps_values_changed.
    - apply keys_keeps_read_data. }
  apply Hk in H4 as [_ H4]. by rewrite E in H4.
Qed.

(** C5.  From construction on and after every sequence of events (edits,
    programmatic sets, loads, reads of the forms, restores, changes of the
    database from outside), a name is a key of the record exactly when it is a
    key of the defaults. *)
Theorem record_keys_are_default_keys K children row outcomes patient
  newly_created datestr depth st :
  new_EntryApp K children row outcomes patient newly_created datestr depth
  = Ok st ->
  forall depth' ops f,
    f ∈ dom (data (run_ops depth' ops st))
    <-> f ∈ dom (data_empty (run_ops depth' ops st)).
Proof.
  intros Hnew depth' ops f.
  apply new_EntryApp_keys_ok in Hnew.
  destruct (keys_ok_run_ops depth' ops st Hnew) as [Hdom _].
  by rewrite Hdom.
Qed.

Lemma record_keys_are_default_keys_witness :
  "AntropPaino"
    ∈ dom (data (run_ops 3 [Edit "spAntropPaino" (QSpinBox (-1) 70); ReadData] app0))
  <-> "AntropPaino"
    ∈ dom (data_empty
             (run_ops 3 [Edit "spAntropPaino" (QSpinBox (-1) 70); ReadData] app0)).
Proof.
  apply (record_keys_are_default_keys K0 children0 ∅ [] patient0 true
           "04.11.2026" 3 app0).
  vm_compute. reflexivity.
Defined.

(** *** Loading the record *)

Lemma record_di_spec (vars : list string) (row : gmap string value) k :
  record_di vars ((fun var => row !! var) <$> vars) !! k
  = if bool_decide (k ∈ vars) then row !! k else None.
Proof.
  unfold record_di. induction vars as [|x vars IH].
  - cbn. apply lookup_empty.
  - rewrite fmap_cons. cbn [zip zip_with omap list_omap].
    destruct (decide (k = x)) as [->|Hne].
    + rewrite (bool_decide_eq_true_2 (x ∈ x :: vars)) by apply list_elem_of_here.
      cbn [fst snd]. destruct (row !! x) as [v|] eqn:Ex.
      * cbn [list_to_map foldr]. by rewrite lookup_insert_eq.
      * fold (zip vars ((fun var => row !! var) <$> vars)).
        rewrite IH. by case_bool_decide.
    + assert (Hb : bool_decide (k ∈ x :: vars) = bool_decide (k ∈ vars)).
      { apply bool_decide_ext. rewrite elem_of_cons. tauto. }
      rewrite Hb, <- IH. cbn [fst snd]. destruct (row !! x) as [v|] eqn:Ex.
      * cbn [list_to_map foldr]. by rewrite lookup_insert_ne.
      * done.
Qed.

Lemma select_ok (vars : list string) st :
  next_exec st = true ->
  exists st1, select vars st = (Ok ((fun var => roms_row st !! var) <$> vars), st1)
              /\ data st1 = data st /\ data_empty st1 = data_empty st
              /\ roms_row st1 = roms_row st.
Proof.
  unfold select, bind, exec. intros H. rewrite H. simpl. by eexists.
Qed.

(** C3.  When the database answers the SELECT, [_read_data] leaves in the
    record, for every key of the record (derived fields included), the column's
    value when it is not NULL and the default otherwise; so a row whose
    columns hold the values of a snapshot gives these values back, and a field
    that is NULL in the row gets its default. *)
Theorem read_data_record (depth : nat) (st : State) (f : string) :
  next_exec st = true ->
  f ∈ dom (data st) ->
  let st' := (_read_data depth st).2 in
  data st' !! f = match roms_row st !! f with
                  | Some v => Some v
                  | None => data_empty st !! f
                  end
  /\ (forall snapshot : gmap string value,
        roms_row st ⊆ snapshot ->
        is_Some (roms_row st !! f) -> data st' !! f = snapshot !! f)
  /\ (roms_row st !! f = None -> data st' !! f = data_empty st !! f).
Proof.
  intros Hexec Hf st'.
  assert (Hmain : data st' !! f = match roms_row st !! f with
                                  | Some v => Some v
                                  | None => data_empty st !! f
                                  end).
  { unfold st', _read_data. unfold bind at 1, gets at 1. unfold bind at 1.
    destruct (select_ok (map_to_list (data st)).*1 st Hexec)
      as (st1 & -> & Hd & He & Hr).
    unfold bind at 1, modify at 1.
    destruct (restore_forms_effect depth
                (set_data (record_di (map_to_list (data st)).*1
                             ((fun var => roms_row st !! var)
                                <$> (map_to_list (data st)).*1)
                           ∪ data_empty st1) st1))
      as (_&_&_&Hdata&_).
    rewrite Hdata. simpl.
    rewrite lookup_union, record_di_spec, He.
    rewrite bool_decide_eq_true_2.
    - destruct (roms_row st !! f), (data_empty st !! f); done.
    - apply elem_of_dom in Hf as [v Hv].
      apply list_elem_of_fmap. exists (f, v). split; [done|].
      by apply elem_of_map_to_list. }
  split; [done|]. split.
  - intros snapshot Hsub [v Hv]. rewrite Hmain, Hv.
    symmetry. by eapply lookup_weaken.
  - intros Hnull. by rewrite Hmain, Hnull.
Qed.

Lemma read_data_record_witness :
  data (_read_data 3 app_weight).2 !! "AntropPaino"
  = match roms_row app_weight !! "AntropPaino" with
    | Some v => Some v
    | None => data_empty app_weight !! "AntropPaino"
    end.
Proof.
  apply (read_data_record 3 app_weight "AntropPaino").
  - reflexivity.
  - apply elem_of_dom. exists (VNum 70). vm_compute. reflexivity.
Defined.

(** ** Names of weight normalized widgets *)

Lemma string_length_app (a b : string) :
  String.length (a ++ b) = (String.length a + String.length b)%nat.
Proof.
  induction a as [|x a IH]; [done|].
  rewrite string_app_cons. simpl. by rewrite IH.
Qed.

Lemma substring_app_skip (u v : string) (k m : nat) :
  String.substring (String.length u + k) m (u ++ v) = String.substring k m v.
Proof.
  induction u as [|x u IH]; [done|]. rewrite string_app_cons. simpl.
  exact IH.
Qed.

Lemma substring_split (s : string) (n : nat) :
  (n <= String.length s)%nat ->
  s = (String.substring 0 n s ++ String.substring n (String.length s - n) s)%string.
Proof.
  revert n. induction s as [|x s IH]; intros n Hn; simpl in Hn.
  - assert (n = 0%nat) as -> by lia. reflexivity.
  - destruct n as [|n].
    + simpl. change (("" ++ ?a)%string) with a. f_equal.
      clear. induction s as [|y s IH]; simpl; [done|]. by rewrite <- IH.
    + simpl. rewrite string_app_cons. f_equal. apply IH. lia.
Qed.

(** A name whose last four characters are 'Norm' ends in 'Norm'. *)
Lemma py_suffix_Norm (s : string) :
  py_suffix 4 s = "Norm" -> exists t, s = (t ++ "Norm")%string.
Proof.
  intros H.
  exists (String.substring 0 (String.length s - 4) s).
  rewrite <- H. unfold py_suffix, py_drop.
  apply substring_split. lia.
Qed.

Lemma py_suffix_app_NormUn (u : string) :
  py_suffix 4 (u ++ "NormUn") = "rmUn".
Proof.
  unfold py_suffix, py_drop. rewrite string_length_app. simpl String.length.
  replace (String.length u + 6 - 4)%nat with (String.length u + 2)%nat by lia.
  replace (String.length u + 6 - (String.length u + 2))%nat with 4%nat by lia.
  by rewrite substring_app_skip.
Qed.

Lemma py_replace_from_ends (t : string) (skip : nat) :
  skip_ok skip (t ++ "Norm") ->
  exists u, py_replace_from skip "Norm" "NormUn" (t ++ "Norm")
            = (u ++ "NormUn")%string.
Proof.
  revert skip. induction t as [|c t IH]; intros skip Hs.
  - change (("" ++ "Norm")%string) with "Norm" in *.
    destruct skip as [|[|[|[|skip]]]]; simpl in Hs.
    + by exists "".
    + by destruct Hs as [r [=]].
    + by destruct Hs as [r [=]].
    + by destruct Hs as [r [=]].
    + done.
  - rewrite string_app_cons in *.
    destruct skip as [|skip].
    + cbn [py_replace_from].
      destruct (String.prefix "Norm" (String c (t ++ "Norm"))) eqn:Ep.
      * assert (Hk : skip_ok 3 (t ++ "Norm")).
        { apply String.prefix_correct in Ep. simpl in Ep.
          destruct (t ++ "Norm")%string as [|c1 [|c2 [|c3 r]]];
            try discriminate.
          injection Ep as -> -> -> -> _. by exists r. }
        destruct (IH 3%nat Hk) as [u Hu].
        change (String.length "Norm" - 1)%nat with 3%nat. rewrite Hu.
        exists ("NormUn" ++ u)%string. by rewrite string_app_assoc.
      * destruct (IH 0%nat I) as [u Hu]. rewrite Hu.
        by exists (String c u).
    + cbn [py_replace_from].
      apply IH.
      destruct skip as [|[|[|skip]]]; simpl in Hs |- *.
      * done.
      * destruct Hs as [r [= -> Hr]]. by exists r.
      * destruct Hs as [r [= -> Hr]]. by exists r.
      * done.
Qed.

(** The dependencies have one level: the inputs of an autowidget are no
    autowidgets. *)
Lemma autoinputs_not_auto (widget w : string) :
  is_autowidget widget = true -> w ∈ _autoinputs widget ->
  is_autowidget w = false.
Proof.
  intros Hauto Hin. unfold _autoinputs in Hin.
  apply elem_of_cons in Hin as [->|Hin].
  - unfold is_autowidget in *. apply String.eqb_eq in Hauto.
    apply py_suffix_Norm in Hauto as [t ->].
    unfold wname_unnorm, py_replace.
    destruct (py_replace_from_ends t 0 I) as [u ->].
    by rewrite py_suffix_app_NormUn.
  - apply list_elem_of_singleton in Hin as ->. reflexivity.
Qed.

(** ** One change of a value *)

Lemma getVal_state (w : string) st : (getVal w st).2 = st.
Proof. unfold getVal. by destruct (widgets st !! w). Qed.

Lemma autowidgets_this_nil (w : string) (autos : list string) :
  is_autowidget w = true ->
  Forall (fun widget => is_autowidget widget = true) autos ->
  autowidgets_this w autos = [].
Proof.
  intros Hw Hautos. unfold autowidgets_this.
  induction Hautos as [|x autos Hx _ IH]; [done|].
  rewrite filter_cons, IH. destruct (decide (w ∈ _autoinputs x)) as [Hin|]; [|done].
  apply (autoinputs_not_auto x w Hx) in Hin. congruence.
Qed.

Lemma values_changed_S (depth : nat) (w : string) :
  values_changed (S depth) w
  = (let! _ := update_autowidgets (values_changed depth) w in
     update_dict_and_rom w).
Proof. reflexivity. Qed.

Lemma values_changed_no_dependents (depth : nat) (w : string) st :
  autowidgets_this w (autowidgets st) = [] ->
  values_changed (S depth) w st = update_dict_and_rom w st.
Proof.
  intros H. simpl. unfold update_autowidgets, bind, gets. by rewrite H.
Qed.

(** With [self.update_dict] on, the second half stores the widget's value and
    sends the UPDATE. *)
Lemma update_dict_and_rom_on (w : string) (v : value) st :
  update_dict st = true -> w ∈ input_widgets st -> (getVal w st).1 = Ok v ->
  update_dict_and_rom w st
  = update_rom [varname_of w] [v]
      (set_data (<[varname_of w := v]> (data st))
         (set_guard_log ((w, true) :: guard_log st) st)).
Proof.
  intros Hg Hw Hv. unfold update_dict_and_rom, bind, gets, modify; simpl.
  rewrite Hg. unfold widget_to_var; simpl.
  rewrite bool_decide_eq_true_2 by done.
  unfold getVal in *; simpl. destruct (widgets st !! w) as [q|]; [|done].
  simpl in Hv. by rewrite Hv.
Qed.

Lemma update_rom_fails (var : string) (v : value) (rest : list bool) st :
  exec_outcomes st = false :: rest ->
  update_rom [var] [v] st
  = (Ok tt, set_dialogs (S (dialogs st))
              (set_exec_outcomes rest
                 (set_sql_updates ([(var, v)] :: sql_updates st) st))).
Proof.
  intros H. unfold update_rom, bind, modify, exec; simpl.
  change (next_exec (set_sql_updates ([(var, v)] :: sql_updates st) st))
    with (next_exec st).
  unfold next_exec. by rewrite H.
Qed.

Lemma update_rom_succeeds (var : string) (v : value) st :
  next_exec st = true ->
  update_rom [var] [v] st
  = (Ok tt, set_roms_row (<[var := v]> (roms_row st))
              (set_exec_outcomes (tail (exec_outcomes st))
                 (set_sql_updates ([(var, v)] :: sql_updates st) st))).
Proof.
  intros H. unfold update_rom, bind, modify, exec; simpl.
  change (next_exec (set_sql_updates ([(var, v)] :: sql_updates st) st))
    with (next_exec st).
  by rewrite H.
Qed.

(** C4.  When the first half of [values_changed] has run, [self.update_dict] is
    on and the database refuses the UPDATE for the changed widget,
    [values_changed] returns without an exception, the failure is shown in one
    dialog, the row is as it was, and the record holds the new value. *)
Theorem failed_write_keeps_record (depth : nat) (w : string) (v : value)
  (rest : list bool) (st st1 : State) :
  update_autowidgets (values_changed depth) w st = (Ok tt, st1) ->
  update_dict st1 = true ->
  w ∈ input_widgets st1 ->
  (getVal w st1).1 = Ok v ->
  exec_outcomes st1 = false :: rest ->
  let r := values_changed (S depth) w st in
  r.1 = Ok tt
  /\ data r.2 = <[varname_of w := v]> (data st1)
  /\ data r.2 !! varname_of w = Some v
  /\ roms_row r.2 = roms_row st1
  /\ sql_updates r.2 = [(varname_of w, v)] :: sql_updates st1
  /\ dialogs r.2 = S (dialogs st1).
Proof.
  intros Hfirst Hg Hw Hv Hexec r. unfold r. simpl. unfold bind.
  rewrite Hfirst. rewrite (update_dict_and_rom_on w v) by done.
  erewrite update_rom_fails by exact Hexec. simpl.
  repeat split. apply lookup_insert_eq.
Qed.

Lemma failed_write_keeps_record_witness :
  (values_changed 3 "spAntropPaino" app_locked).1 = Ok tt
  /\ data (values_changed 3 "spAntropPaino" app_locked).2 !! "AntropPaino"
     = Some (VNum 70)
  /\ roms_row (values_changed 3 "spAntropPaino" app_locked).2
     = roms_row (update_autowidgets (values_changed 2) "spAntropPaino"
                   app_locked).2.
Proof.
  destruct (failed_write_keeps_record 2 "spAntropPaino" (VNum 70) [] app_locked
              (update_autowidgets (values_changed 2) "spAntropPaino"
                 app_locked).2)
    as (Hok & _ & Hdata & Hrow & _).
  - vm_compute. reflexivity.
  - reflexivity.
  - vm_compute. repeat constructor.
  - reflexivity.
  - reflexivity.
  - by repeat split.
Defined.

(** ** What stays as [init_widgets] left it *)

Global Instance same_config_preorder : PreOrder same_config.
Proof.
  split.
  - by intros st.
  - intros s1 s2 s3 (?&?&?&?) (?&?&?&?). repeat split; congruence.
Qed.

Ltac config_step :=
  first
    [ apply keeps_ret; apply _
    | apply keeps_raise; apply _
    | apply keeps_lift; apply _
    | apply keeps_gets; apply _
    | apply keeps_widget_to_var; apply _
    | apply keeps_getVal; apply _
    | apply keeps_modify; by intros ? ?
    | apply keeps_same; [apply _ | done]
    | apply keeps_bind; [apply _ | | intros ?]
    | apply keeps_for_each; [apply _ | intros ? _]
    | apply keeps_if ].

Ltac config_steps leaf := repeat first [ leaf | config_step ].

Lemma config_keeps_exec : keeps always same_config exec.
Proof. by intros st H. Qed.

Lemma config_keeps_db_failure fatal : keeps always same_config (db_failure fatal).
Proof. destruct fatal; [config_step | by intros st H]. Qed.

Lemma config_keeps_select vars : keeps always same_config (select vars).
Proof.
  unfold select.
  config_steps ltac:(first [apply config_keeps_exec | apply config_keeps_db_failure]).
Qed.

Lemma config_keeps_update_rom vars values :
  keeps always same_config (update_rom vars values).
Proof.
  unfold update_rom.
  config_steps ltac:(first [apply config_keeps_exec | apply config_keeps_db_failure]).
Qed.

Lemma config_keeps_update_dict_and_rom w :
  keeps always same_config (update_dict_and_rom w).
Proof.
  unfold update_dict_and_rom.
  config_steps ltac:(apply config_keeps_update_rom).
Qed.

Lemma config_keeps_values_changed depth w :
  keeps always same_config (values_changed depth w).
Proof.
  apply keeps_values_changed; [apply _ | done |].
  apply config_keeps_update_dict_and_rom.
Qed.

Lemma config_keeps_setVal depth wname val :
  keeps always same_config (setVal (values_changed depth) wname val).
Proof.
  apply keeps_setVal; [apply _ | done |].
  intros w. apply config_keeps_values_changed.
Qed.

Lemma config_keeps_restore_forms depth :
  keeps always same_config (restore_forms depth).
Proof.
  unfold restore_forms. config_steps ltac:(apply config_keeps_setVal).
Qed.

Lemma config_keeps_read_forms : keeps always same_config read_forms.
Proof. unfold read_forms. config_steps fail. Qed.

Lemma config_keeps_read_data depth : keeps always same_config (_read_data depth).
Proof.
  unfold _read_data.
  config_steps ltac:(first [ apply config_keeps_select
                           | apply config_keeps_restore_forms ]).
Qed.

(** *** The run of [init_widgets] *)

Lemma set_autowidgets_same st : set_autowidgets (autowidgets st) st = st.
Proof. by destruct st. Qed.

Lemma appended_autowidgets_all (ws : gmap string qwidget) (autos : list string) :
  forallb (fun wname => bool_decide (is_Some (ws !! wname_unnorm wname))) autos
  = true ->
  appended_autowidgets ws autos = autos.
Proof.
  induction autos as [|x autos IH]; [done|]. cbn [forallb appended_autowidgets].
  destruct (ws !! wname_unnorm x) as [q|]; [|done]. simpl.
  intros H. by rewrite IH.
Qed.

Lemma autowidgets_loop_run (ws : gmap string qwidget) (autos : list string) st :
  for_each autos (fun wname =>
    let! _ := modify (fun st => set_autowidgets (autowidgets st ++ [wname]) st) in
    match ws !! wname_unnorm wname with
    | Some _ => ret tt
    | None => raise KeyError
    end) st
  = (if forallb (fun wname => bool_decide (is_Some (ws !! wname_unnorm wname))) autos
     then Ok tt else Raise KeyError,
     set_autowidgets (autowidgets st ++ appended_autowidgets ws autos) st).
Proof.
  revert st. induction autos as [|x autos IH]; intros st.
  - cbn. by rewrite app_nil_r, set_autowidgets_same.
  - cbn [for_each forallb appended_autowidgets]. unfold bind at 1 2, modify at 1.
    destruct (ws !! wname_unnorm x) as [q|] eqn:Ex; simpl.
    + rewrite IH. simpl. by rewrite <- app_assoc.
    + done.
Qed.

Lemma init_widgets_run (allwidgets : list string) st :
  init_widgets allwidgets st
  = match widgets st !! weight_widget with
    | None => (Raise AttributeError, set_autowidgets [] (set_input_widgets [] st))
    | Some _ =>
        if forallb (fun wname => bool_decide (is_Some (widgets st !! wname_unnorm wname)))
             (filter (fun wname => is_autowidget wname = true) allwidgets)
        then (Ok tt,
              mkState (consts st) (widgets st)
                (filter (fun wname => is_input_widget wname = true) allwidgets)
                (filter (fun wname => is_autowidget wname = true) allwidgets)
                (filter (fun wname => is_autowidget wname = true) allwidgets)
                (data st) (data_empty st) (update_dict st) (rdonly st)
                (roms_row st) (exec_outcomes st) (sql_updates st) (dialogs st)
                (guard_log st))
        else (Raise KeyError,
              set_autowidgets
                (appended_autowidgets (widgets st)
                   (filter (fun wname => is_autowidget wname = true) allwidgets))
                (set_input_widgets [] st))
    end.
Proof.
  unfold init_widgets. unfold bind at 1, modify at 1. unfold bind at 1, modify at 1.
  unfold bind at 1, gets at 1. unfold bind at 1. simpl.
  destruct (widgets st !! weight_widget) as [q|]; [|done]. cbn [ret].
  unfold bind at 1. rewrite autowidgets_loop_run. simpl.
  destruct (forallb _ _) eqn:Hall; [|done].
  by rewrite appended_autowidgets_all.
Qed.

(** A constructed window has its autowidgets disabled, and they are the
    widgets whose names end in 'Norm'. *)
Lemma new_EntryApp_autowidgets K children row outcomes patient newly_created
  datestr depth st :
  new_EntryApp K children row outcomes patient newly_created datestr depth
  = Ok st ->
  disabled st = autowidgets st
  /\ Forall (fun widget => is_autowidget widget = true) (autowidgets st).
Proof.
  unfold new_EntryApp, EntryApp_init.
  destruct (bind _ _ _) as [[[]|e] st'] eqn:E; [|discriminate].
  intros [= ->].
  apply bind_ok_inv in E as ([] & s1 & Hinit & E).
  assert (H1 : disabled s1 = autowidgets s1
               /\ Forall (fun widget => is_autowidget widget = true)
                    (autowidgets s1)).
  { rewrite init_widgets_run in Hinit.
    destruct (widgets _ !! weight_widget); [|done].
    destruct (forallb _ _); [|done].
    injection Hinit as <-. simpl. split; [done|].
    apply Forall_forall. intros x Hx. by apply list_elem_of_filter in Hx as [? _]. }
  match type of E with ?c _ = _ =>
    assert (Hk : keeps always same_config c) end.
  { unfold init_readonly_fields.
    config_steps ltac:(first [ (match goal with
                                | |- context [?ws !! "lnTiedotPvm"] =>
                                    destruct (ws !! "lnTiedotPvm") as [[]|]
                                end)
                             | apply config_keeps_read_forms
                             | apply config_keeps_select
                             | apply config_keeps_exec
                             | apply config_keeps_values_changed
                             | apply config_keeps_read_data ]). }
  destruct (Hk s1 I) as [(_ & _ & Ha & Hd) _]. rewrite E in Ha, Hd. simpl in *.
  by rewrite Hd, Ha.
Qed.

(** C2, as the program has it.  A derived field is protected by its widget
    being disabled when the window is built, and by nothing else: an edit by
    the user does not reach a disabled widget, raises nothing and changes
    nothing; and with [self.update_dict] on, a change notification for the
    widget of a derived field raises nothing, stores the widget's value in the
    record and writes it to the database. *)
Theorem derived_field_set_accepted :
  (forall K children row outcomes patient newly_created datestr depth st,
      new_EntryApp K children row outcomes patient newly_created datestr depth
      = Ok st ->
      disabled st = autowidgets st)
  /\ (forall depth st d w,
        d ∈ disabled st -> run_op depth (Edit d w) st = (Ok tt, st))
  /\ (forall depth st d v,
        is_autowidget d = true ->
        Forall (fun widget => is_autowidget widget = true) (autowidgets st) ->
        update_dict st = true ->
        d ∈ input_widgets st ->
        (getVal d st).1 = Ok v ->
        next_exec st = true ->
        let r := values_changed (S depth) d st in
        r.1 = Ok tt
        /\ data r.2 = <[varname_of d := v]> (data st)
        /\ roms_row r.2 = <[varname_of d := v]> (roms_row st)).
Proof.
  split; [|split].
  - intros K children row outcomes patient newly_created datestr depth st H.
    by apply new_EntryApp_autowidgets in H as [H _].
  - intros depth st d w Hd. simpl. unfold bind, gets.
    by rewrite bool_decide_eq_true_2.
  - intros depth st d v Hd Hautos Hg Hin Hv Hexec r. unfold r.
    rewrite values_changed_no_dependents by by apply autowidgets_this_nil.
    rewrite (update_dict_and_rom_on d v) by done.
    by rewrite update_rom_succeeds.
Qed.

(** In the small window the normalized value reads 35/70; the notification of
    its widget is accepted. *)
Lemma derived_field_set_accepted_witness :
  (values_changed 1 "spIsokinPolviNorm" app_weight).1 = Ok tt
  /\ data (values_changed 1 "spIsokinPolviNorm" app_weight).2
     = <["IsokinPolviNorm" := VNum (35 # 70)]> (data app_weight).
Proof.
  destruct derived_field_set_accepted as (_ & _ & H).
  destruct (H 0%nat app_weight "spIsokinPolviNorm" (VNum (35 # 70)))
    as (Hok & Hdata & _).
  - reflexivity.
  - vm_compute. repeat constructor.
  - reflexivity.
  - vm_compute. repeat constructor.
  - vm_compute. reflexivity.
  - reflexivity.
  - by split.
Defined.

(** C2 as stated fails: in the small window, setting the derived field
    [IsokinPolviNorm] to 9 through its widget returns normally, and the record,
    which held 35/70, holds 9. *)
Lemma derived_field_set_not_rejected :
  bool_decide ("spIsokinPolviNorm" ∈ autowidgets app_weight) = true
  /\ data app_weight !! "IsokinPolviNorm" = Some (VNum (35 # 70))
  /\ (run_op 3 (SetVal "spIsokinPolviNorm" (VNum 9)) app_weight).1 = Ok tt
  /\ data (run_op 3 (SetVal "spIsokinPolviNorm" (VNum 9)) app_weight).2
       !! "IsokinPolviNorm" = Some (VNum 9).
Proof. vm_compute. repeat split. Qed.

(** ** Weight normalization *)



Lemma getVal_spin st w m v :
  widget_kind w = Some Ksp -> widgets st !! w = Some (QSpinBox m v) ->
  getVal w st = (Ok (spinbox_getval (spinbox_novalue_text (consts st)) m v), st).
Proof. intros Hk Hw. unfold getVal, widget_getVal. by rewrite Hw, Hk. Qed.












(** ** The JSON backup *)



Global Instance item_le_trans : Transitive item_le.
Proof. intros a b c. unfold item_le. apply (transitivity (R:=String.le)). Qed.













(** * More properties of the window *)

(** ** The dependencies of weight normalized widgets *)

(** X1.  The dependencies of the weight normalized widgets have one level:
    neither the unnormalized partner nor the weight widget of a widget whose
    name ends in 'Norm' has itself a name that ends in 'Norm'. *)
Theorem autoinputs_one_level (widget w : string) :
  is_autowidget widget = true ->
  w ∈ _autoinputs widget ->
  is_autowidget w = false.
Proof. intros Hauto Hin. by apply (autoinputs_not_auto widget). Qed.

Lemma autoinputs_one_level_witness :
  is_autowidget "spIsokinPolviNormUn" = false.
Proof.
  apply (autoinputs_one_level "spIsokinPolviNorm").
  - reflexivity.
  - apply list_elem_of_here.
Defined.

(** ** The call stack of [values_changed] *)

Lemma setVal_notify_ext (n1 n2 : string -> M unit) (wname : string)
  (val : value) st :
  (forall ws, n1 wname (set_widgets ws st) = n2 wname (set_widgets ws st)) ->
  setVal n1 wname val st = setVal n2 wname val st.
Proof.
  intros H. unfold setVal, bind, gets, modify.
  destruct (widgets st !! wname) as [w|]; [|done].
  destruct (widget_setVal (consts st) wname w val) as [[w' []]|e];
    [apply H | done | done].
Qed.

Lemma weight_normalize_notify_ext (n1 n2 : string -> M unit) (w : string) st :
  (forall ws, n1 w (set_widgets ws st) = n2 w (set_widgets ws st)) ->
  _weight_normalize n1 w st = _weight_normalize n2 w st.
Proof.
  intros H. unfold _weight_normalize, bind, getVal, gets.
  destruct (widgets st !! wname_unnorm w) as [q1|]; [|done].
  destruct (widget_getVal (consts st) (wname_unnorm w) q1) as [val|e]; [|done].
  destruct (widgets st !! weight_widget) as [q2|]; [|done].
  destruct (widget_getVal (consts st) weight_widget q2) as [weight|e]; [|done].
  destruct (value_eqb val _ || value_eqb weight _).
  - unfold ret. by apply setVal_notify_ext.
  - unfold lift. destruct (py_truediv val weight); [|done].
    by apply setVal_notify_ext.
Qed.

Lemma for_each_ext_inv {A} (I : State -> Prop) (l : list A)
  (b1 b2 : A -> M unit) st :
  I st ->
  (forall x s, x ∈ l -> I s -> b1 x s = b2 x s /\ I (b2 x s).2) ->
  for_each l b1 st = for_each l b2 st.
Proof.
  revert st. induction l as [|x l IH]; intros st HI Hb; [done|].
  cbn [for_each]. unfold bind.
  destruct (Hb x st (list_elem_of_here _ _) HI) as [-> HI'].
  destruct (b2 x st) as [[[]|e] st1]; [|done]. simpl in HI'.
  apply IH; [done|]. intros y s Hy. by apply Hb, list_elem_of_further.
Qed.

Lemma named_keeps_weight_normalize (depth : nat) (x : string) st :
  named_autowidgets st ->
  named_autowidgets (_weight_normalize (values_changed depth) x st).2.
Proof.
  intros H.
  destruct (keeps_weight_normalize always same_config
              (fun ws s _ => conj (reflexivity (R:=same_config) _) I)
              (values_changed depth) x
              (fun w => config_keeps_values_changed depth w) st I)
    as [(_ & _ & Ha & _) _].
  unfold named_autowidgets. by rewrite Ha.
Qed.

Lemma values_changed_of_autowidget (depth : nat) (x : string) st :
  is_autowidget x = true -> named_autowidgets st ->
  values_changed (S depth) x st = update_dict_and_rom x st.
Proof.
  intros Hx Hn. apply values_changed_no_dependents.
  by apply autowidgets_this_nil.
Qed.

(** Two frames are enough. *)
Lemma values_changed_depth (depth : nat) (w : string) st :
  named_autowidgets st ->
  values_changed (S (S depth)) w st = values_changed 2 w st.
Proof.
  intros Hn. rewrite (values_changed_S (S depth)), (values_changed_S 1).
  unfold bind at 1.
  assert (H : update_autowidgets (values_changed (S depth)) w st
              = update_autowidgets (values_changed 1) w st).
  { unfold update_autowidgets, bind, gets.
    apply (for_each_ext_inv named_autowidgets); [done|].
    intros x s Hx Hs. split; [|by apply named_keeps_weight_normalize].
    apply list_elem_of_filter in Hx as [_ Hx].
    unfold named_autowidgets in Hn. rewrite Forall_forall in Hn.
    apply weight_normalize_notify_ext. intros ws.
    by rewrite !values_changed_of_autowidget by (done || by apply Hn). }
  by rewrite H.
Qed.

Section Never.
Context (e : exn) (I : State -> Prop).

Lemma never_pure {A} (c : M A) :
  (forall st, (c st).1 <> Raise e /\ (c st).2 = st) -> never e I c.
Proof. intros H st HI. destruct (H st) as [Hr ->]. by split. Qed.

Lemma never_bind {A B} (c : M A) (k : A -> M B) :
  never e I c -> (forall a, never e I (k a)) -> never e I (bind c k).
Proof.
  intros Hc Hk st HI. unfold bind. specialize (Hc st HI).
  destruct (c st) as [[a|e'] st1]; simpl in *.
  - apply Hk. by destruct Hc.
  - destruct Hc as [Hr HI1]. split; [|done]. intros [= ->]. by apply Hr.
Qed.

Lemma never_for_each {A} (l : list A) (body : A -> M unit) :
  (forall x, x ∈ l -> never e I (body x)) -> never e I (for_each l body).
Proof.
  induction l as [|x l IH]; intros Hbody; simpl.
  - by apply never_pure.
  - apply never_bind.
    + apply Hbody, list_elem_of_here.
    + intros _. apply IH. intros y Hy. by apply Hbody, list_elem_of_further.
Qed.

Lemma never_if {A} (b : bool) (c1 c2 : M A) :
  never e I c1 -> never e I c2 -> never e I (if b then c1 else c2).
Proof. by destruct b. Qed.

Lemma never_modify (f : State -> State) :
  (forall st, I st -> I (f st)) -> never e I (modify f).
Proof. intros H st HI. split; [done | by apply H]. Qed.

End Never.

Lemma named_never_getVal (w : string) :
  never RecursionError named_autowidgets (getVal w).
Proof.
  apply never_pure. intros st. rewrite getVal_state. split; [|done].
  unfold getVal. destruct (widgets st !! w) as [q|]; [|done]. simpl.
  unfold widget_getVal, checkbox_getval.
  destruct (widget_kind w) as [[]|], q; try done.
  by repeat case_match.
Qed.

Lemma named_never_update_rom vars values :
  never RecursionError named_autowidgets (update_rom vars values).
Proof.
  unfold update_rom. apply never_if; [by apply never_pure|].
  apply never_bind; [by apply never_modify|]. intros _.
  apply never_bind; [by intros st H|]. intros ok.
  apply never_if; [by apply never_modify|].
  by apply never_modify.
Qed.

Lemma named_never_update_dict_and_rom (w : string) :
  never RecursionError named_autowidgets (update_dict_and_rom w).
Proof.
  unfold update_dict_and_rom.
  apply never_bind; [by apply never_pure|]. intros guard.
  apply never_bind; [by apply never_modify|]. intros _.
  apply never_if; [|by apply never_pure].
  apply never_bind.
  { apply never_pure. intros st. unfold widget_to_var. by case_bool_decide. }
  intros varname. apply never_bind; [apply named_never_getVal|]. intros newval.
  apply never_bind; [by apply never_modify|]. intros _.
  apply named_never_update_rom.
Qed.

Lemma named_never_setVal (notify : string -> M unit) (wname : string)
  (val : value) :
  never RecursionError named_autowidgets (notify wname) ->
  never RecursionError named_autowidgets (setVal notify wname val).
Proof.
  intros Hn. unfold setVal. apply never_bind.
  { apply never_pure. intros st. by destruct (widgets st !! wname). }
  intros w. apply never_bind; [by apply never_pure|]. intros K.
  destruct (widget_setVal K wname w val) as [[w' emitted]|e'] eqn:E.
  - apply never_bind; [by apply never_modify|]. intros _.
    apply never_if; [done | by apply never_pure].
  - apply never_pure. intros st. split; [|done]. simpl. intros [= ->].
    unfold widget_setVal, spinbox_setval, combobox_setval, checkbox_setval in E.
    destruct (widget_kind wname) as [[]|], w; try discriminate;
      repeat (case_match; try discriminate); congruence.
Qed.

Lemma named_never_weight_normalize (notify : string -> M unit) (w : string) :
  never RecursionError named_autowidgets (notify w) ->
  never RecursionError named_autowidgets (_weight_normalize notify w).
Proof.
  intros Hn. unfold _weight_normalize.
  apply never_bind; [apply named_never_getVal|]. intros val.
  apply never_bind; [apply named_never_getVal|]. intros weight.
  apply never_bind; [by apply never_pure|]. intros K.
  apply never_bind.
  - apply never_if; [by apply never_pure|].
    apply never_pure. intros st. split; [|done]. unfold lift, py_truediv. simpl.
    by repeat case_match.
  - intros res. by apply named_never_setVal.
Qed.

Lemma named_never_values_changed_2 (w : string) :
  never RecursionError named_autowidgets (values_changed 2 w).
Proof.
  rewrite values_changed_S.
  apply never_bind; [|intros _; apply named_never_update_dict_and_rom].
  intros st Hn. unfold update_autowidgets, bind, gets.
  apply never_for_each; [|done].
  intros x Hx. apply list_elem_of_filter in Hx as [_ Hx].
  assert (Hxa : is_autowidget x = true).
  { unfold named_autowidgets in Hn. rewrite Forall_forall in Hn. by apply Hn. }
  apply named_never_weight_normalize.
  intros s Hs. rewrite values_changed_of_autowidget by done.
  by apply named_never_update_dict_and_rom.
Qed.

(** X2.  In a window whose autowidgets are named by the convention,
    [values_changed] needs two frames of the call stack and no more: with more
    room it computes what it computes with two frames, and it never ends in a
    [RecursionError]. *)
Theorem values_changed_two_frames (depth : nat) (w : string) (st : State) :
  named_autowidgets st ->
  values_changed (S (S depth)) w st = values_changed 2 w st
  /\ (values_changed (S (S depth)) w st).1 <> Raise RecursionError.
Proof.
  intros Hn. rewrite values_changed_depth by done. split; [done|].
  by apply named_never_values_changed_2.
Qed.

Lemma values_changed_two_frames_witness :
  values_changed 7 "spAntropPaino" app_weight
  = values_changed 2 "spAntropPaino" app_weight.
Proof.
  apply (values_changed_two_frames 5 "spAntropPaino" app_weight).
  vm_compute. repeat constructor.
Defined.

(** ** The widgets [values_changed] writes *)

Global Instance widgets_outside_preorder (A : list string) :
  PreOrder (widgets_outside A).
Proof.
  split.
  - by intros st y Hy.
  - intros s1 s2 s3 H12 H23 y Hy. by rewrite H23, H12.
Qed.

Lemma outside_update_dict_and_rom (A : list string) (w : string) :
  keeps (autowidgets_are A) (widgets_outside A) (update_dict_and_rom w).
Proof.
  intros st HA. unfold update_dict_and_rom, bind, gets, modify. simpl.
  destruct (update_dict st); [|done].
  unfold widget_to_var. simpl. case_bool_decide; [|done].
  unfold getVal. simpl. destruct (widgets st !! w) as [q|]; [|done].
  destruct (widget_getVal (consts st) w q) as [v|e]; [|done].
  unfold update_rom, bind, modify, exec, db_failure. simpl.
  by destruct (next_exec _).
Qed.

Lemma outside_setVal (A : list string) (notify : string -> M unit)
  (x : string) (val : value) :
  x ∈ A ->
  (forall w, keeps (autowidgets_are A) (widgets_outside A) (notify w)) ->
  keeps (autowidgets_are A) (widgets_outside A) (setVal notify x val).
Proof.
  intros Hx Hn. unfold setVal. apply keeps_bind; [apply _ | |].
  { apply keeps_same; [apply _|]. intros st. by destruct (widgets st !! x). }
  intros q. apply keeps_bind; [apply _ | apply keeps_gets; apply _ |]. intros K.
  destruct (widget_setVal K x q val) as [[q' emitted]|e].
  - apply keeps_bind; [apply _ | |].
    + apply keeps_modify. intros st HA. split; [|done].
      intros y Hy. simpl. apply lookup_insert_ne. by intros ->.
    + intros _. apply keeps_if; [apply Hn | apply keeps_ret; apply _].
  - apply keeps_raise; apply _.
Qed.

Lemma outside_weight_normalize (A : list string) (notify : string -> M unit)
  (x : string) :
  x ∈ A ->
  (forall w, keeps (autowidgets_are A) (widgets_outside A) (notify w)) ->
  keeps (autowidgets_are A) (widgets_outside A) (_weight_normalize notify x).
Proof.
  intros Hx Hn. unfold _weight_normalize.
  apply keeps_bind; [apply _ | apply keeps_getVal; apply _ |]. intros val.
  apply keeps_bind; [apply _ | apply keeps_getVal; apply _ |]. intros weight.
  apply keeps_bind; [apply _ | apply keeps_gets; apply _ |]. intros K.
  apply keeps_bind; [apply _ | |].
  - apply keeps_if; [apply keeps_ret | apply keeps_lift]; apply _.
  - intros res. by apply outside_setVal.
Qed.

Lemma outside_values_changed (A : list string) (depth : nat) (w : string) :
  keeps (autowidgets_are A) (widgets_outside A) (values_changed depth w).
Proof.
  revert w. induction depth as [|depth IH]; intros w.
  - apply keeps_raise; apply _.
  - rewrite values_changed_S.
    apply keeps_bind; [apply _ | | intros _; apply outside_update_dict_and_rom].
    intros st HA. unfold update_autowidgets, bind, gets.
    apply keeps_for_each; [apply _ | | done].
    intros x Hx. apply list_elem_of_filter in Hx as [_ Hx].
    apply outside_weight_normalize; [|done]. by rewrite <- HA.
Qed.

Lemma outside_values_changed_lookup (depth : nat) (w y : string) (st : State) :
  y ∉ autowidgets st ->
  widgets (values_changed depth w st).2 !! y = widgets st !! y.
Proof.
  intros Hy.
  by apply (outside_values_changed (autowidgets st) depth w st eq_refl).
Qed.

(** X3.  [values_changed] writes no widget but autowidgets: a widget that is
    not among [self.autowidgets] is after the call, however it ends, as it was
    before. *)
Theorem values_changed_writes_autowidgets (depth : nat) (w y : string)
  (st : State) :
  y ∉ autowidgets st ->
  widgets (values_changed depth w st).2 !! y = widgets st !! y.
Proof.
  intros Hy. by apply outside_values_changed_lookup.
Qed.

Lemma values_changed_writes_autowidgets_witness :
  widgets (values_changed 3 "spAntropPaino"
             (set_widgets (<["spAntropPaino" := QSpinBox (-1) 80]>
                             (widgets app_weight)) app_weight)).2
    !! "spIsokinPolviNormUn"
  = widgets (set_widgets (<["spAntropPaino" := QSpinBox (-1) 80]>
                            (widgets app_weight)) app_weight)
      !! "spIsokinPolviNormUn".
Proof.
  apply (values_changed_writes_autowidgets 3 "spAntropPaino"
           "spIsokinPolviNormUn").
  vm_compute. intros H. repeat (apply elem_of_cons in H as [H|H]; [done|]).
  by apply elem_of_nil in H.
Defined.

(** ** What a widget reads back *)

Lemma lstrip_no_leading_space (s : string) : no_leading_space (lstrip s).
Proof.
  induction s as [|c s IH]; [done|]. cbn [lstrip].
  by destruct (is_space c) eqn:Hc.
Qed.

Lemma lstrip_fixed (s : string) : no_leading_space s -> lstrip s = s.
Proof. destruct s as [|c s]; [done|]. cbn. by intros ->. Qed.

Lemma lstrip_split (s : string) : exists sp, s = (sp ++ lstrip s)%string.
Proof.
  induction s as [|c s [sp IH]]; [by exists ""|]. cbn [lstrip].
  destruct (is_space c).
  - exists (String c sp). by rewrite string_app_cons, <- IH.
  - by exists "".
Qed.

Lemma string_of_list_ascii_app (a b : list Ascii.ascii) :
  String.string_of_list_ascii (a ++ b)
  = (String.string_of_list_ascii a ++ String.string_of_list_ascii b)%string.
Proof.
  induction a as [|x a IH]; [done|]. cbn. by rewrite IH, string_app_cons.
Qed.

Lemma string_rev_app (a b : string) :
  string_rev (a ++ b) = (string_rev b ++ string_rev a)%string.
Proof.
  unfold string_rev.
  by rewrite list_ascii_of_string_app, rev_app_distr, string_of_list_ascii_app.
Qed.

Lemma string_rev_involutive (s : string) : string_rev (string_rev s) = s.
Proof.
  unfold string_rev.
  by rewrite String.list_ascii_of_string_of_list_ascii, rev_involutive,
    String.string_of_list_ascii_of_string.
Qed.

Lemma no_leading_space_prefix (a b : string) :
  no_leading_space (a ++ b) -> no_leading_space a.
Proof. destruct a as [|c a]; [done|]. by rewrite string_app_cons. Qed.

Lemma py_strip_no_leading_space (s : string) : no_leading_space (py_strip s).
Proof.
  unfold py_strip.
  destruct (lstrip_split (string_rev (lstrip s))) as [sp Hsp].
  apply (no_leading_space_prefix _ (string_rev sp)).
  rewrite <- string_rev_app, <- Hsp, string_rev_involutive.
  apply lstrip_no_leading_space.
Qed.

Lemma py_strip_idemp (s : string) : py_strip (py_strip s) = py_strip s.
Proof.
  unfold py_strip at 1.
  rewrite (lstrip_fixed (py_strip s)) by apply py_strip_no_leading_space.
  unfold py_strip. rewrite string_rev_involutive.
  by rewrite (lstrip_fixed (lstrip _)) by apply lstrip_no_leading_space.
Qed.

Lemma findText_range (items : list string) (val : string) :
  -1 <= findText items val.
Proof.
  induction items as [|item items IH]; cbn [findText]; [lia|].
  destruct (String.eqb item val); [lia|]. destruct (Z.ltb_spec (findText items val) 0); lia.
Qed.

Lemma findText_found (items : list string) (val : string) :
  0 <= findText items val ->
  items !! Z.to_nat (findText items val) = Some val.
Proof.
  induction items as [|item items IH]; cbn [findText]; [lia|].
  destruct (String.eqb_spec item val) as [->|Hne]; [done|].
  destruct (Z.ltb_spec (findText items val) 0) as [Hlt|Hge]; [lia|]. intros _.
  rewrite Z2Nat.inj_add by lia. rewrite Nat.add_comm. cbn. by apply IH.
Qed.

Lemma findText_first (items : list string) (val : string) (j : nat) :
  (Z.of_nat j < findText items val) -> items !! j <> Some val.
Proof.
  revert j. induction items as [|item items IH]; intros j; cbn [findText]; [lia|].
  destruct (String.eqb_spec item val) as [->|Hne]; [lia|].
  destruct (Z.ltb_spec (findText items val) 0) as [Hlt|Hge]; [lia|]. intros Hj.
  destruct j as [|j]; cbn; [congruence|]. apply IH. lia.
Qed.

Lemma findText_missing (items : list string) (val : string) :
  val ∉ items <-> findText items val = -1.
Proof.
  induction items as [|item items IH]; cbn [findText].
  - split; [done|]. intros _. apply not_elem_of_nil.
  - rewrite not_elem_of_cons, IH.
    destruct (String.eqb_spec item val) as [->|Hne].
    + split; [by intros [? _] | lia].
    + pose proof (findText_range items val).
      destruct (Z.ltb_spec (findText items val) 0).
      * split; [done|]. intros _. split; [congruence | lia].
      * split; [intros [_ ?]|]; lia.
Qed.

Lemma currentText_findText (items : list string) (val : string) :
  0 <= findText items val -> currentText items (findText items val) = val.
Proof.
  intros H. unfold currentText.
  destruct (Z.ltb_spec (findText items val) 0); [lia|].
  by rewrite findText_found.
Qed.

Lemma setVal_read_back (K : Constants) (wname : string) (w w' : qwidget)
  (val : value) (emitted : bool) :
  widget_setVal K wname w val = Ok (w', emitted) ->
  exists v',
    widget_getVal K wname w' = Ok v'
    /\ match widget_kind wname, w with
       | Some Ksp, QSpinBox minimum _ =>
           v' = if value_eqb val (VNum minimum)
                then VStr (spinbox_novalue_text K) else val
       | Some Kln, _ | Some Kcmt, _ =>
           exists s, val = VStr s /\ v' = VStr (py_strip s)
       | _, _ => v' = val
       end.
Proof.
  unfold widget_setVal, widget_getVal.
  destruct (widget_kind wname) as [[]|], w; try discriminate.
  - unfold spinbox_setval, spinbox_getval. destruct val as [s|q]; cbn.
    + destruct (String.eqb_spec s (spinbox_novalue_text K)) as [->|]; [|done].
      intros [= <- <-]. eexists. split; [done|]. cbn.
      by rewrite (proj2 (Qeq_bool_iff minimum minimum)).
    + intros [= <- <-]. eexists. split; [done|]. cbn. by destruct (Qeq_bool q minimum).
  - destruct val as [s|q]; [|done]. intros [= <- <-]. eauto.
  - unfold combobox_setval, combobox_getval. destruct val as [s|q]; [|done].
    destruct (Z.leb_spec 0 (findText items s)); [|done]. intros [= <- <-].
    eexists. split; [done|]. by rewrite currentText_findText.
  - destruct val as [s|q]; [|done]. intros [= <- <-]. eauto.
  - unfold checkbox_setval, checkbox_getval. destruct val as [s|q]; cbn; [|done].
    destruct (String.eqb_spec s (checkbox_yestext K)) as [->|].
    { intros [= <- <-]. by eexists. }
    destruct (String.eqb_spec s (checkbox_notext K)) as [->|]; [|done].
    intros [= <- <-]. by eexists.
  - cbn. intros [= <- <-]. by eexists.
Qed.

(** X4.  What a widget accepts it reads back: after a [setVal] that the
    widget's setter accepted, [getVal] returns the value that was set, with
    two exceptions by design: a line or comment editor returns the text
    stripped of surrounding white space, and a spin box that was set to its
    minimum returns the 'not measured' text.  (A spin box stores the number
    it is given: the upper limit and the rounding of the Qt classes are not
    part of the widgets here.) *)
Theorem setVal_then_getVal (K : Constants) (wname : string) (w w' : qwidget)
  (val : value) (emitted : bool) :
  widget_setVal K wname w val = Ok (w', emitted) ->
  exists v',
    widget_getVal K wname w' = Ok v'
    /\ match widget_kind wname, w with
       | Some Ksp, QSpinBox minimum _ =>
           v' = if value_eqb val (VNum minimum)
                then VStr (spinbox_novalue_text K) else val
       | Some Kln, _ | Some Kcmt, _ =>
           exists s, val = VStr s /\ v' = VStr (py_strip s)
       | _, _ => v' = val
       end.
Proof. apply setVal_read_back. Qed.

Lemma setVal_then_getVal_witness :
  exists v',
    widget_getVal K0 "spAntropPaino" (QSpinBox (-1) (-1)) = Ok v'
    /\ v' = VStr "Ei mitattu".
Proof.
  apply (setVal_then_getVal K0 "spAntropPaino" (QSpinBox (-1) 70)
           (QSpinBox (-1) (-1)) (VNum (-1)) true).
  reflexivity.
Defined.

(** X5.  A value read from a widget can be set again without changing what
    the widget reads: when [getVal] returned [v] and the setter accepts [v],
    [getVal] returns [v] afterwards as well.  Every setter but the combo
    box's accepts what its getter returned; a combo box does when its current
    text is one of its items. *)
Theorem getVal_setVal_stable (K : Constants) (wname : string) (w : qwidget)
  (v : value) :
  widget_getVal K wname w = Ok v ->
  (forall w' emitted,
      widget_setVal K wname w v = Ok (w', emitted) ->
      widget_getVal K wname w' = Ok v)
  /\ ((forall items idx, w = QComboBox items idx -> currentText items idx ∈ items) ->
      exists w' emitted, widget_setVal K wname w v = Ok (w', emitted)).
Proof.
  intros Hget. split.
  - intros w' emitted Hset.
    destruct (setVal_read_back _ _ _ _ _ _ Hset) as (v' & Hget' & Hv').
    rewrite Hget'. f_equal. revert Hget Hv'. unfold widget_getVal.
    destruct (widget_kind wname) as [[]|], w; try discriminate.
    + unfold spinbox_getval. intros [= <-].
      destruct (Qeq_bool val minimum) eqn:Hq; cbn; [done|]. by rewrite Hq.
    + intros [= <-] (s & [= <-] & ->). by rewrite py_strip_idemp.
    + by intros _ ->.
    + intros [= <-] (s & [= <-] & ->). by rewrite py_strip_idemp.
    + by intros _ ->.
    + by intros _ ->.
  - intros Hcb. revert Hget. unfold widget_getVal, widget_setVal.
    destruct (widget_kind wname) as [[]|], w; try discriminate.
    + unfold spinbox_getval, spinbox_setval. intros [= <-].
      destruct (Qeq_bool val minimum); cbn; [rewrite String.eqb_refl|]; eauto.
    + intros [= <-]. eauto.
    + unfold combobox_getval, combobox_setval. intros [= <-].
      specialize (Hcb _ _ eq_refl).
      pose proof (findText_range items (currentText items currentIndex)).
      destruct (Z.leb_spec 0 (findText items (currentText items currentIndex)));
        [eauto|].
      exfalso. revert Hcb. apply findText_missing. lia.
    + intros [= <-]. eauto.
    + unfold checkbox_getval, checkbox_setval.
      destruct (checkState =? 0); [|destruct (checkState =? 2); [|done]];
        intros [= <-]; cbn; rewrite ?String.eqb_refl;
        [destruct (String.eqb _ _)|]; eauto.
    + cbn. eauto.
Qed.

Lemma getVal_setVal_stable_witness :
  (forall w' emitted,
      widget_setVal K0 "lnTiedotPvm" (QLineEdit " 04.11.2026 ") (VStr "04.11.2026")
      = Ok (w', emitted) ->
      widget_getVal K0 "lnTiedotPvm" w' = Ok (VStr "04.11.2026"))
  /\ ((forall items idx, QLineEdit " 04.11.2026 " = QComboBox items idx ->
                         currentText items idx ∈ items) ->
      exists w' emitted,
        widget_setVal K0 "lnTiedotPvm" (QLineEdit " 04.11.2026 ") (VStr "04.11.2026")
        = Ok (w', emitted)).
Proof.
  apply (getVal_setVal_stable K0 "lnTiedotPvm" (QLineEdit " 04.11.2026 ")).
  vm_compute. reflexivity.
Defined.

(** ** Combo boxes *)

(** X6.  A combo box accepts exactly its items: [combobox_setval] selects the
    first item equal to the value, and raises [ValueError] for a text that is
    no item; the [setVal] of a combo box then leaves the window as it was. *)
Theorem combobox_accepts_its_items (items : list string) (s : string) :
  (s ∈ items ->
   exists idx, combobox_setval items (VStr s) = Ok idx
               /\ 0 <= idx
               /\ items !! Z.to_nat idx = Some s
               /\ forall j, (j < Z.to_nat idx)%nat -> items !! j <> Some s)
  /\ (s ∉ items -> combobox_setval items (VStr s) = Raise ValueError)
  /\ (forall notify wname idx st,
        widget_kind wname = Some Kcb ->
        widgets st !! wname = Some (QComboBox items idx) ->
        s ∉ items ->
        setVal notify wname (VStr s) st = (Raise ValueError, st)).
Proof.
  assert (Hno : s ∉ items -> combobox_setval items (VStr s) = Raise ValueError).
  { intros Hs. apply findText_missing in Hs. unfold combobox_setval.
    by rewrite Hs. }
  split; [|split; [done|]].
  - intros Hs. unfold combobox_setval.
    pose proof (findText_range items s).
    destruct (Z.leb_spec 0 (findText items s)) as [Hge|Hlt].
    + exists (findText items s). repeat split; [done | by apply findText_found |].
      intros j Hj. apply findText_first. lia.
    + exfalso. revert Hs. apply findText_missing. lia.
  - intros notify wname idx st Hk Hw Hs.
    unfold setVal, bind, gets. rewrite Hw. unfold widget_setVal.
    by rewrite Hk, (Hno Hs).
Qed.

Lemma combobox_accepts_its_items_witness :
  (exists idx, combobox_setval ["Ei mitattu"; "Kylla"; "Ei"] (VStr "Kylla") = Ok idx
               /\ 0 <= idx
               /\ ["Ei mitattu"; "Kylla"; "Ei"] !! Z.to_nat idx = Some "Kylla"
               /\ forall j, (j < Z.to_nat idx)%nat ->
                            ["Ei mitattu"; "Kylla"; "Ei"] !! j <> Some "Kylla")
  /\ setVal (values_changed 3) "cbTasapOik" (VStr "Ehka") app0
     = (Raise ValueError, app0).
Proof.
  assert (Hno : "Ehka" ∉ ["Ei mitattu"; "Kylla"; "Ei"]).
  { intros H. repeat (apply elem_of_cons in H as [H|H]; [done|]).
    by apply elem_of_nil in H. }
  split.
  - apply (combobox_accepts_its_items ["Ei mitattu"; "Kylla"; "Ei"] "Kylla").
    apply list_elem_of_further, list_elem_of_here.
  - apply (combobox_accepts_its_items ["Ei mitattu"; "Kylla"; "Ei"] "Ehka")
      with (idx := 0); [reflexivity | vm_compute; reflexivity | exact Hno].
Defined.

(** ** A restore that fails *)

Lemma quiet_run_edit (depth : nat) (o : op) :
  is_edit o = true -> keeps guard_off frame (run_op depth o).
Proof.
  destruct o as [wname w|wname val| | | |row outcomes]; try discriminate; intros _.
  - unfold run_op. apply keeps_bind; [apply _ | apply keeps_gets; apply _ |].
    intros off. apply keeps_if; [apply keeps_ret; apply _|].
    apply keeps_bind; [apply _ | | intros _; apply quiet_values_changed].
    apply keeps_modify. intros st Hoff. by apply frame_set_widgets.
  - unfold run_op. apply keeps_setVal; [apply _ | apply frame_set_widgets |].
    intros w. apply quiet_values_changed.
Qed.

Lemma quiet_run_edits (depth : nat) (ops : list op) (st : State) :
  Forall (fun o => is_edit o = true) ops -> guard_off st ->
  frame st (run_ops depth ops st) /\ guard_off (run_ops depth ops st).
Proof.
  intros Hops. revert st. induction Hops as [|o ops Ho _ IH]; intros st Hoff.
  - by split.
  - cbn [run_ops]. destruct (quiet_run_edit depth o Ho st Hoff) as [Hf1 Hoff1].
    destruct (IH _ Hoff1) as [Hf2 Hoff2]. split; [by etrans|done].
Qed.

(** X7.  When [restore_forms] ends in an exception (a setter refused a value
    of the record), [self.update_dict] stays off, and the window stops
    recording: whatever the user edits afterwards and whatever is set by
    [setVal], the record and the database row stay as they were and no UPDATE
    is sent. *)
Theorem failed_restore_stops_recording (depth depth' : nat) (e : exn)
  (ops : list op) (st : State) :
  (restore_forms depth st).1 = Raise e ->
  Forall (fun o => is_edit o = true) ops ->
  let st' := run_ops depth' ops (restore_forms depth st).2 in
  update_dict st' = false
  /\ data st' = data st
  /\ roms_row st' = roms_row st
  /\ sql_updates st' = sql_updates st.
Proof.
  intros Hr Hops.
  pose proof (restore_forms_effect depth st) as Hf. cbv zeta in Hf.
  rewrite Hr in Hf. simpl in Hf.
  destruct Hf as (_&_&_&Hd&_&Hu&_&Hrow&_&Hs&_).
  destruct (quiet_run_edits depth' ops _ Hops Hu)
    as [(_&_&_&Hd'&_&_&_&Hrow'&_&Hs'&_) Hoff].
  cbv zeta. repeat split; [done | | |]; etrans; eassumption.
Qed.

Lemma failed_restore_stops_recording_witness :
  let st' := run_ops 3 [Edit "spAntropPaino" (QSpinBox (-1) 70)]
               (restore_forms 3 app_no_item).2 in
  update_dict st' = false
  /\ data st' = data app_no_item
  /\ roms_row st' = roms_row app_no_item
  /\ sql_updates st' = sql_updates app_no_item.
Proof.
  apply (failed_restore_stops_recording 3 3 ValueError).
  - vm_compute. reflexivity.
  - repeat constructor.
Defined.

(** ** Reading the widgets into the record *)

Lemma read_forms_step (x : string) st :
  (let! var := widget_to_var x in
   let! val := getVal x in
   modify (fun st => set_data (<[var := val]> (data st)) st)) st
  = match (getVal x st).1 with
    | Ok v =>
        if bool_decide (x ∈ input_widgets st)
        then (Ok tt, set_data (<[varname_of x := v]> (data st)) st)
        else (Raise KeyError, st)
    | Raise e =>
        (Raise (if bool_decide (x ∈ input_widgets st) then e else KeyError), st)
    end.
Proof.
  unfold bind, widget_to_var, getVal, modify.
  case_bool_decide; destruct (widgets st !! x) as [q|]; simpl; try done;
    by destruct (widget_getVal (consts st) x q).
Qed.

Lemma getVal_set_data (w : string) d st :
  (getVal w (set_data d st)).1 = (getVal w st).1.
Proof. unfold getVal. simpl. by destruct (widgets st !! w). Qed.

Lemma read_forms_loop (l : list string) st st' :
  for_each l (fun wname =>
    let! var := widget_to_var wname in
    let! val := getVal wname in
    modify (fun st => set_data (<[var := val]> (data st)) st)) st = (Ok tt, st') ->
  NoDup (varname_of <$> l) ->
  st' = set_data (data st') st
  /\ (forall w v, w ∈ l -> (getVal w st).1 = Ok v ->
                  data st' !! varname_of w = Some v)
  /\ (forall k, k ∉ varname_of <$> l -> data st' !! k = data st !! k).
Proof.
  revert st. induction l as [|x l IH]; intros st Hrun Hnd.
  - injection Hrun as <-. split; [by destruct st | split; [|done]].
    intros w v Hw. by apply elem_of_nil in Hw.
  - cbn [for_each] in Hrun. unfold bind at 1 in Hrun.
    rewrite read_forms_step in Hrun.
    destruct (getVal x st).1 as [vx|e] eqn:Hx; [|done].
    case_bool_decide; [|done].
    rewrite fmap_cons in Hnd. apply NoDup_cons in Hnd as [Hxl Hnd].
    destruct (IH _ Hrun Hnd) as (Hst & Hin & Hout).
    split; [|split].
    + by rewrite Hst.
    + intros w v Hw Hv. apply elem_of_cons in Hw as [->|Hw].
      * rewrite Hout by done. simpl. rewrite lookup_insert_eq. congruence.
      * apply Hin; [done|]. by rewrite getVal_set_data.
    + intros k Hk. rewrite fmap_cons in Hk. apply not_elem_of_cons in Hk as [Hkx Hkl].
      rewrite Hout by done. simpl. by rewrite lookup_insert_ne.
Qed.

Lemma read_forms_loop_total (l : list string) st :
  l ⊆ input_widgets st ->
  ((for_each l (fun wname =>
      let! var := widget_to_var wname in
      let! val := getVal wname in
      modify (fun st => set_data (<[var := val]> (data st)) st)) st).1 = Ok tt
   <-> forall w, w ∈ l -> is_ok (getVal w st).1 = true).
Proof.
  revert st. induction l as [|x l IH]; intros st Hsub.
  - split; [|done]. intros _ w Hw. by apply elem_of_nil in Hw.
  - cbn [for_each]. unfold bind at 1. rewrite read_forms_step.
    assert (Hx : x ∈ input_widgets st) by (apply Hsub, list_elem_of_here).
    assert (Hl : l ⊆ input_widgets st).
    { intros y Hy. by apply Hsub, list_elem_of_further. }
    rewrite (bool_decide_eq_true_2 _ Hx).
    destruct (getVal x st).1 as [vx|e] eqn:Hgx.
    + rewrite IH by done. split.
      * intros H w Hw. apply elem_of_cons in Hw as [->|Hw]; [by rewrite Hgx|].
        rewrite <- (getVal_set_data w (<[varname_of x := vx]> (data st))).
        by apply H.
      * intros H w Hw. rewrite getVal_set_data. by apply H, list_elem_of_further.
    + split; [done|]. intros H. specialize (H x (list_elem_of_here _ _)).
      by rewrite Hgx in H.
Qed.

(** X8.  [read_forms] mirrors the widgets: when it returns and no two input
    widgets share a variable name, the record holds for every input widget the
    value its getter returns, every other key of the record is as it was, and
    nothing but the record has changed. *)
Theorem read_forms_mirrors_widgets (st st' : State) :
  read_forms st = (Ok tt, st') ->
  NoDup (varname_of <$> input_widgets st) ->
  st' = set_data (data st') st
  /\ (forall w v, w ∈ input_widgets st -> (getVal w st).1 = Ok v ->
                  data st' !! varname_of w = Some v)
  /\ (forall k, k ∉ varname_of <$> input_widgets st ->
                data st' !! k = data st !! k).
Proof. intros Hrun. by apply read_forms_loop. Qed.

Lemma read_forms_mirrors_widgets_witness :
  (read_forms app_weight).2 = set_data (data (read_forms app_weight).2) app_weight
  /\ (forall w v, w ∈ input_widgets app_weight -> (getVal w app_weight).1 = Ok v ->
                  data (read_forms app_weight).2 !! varname_of w = Some v)
  /\ (forall k, k ∉ varname_of <$> input_widgets app_weight ->
                data (read_forms app_weight).2 !! k = data app_weight !! k).
Proof.
  apply (read_forms_mirrors_widgets app_weight (read_forms app_weight).2).
  - vm_compute. reflexivity.
  - apply (bool_decide_unpack _). vm_compute. exact I.
Defined.

(** X9.  [read_forms] returns exactly when every input widget can be read: a
    widget whose getter raises (a check box in the partially checked state, a
    widget of another class than its name says) ends the method with an
    exception. *)
Theorem read_forms_returns_iff_readable (st : State) :
  (read_forms st).1 = Ok tt
  <-> forall w, w ∈ input_widgets st -> is_ok (getVal w st).1 = true.
Proof.
  unfold read_forms. unfold bind at 1, gets at 1.
  by apply read_forms_loop_total.
Qed.

(** ** The database *)

Lemma apply_update_lookup_ne (assignments : list (string * value))
  (row : gmap string value) (k : string) :
  k ∉ assignments.*1 -> apply_update assignments row !! k = row !! k.
Proof.
  unfold apply_update. revert row.
  induction assignments as [|[x v] l IH]; intros row Hk; [done|].
  rewrite fmap_cons in Hk. apply not_elem_of_cons in Hk as [Hkx Hkl].
  cbn [foldl]. rewrite IH by done. by apply lookup_insert_ne.
Qed.

Lemma apply_update_lookup (assignments : list (string * value))
  (row : gmap string value) (k : string) (v : value) :
  NoDup assignments.*1 -> (k, v) ∈ assignments ->
  apply_update assignments row !! k = Some v.
Proof.
  unfold apply_update. revert row.
  induction assignments as [|[x u] l IH]; intros row Hnd Hin.
  - by apply elem_of_nil in Hin.
  - rewrite fmap_cons in Hnd. apply NoDup_cons in Hnd as [Hx Hnd].
    cbn [foldl]. apply elem_of_cons in Hin as [[= -> ->]|Hin].
    + etrans; [apply (apply_update_lookup_ne l _ x Hx)|]. apply lookup_insert_eq.
    + by apply IH.
Qed.

Lemma fst_zip_sub (vars : list string) (values : list value) (k : string) :
  k ∈ (zip vars values).*1 -> k ∈ vars.
Proof.
  intros Hk. apply list_elem_of_fmap in Hk as ([x v] & -> & Hin).
  by apply elem_of_zip_l in Hin.
Qed.

(** X10.  [update_rom] raises only when its two lists differ in length, and
    then before anything is sent.  Otherwise it returns whatever the database
    answers: the statement is sent and uses up one answer; when it is
    accepted, the columns named take their values and every other column
    keeps its own; when it is refused, the row is as it was and one dialog
    is shown.  The record and the widgets are not touched. *)
Theorem update_rom_outcome (vars : list string) (values : list value)
  (st : State) :
  (length vars <> length values ->
   update_rom vars values st = (Raise ValueError, st))
  /\ (length vars = length values ->
      let r := update_rom vars values st in
      r.1 = Ok tt
      /\ sql_updates r.2 = zip vars values :: sql_updates st
      /\ exec_outcomes r.2 = tail (exec_outcomes st)
      /\ data r.2 = data st
      /\ widgets r.2 = widgets st
      /\ (next_exec st = true ->
          dialogs r.2 = dialogs st
          /\ (forall k, k ∉ vars -> roms_row r.2 !! k = roms_row st !! k)
          /\ (NoDup vars ->
              forall k v, (k, v) ∈ zip vars values -> roms_row r.2 !! k = Some v))
      /\ (next_exec st = false ->
          dialogs r.2 = S (dialogs st) /\ roms_row r.2 = roms_row st)).
Proof.
  split.
  - intros Hne. unfold update_rom.
    by rewrite (proj2 (Nat.eqb_neq _ _) Hne).
  - intros Heq. unfold update_rom. rewrite (proj2 (Nat.eqb_eq _ _) Heq).
    unfold bind, modify, exec, db_failure. simpl.
    destruct (next_exec _) eqn:Hx; simpl; repeat split; try done.
    + intros k Hk. apply apply_update_lookup_ne. intros Hin.
      by apply Hk, (fst_zip_sub vars values).
    + intros Hnd k v Hin. apply apply_update_lookup; [|done].
      by rewrite fst_zip by lia.
Qed.

Lemma update_rom_outcome_witness :
  update_rom ["AntropPaino"] [] app0 = (Raise ValueError, app0)
  /\ (let r := update_rom ["AntropPaino"] [VNum 70] app_locked in
      r.1 = Ok tt
      /\ sql_updates r.2 = zip ["AntropPaino"] [VNum 70] :: sql_updates app_locked
      /\ exec_outcomes r.2 = tail (exec_outcomes app_locked)
      /\ data r.2 = data app_locked
      /\ widgets r.2 = widgets app_locked
      /\ (next_exec app_locked = true ->
          dialogs r.2 = dialogs app_locked
          /\ (forall k, k ∉ ["AntropPaino"] ->
                        roms_row r.2 !! k = roms_row app_locked !! k)
          /\ (NoDup ["AntropPaino"] ->
              forall k v, (k, v) ∈ zip ["AntropPaino"] [VNum 70] ->
                          roms_row r.2 !! k = Some v))
      /\ (next_exec app_locked = false ->
          dialogs r.2 = S (dialogs app_locked)
          /\ roms_row r.2 = roms_row app_locked)).
Proof.
  split.
  - apply (update_rom_outcome ["AntropPaino"] [] app0). discriminate.
  - apply (update_rom_outcome ["AntropPaino"] [VNum 70] app_locked). reflexivity.
Defined.

(** X11.  A SELECT that the database refuses ends [select] and [_read_data]
    in a [RuntimeError]; nothing is loaded: the window is as it was, but for
    the one answer of the database that was used up. *)
Theorem refused_select_loads_nothing (depth : nat) (vars : list string)
  (st : State) :
  next_exec st = false ->
  select vars st
  = (Raise RuntimeError, set_exec_outcomes (tail (exec_outcomes st)) st)
  /\ _read_data depth st
     = (Raise RuntimeError, set_exec_outcomes (tail (exec_outcomes st)) st).
Proof.
  intros Hx. split.
  - by rewrite select_run, Hx.
  - unfold _read_data. unfold bind at 1, gets at 1. unfold bind at 1.
    by rewrite select_run, Hx.
Qed.

Lemma refused_select_loads_nothing_witness :
  select ["AntropPaino"] app_locked
  = (Raise RuntimeError, set_exec_outcomes (tail (exec_outcomes app_locked)) app_locked)
  /\ _read_data 3 app_locked
     = (Raise RuntimeError,
        set_exec_outcomes (tail (exec_outcomes app_locked)) app_locked).
Proof. apply (refused_select_loads_nothing 3 ["AntropPaino"] app_locked). reflexivity. Defined.

Lemma read_data_lookup (depth : nat) (st : State) (f : string) :
  next_exec st = true ->
  data (_read_data depth st).2 !! f
  = if bool_decide (f ∈ dom (data st))
    then match roms_row st !! f with
         | Some v => Some v
         | None => data_empty st !! f
         end
    else data_empty st !! f.
Proof.
  intros Hexec. unfold _read_data. unfold bind at 1, gets at 1. unfold bind at 1.
  destruct (select_ok (map_to_list (data st)).*1 st Hexec)
    as (st1 & -> & Hd & He & Hr).
  unfold bind at 1, modify at 1.
  destruct (restore_forms_effect depth
              (set_data (record_di (map_to_list (data st)).*1
                           ((fun var => roms_row st !! var)
                              <$> (map_to_list (data st)).*1)
                         ∪ data_empty st1) st1))
    as (_&_&_&Hdata&_).
  rewrite Hdata. simpl.
  rewrite lookup_union, record_di_spec, He.
  assert (Hb : bool_decide (f ∈ (map_to_list (data st)).*1)
               = bool_decide (f ∈ dom (data st))).
  { apply bool_decide_ext. rewrite elem_of_dom. split.
    - intros Hin. apply list_elem_of_fmap in Hin as ([k v] & -> & Hkv).
      exists v. by apply elem_of_map_to_list.
    - intros [v Hv]. apply list_elem_of_fmap. exists (f, v). split; [done|].
      by apply elem_of_map_to_list. }
  rewrite Hb. clear Hb. case_bool_decide.
  - by destruct (roms_row st !! f), (data_empty st !! f).
  - by destruct (data_empty st !! f).
Qed.

Lemma read_data_run (depth : nat) (st : State) :
  _read_data depth st
  = if next_exec st
    then restore_forms depth
           (set_data
              (record_di (map_to_list (data st)).*1
                 ((fun var => roms_row st !! var) <$> (map_to_list (data st)).*1)
               ∪ data_empty st)
              (set_exec_outcomes (tail (exec_outcomes st)) st))
    else (Raise RuntimeError, set_exec_outcomes (tail (exec_outcomes st)) st).
Proof.
  unfold _read_data. unfold bind at 1, gets at 1. unfold bind at 1.
  rewrite select_run. by destruct (next_exec st).
Qed.

Lemma read_data_config (depth : nat) (st : State) :
  data_empty (_read_data depth st).2 = data_empty st
  /\ roms_row (_read_data depth st).2 = roms_row st
  /\ exec_outcomes (_read_data depth st).2 = tail (exec_outcomes st).
Proof.
  rewrite read_data_run. destruct (next_exec st); [|done].
  match goal with |- context [restore_forms depth ?s] =>
    destruct (restore_forms_effect depth s) as (_&_&_&_&He&_&_&Hr&Ho&_)
  end.
  by rewrite He, Hr, Ho.
Qed.

(** X12.  Loading twice is loading once: when the database answers both
    SELECTs and the keys of the record are those of the defaults,
    a second [_read_data] leaves the record as the first one left it. *)
Theorem read_data_idempotent (depth depth' : nat) (st : State) :
  keys_ok st ->
  next_exec st = true ->
  next_exec (_read_data depth st).2 = true ->
  data (_read_data depth' (_read_data depth st).2).2
  = data (_read_data depth st).2.
Proof.
  intros Hk Hx1 Hx2.
  destruct (read_data_config depth st) as (He & Hr & _).
  destruct (keys_keeps_read_data depth st Hk) as [_ Hk1].
  apply map_eq. intros f.
  rewrite (read_data_lookup depth' _ f Hx2), He, Hr.
  rewrite (read_data_lookup depth st f Hx1).
  destruct Hk as [Hdom _]. destruct Hk1 as [Hdom1 _]. rewrite He in Hdom1.
  rewrite Hdom1, <- Hdom.
  by case_bool_decide.
Qed.

Lemma read_data_idempotent_witness :
  data (_read_data 3 (_read_data 3 app_weight).2).2
  = data (_read_data 3 app_weight).2.
Proof.
  apply (read_data_idempotent 3 3 app_weight).
  - apply keys_ok_run_ops.
    apply (new_EntryApp_keys_ok K0 children0 ∅ [] patient0 true "04.11.2026" 3).
    vm_compute. reflexivity.
  - vm_compute. reflexivity.
  - vm_compute. reflexivity.
Defined.

(** X13.  What the window writes it loads again: after a [values_changed]
    whose UPDATE the database accepted, the record and the row hold the
    widget's value under the widget's variable, and a [_read_data] that
    follows leaves that entry of the record as it is. *)
Theorem written_value_is_loaded (depth depth' : nat) (w : string) (v : value)
  (st sta : State) :
  update_autowidgets (values_changed depth) w st = (Ok tt, sta) ->
  update_dict sta = true ->
  w ∈ input_widgets sta ->
  (getVal w sta).1 = Ok v ->
  next_exec sta = true ->
  next_exec (values_changed (S depth) w st).2 = true ->
  let st1 := (values_changed (S depth) w st).2 in
  data st1 !! varname_of w = Some v
  /\ roms_row st1 !! varname_of w = Some v
  /\ data (_read_data depth' st1).2 !! varname_of w = Some v.
Proof.
  intros Hauto Hu Hw Hv Hx Hx2 st1.
  assert (Hst1 : st1 = set_roms_row (<[varname_of w := v]> (roms_row sta))
                         (set_exec_outcomes (tail (exec_outcomes sta))
                            (set_sql_updates ([(varname_of w, v)] :: sql_updates sta)
                               (set_data (<[varname_of w := v]> (data sta))
                                  (set_guard_log ((w, true) :: guard_log sta) sta))))).
  { unfold st1. rewrite values_changed_S. unfold bind at 1. rewrite Hauto.
    rewrite (update_dict_and_rom_on w v sta Hu Hw Hv).
    by rewrite update_rom_succeeds. }
  assert (Hd : data st1 !! varname_of w = Some v).
  { rewrite Hst1. simpl. apply lookup_insert_eq. }
  assert (Hr : roms_row st1 !! varname_of w = Some v).
  { rewrite Hst1. simpl. apply lookup_insert_eq. }
  split; [done|]. split; [done|].
  rewrite (read_data_lookup depth' st1 _ Hx2).
  rewrite bool_decide_eq_true_2 by (apply elem_of_dom; eauto).
  by rewrite Hr.
Qed.

Lemma written_value_is_loaded_witness :
  let st1 := (values_changed 3 "spAntropPaino" app_typed).2 in
  data st1 !! varname_of "spAntropPaino" = Some (VNum 70)
  /\ roms_row st1 !! varname_of "spAntropPaino" = Some (VNum 70)
  /\ data (_read_data 3 st1).2 !! varname_of "spAntropPaino" = Some (VNum 70).
Proof.
  apply (written_value_is_loaded 2 3 "spAntropPaino" (VNum 70) app_typed
           (update_autowidgets (values_changed 2) "spAntropPaino" app_typed).2).
  - vm_compute. reflexivity.
  - vm_compute. reflexivity.
  - apply (bool_decide_unpack _). vm_compute. exact I.
  - vm_compute. reflexivity.
  - vm_compute. reflexivity.
  - vm_compute. reflexivity.
Defined.

(** ** Construction *)

Lemma appended_autowidgets_missing (ws : gmap string qwidget)
  (pre post : list string) (x : string) :
  (forall y, y ∈ pre -> is_Some (ws !! wname_unnorm y)) ->
  ws !! wname_unnorm x = None ->
  appended_autowidgets ws (pre ++ x :: post) = (pre ++ [x])%list
  /\ forallb (fun wname => bool_decide (is_Some (ws !! wname_unnorm wname)))
       (pre ++ x :: post) = false.
Proof.
  intros Hpre Hx. induction pre as [|y pre IH].
  - cbn. by rewrite Hx.
  - destruct (Hpre y (list_elem_of_here _ _)) as [q Hq].
    destruct IH as [IH1 IH2].
    { intros z Hz. by apply Hpre, list_elem_of_further. }
    rewrite <- app_comm_cons. cbn [appended_autowidgets forallb].
    rewrite Hq, IH1, IH2. split; [done|]. apply andb_false_r.
Qed.

(** X14.  [init_widgets] needs the weight widget and, for every widget whose
    name ends in 'Norm', a widget with the unnormalized name.  Without the
    weight widget it ends in [AttributeError], with [self.input_widgets] and
    [self.autowidgets] empty.  At the first widget named '...Norm' that has
    no partner it ends in [KeyError]: the autowidgets are the widgets named
    '...Norm' up to and including that one, no input widget is collected and
    no widget is disabled.  When it returns, the input widgets are the
    specially named widgets and the autowidgets the widgets named '...Norm',
    both in the order of the children, exactly the autowidgets are disabled,
    and no widget and no entry of the record has changed. *)
Theorem init_widgets_outcome (allwidgets : list string) (st : State) :
  (widgets st !! weight_widget = None ->
   init_widgets allwidgets st
   = (Raise AttributeError, set_autowidgets [] (set_input_widgets [] st)))
  /\ (forall pre wname post,
        is_Some (widgets st !! weight_widget) ->
        filter (fun wname => is_autowidget wname = true) allwidgets
        = (pre ++ wname :: post)%list ->
        (forall y, y ∈ pre -> is_Some (widgets st !! wname_unnorm y)) ->
        widgets st !! wname_unnorm wname = None ->
        init_widgets allwidgets st
        = (Raise KeyError,
           set_autowidgets (pre ++ [wname]) (set_input_widgets [] st)))
  /\ (forall st',
        init_widgets allwidgets st = (Ok tt, st') ->
        is_Some (widgets st !! weight_widget)
        /\ (forall wname, wname ∈ allwidgets -> is_autowidget wname = true ->
                          is_Some (widgets st !! wname_unnorm wname))
        /\ input_widgets st'
           = filter (fun wname => is_input_widget wname = true) allwidgets
        /\ autowidgets st'
           = filter (fun wname => is_autowidget wname = true) allwidgets
        /\ disabled st' = autowidgets st'
        /\ widgets st' = widgets st
        /\ data st' = data st).
Proof.
  rewrite init_widgets_run. split; [by intros ->|]. split.
  - intros pre x post [q ->] Hsplit Hpre Hx. rewrite Hsplit.
    destruct (appended_autowidgets_missing (widgets st) pre post x Hpre Hx)
      as [-> ->].
    done.
  - intros st'. destruct (widgets st !! weight_widget) as [q|]; [|done].
    destruct (forallb _ _) eqn:Hall; [|done]. intros [= <-].
    split; [done|]. split; [|done].
    intros x Hx Ha. rewrite forallb_forall in Hall. specialize (Hall x).
    rewrite <- list_elem_of_In, list_elem_of_filter in Hall.
    specialize (Hall (conj Ha Hx)). by apply bool_decide_eq_true in Hall.
Qed.

Lemma init_widgets_outcome_witness :
  init_widgets ["spIsokinPolviNorm"; "spToinenNorm"]
    (blank K0 [("spAntropPaino", QSpinBox (-1) (-1))] ∅ [])
  = (Raise KeyError,
     set_autowidgets ([] ++ ["spIsokinPolviNorm"])
       (set_input_widgets []
          (blank K0 [("spAntropPaino", QSpinBox (-1) (-1))] ∅ [])))
  /\ autowidgets (init_widgets children0.*1 (blank K0 children0 ∅ [])).2
     = filter (fun wname => is_autowidget wname = true) children0.*1.
Proof.
  destruct (init_widgets_outcome ["spIsokinPolviNorm"; "spToinenNorm"]
              (blank K0 [("spAntropPaino", QSpinBox (-1) (-1))] ∅ []))
    as (_ & H2 & _).
  destruct (init_widgets_outcome children0.*1 (blank K0 children0 ∅ []))
    as (_ & _ & H3).
  split.
  - apply (H2 [] "spIsokinPolviNorm" ["spToinenNorm"]).
    + by eexists.
    + vm_compute. reflexivity.
    + intros y Hy. by apply elem_of_nil in Hy.
    + vm_compute. reflexivity.
  - apply (H3 (init_widgets children0.*1 (blank K0 children0 ∅ [])).2).
    vm_compute. reflexivity.
Defined.

Lemma init_readonly_fields_run (patient : PatientFields) st :
  init_readonly_fields patient st
  = match exec_outcomes st with
    | false :: rest => (Raise RuntimeError, set_exec_outcomes rest st)
    | true :: false :: rest => (Raise TypeError, set_exec_outcomes rest st)
    | outcomes =>
        (Ok tt, set_rdonly patient (set_exec_outcomes (tail (tail outcomes)) st))
    end.
Proof.
  unfold init_readonly_fields. unfold bind at 1. rewrite select_run.
  unfold next_exec.
  destruct (exec_outcomes st) as [|[] [|[] rest]] eqn:Eo; try done.
Qed.

(** X15.  [init_readonly_fields] sends two SELECTs.  When the first is
    refused it ends in the [RuntimeError] of [db_failure]; when the second is
    refused it ends in a [TypeError], because [db_failure] is called without
    its query; in both cases the patient fields are not filled.  When both
    are answered (and the five patient fields are there to be filled), the
    fields hold the patient's row, and nothing else but the database's coming
    answers has changed. *)
Theorem init_readonly_fields_outcome (patient : PatientFields) (st : State) :
  (forall rest, exec_outcomes st = false :: rest ->
     init_readonly_fields patient st
     = (Raise RuntimeError, set_exec_outcomes rest st))
  /\ (forall rest, exec_outcomes st = true :: false :: rest ->
        init_readonly_fields patient st
        = (Raise TypeError, set_exec_outcomes rest st))
  /\ (next_exec st = true ->
      next_exec (set_exec_outcomes (tail (exec_outcomes st)) st) = true ->
      init_readonly_fields patient st
      = (Ok tt, set_rdonly patient
                  (set_exec_outcomes (tail (tail (exec_outcomes st))) st))).
Proof.
  rewrite init_readonly_fields_run. split; [|split].
  - by intros rest ->.
  - by intros rest ->.
  - unfold next_exec. simpl. by destruct (exec_outcomes st) as [|[] [|[] rest]].
Qed.

Lemma init_readonly_fields_outcome_witness :
  init_readonly_fields patient0 app_locked
  = (Raise RuntimeError, set_exec_outcomes [] app_locked)
  /\ init_readonly_fields patient0 (set_exec_outcomes [true; false] app0)
     = (Raise TypeError, set_exec_outcomes [] (set_exec_outcomes [true; false] app0))
  /\ init_readonly_fields patient0 app0
     = (Ok tt, set_rdonly patient0
                 (set_exec_outcomes (tail (tail (exec_outcomes app0))) app0)).
Proof.
  destruct (init_readonly_fields_outcome patient0 app_locked) as (H1 & _ & _).
  destruct (init_readonly_fields_outcome patient0
              (set_exec_outcomes [true; false] app0)) as (_ & H2 & _).
  destruct (init_readonly_fields_outcome patient0 app0) as (_ & _ & H3).
  split; [|split].
  - apply H1. vm_compute. reflexivity.
  - apply H2. reflexivity.
  - apply H3; vm_compute; reflexivity.
Defined.

Lemma read_forms_loop_frame (l : list string) st st' :
  for_each l (fun wname =>
    let! var := widget_to_var wname in
    let! val := getVal wname in
    modify (fun st => set_data (<[var := val]> (data st)) st)) st = (Ok tt, st') ->
  st' = set_data (data st') st.
Proof.
  revert st. induction l as [|x l IH]; intros st Hrun.
  - injection Hrun as <-. by destruct st.
  - cbn [for_each] in Hrun. unfold bind at 1 in Hrun.
    rewrite read_forms_step in Hrun.
    destruct (getVal x st).1 as [vx|e]; [|done].
    case_bool_decide; [|done].
    by rewrite (IH _ Hrun).
Qed.

Lemma new_EntryApp_inv K children row outcomes patient newly_created datestr
  depth st :
  new_EntryApp K children row outcomes patient newly_created datestr depth
  = Ok st ->
  exists s1 s3,
    init_widgets children.*1 (blank K children row outcomes) = (Ok tt, s1)
    /\ read_forms (set_data ∅ s1) = (Ok tt, s3)
    /\ s3 = set_data (data s3) s1
    /\ next_exec s3 = true
    /\ next_exec (set_exec_outcomes (tail outcomes) s3) = true
    /\ let s6 := set_rdonly patient
                   (set_exec_outcomes (tail (tail outcomes))
                      (set_update_dict true (set_data_empty (data s3) s3))) in
       if newly_created
       then exists text,
           widgets s3 !! "lnTiedotPvm" = Some (QLineEdit text)
           /\ values_changed depth "lnTiedotPvm"
                (set_widgets (<["lnTiedotPvm" := QLineEdit datestr]> (widgets s3)) s6)
              = (Ok tt, st)
       else _read_data depth s6 = (Ok tt, st).
Proof.
  unfold new_EntryApp, EntryApp_init.
  destruct (bind _ _ _) as [[[]|e] st'] eqn:E; [|discriminate].
  intros [= ->].
  apply bind_ok_inv in E as ([] & s1 & Hinit & E).
  apply bind_ok_inv in E as ([] & s2 & [= <-] & E).
  apply bind_ok_inv in E as ([] & s3 & Hread & E).
  apply bind_ok_inv in E as ([] & s4 & [= <-] & E).
  apply bind_ok_inv in E as ([] & s5 & [= <-] & E).
  apply bind_ok_inv in E as ([] & s6 & Hro & E).
  exists s1, s3. split; [done|]. split; [done|].
  assert (Hs3 : s3 = set_data (data s3) s1).
  { unfold read_forms, bind at 1, gets at 1 in Hread.
    apply read_forms_loop_frame in Hread. by rewrite Hread. }
  split; [done|].
  assert (Ho : exec_outcomes s3 = outcomes).
  { rewrite Hs3. simpl. rewrite init_widgets_run in Hinit. simpl in Hinit.
    destruct (list_to_map children !! weight_widget); [|done].
    destruct (forallb _ _); [|done]. by injection Hinit as <-. }
  rewrite init_readonly_fields_run in Hro. simpl in Hro. rewrite Ho in Hro.
  unfold next_exec. simpl. rewrite Ho.
  assert (Hs6 : next_exec s3 = true
                /\ next_exec (set_exec_outcomes (tail outcomes) s3) = true
                /\ s6 = set_rdonly patient
                          (set_exec_outcomes (tail (tail outcomes))
                             (set_update_dict true (set_data_empty (data s3) s3)))).
  { unfold next_exec. simpl. rewrite Ho.
    destruct outcomes as [|[] [|[] rest]]; try done; by injection Hro as <-. }
  destruct Hs6 as (Hx1 & Hx2 & ->). unfold next_exec in Hx1, Hx2. simpl in Hx2.
  rewrite Ho in Hx1. split; [done|]. split; [done|]. cbv zeta.
  destruct newly_created; [|done].
  apply bind_ok_inv in E as (ws & s7 & [= <- <-] & E).
  apply bind_ok_inv in E as ([] & s8 & Hset & E). simpl in Hset.
  destruct (widgets s3 !! "lnTiedotPvm") as [[]|] eqn:Ew; try done.
  injection Hset as <-. by exists text.
Qed.

Lemma py_suffix_NormUn (u : string) : py_suffix 6 (u ++ "NormUn") = "NormUn".
Proof.
  unfold py_suffix, py_drop. rewrite string_length_app. simpl String.length.
  replace (String.length u + 6 - 6)%nat with (String.length u + 0)%nat by lia.
  replace (String.length u + 6 - (String.length u + 0))%nat with 6%nat by lia.
  by rewrite substring_app_skip.
Qed.

Lemma wname_unnorm_ends (widget : string) :
  is_autowidget widget = true -> py_suffix 6 (wname_unnorm widget) = "NormUn".
Proof.
  intros Hauto. unfold is_autowidget in Hauto. apply String.eqb_eq in Hauto.
  apply py_suffix_Norm in Hauto as [t ->].
  unfold wname_unnorm, py_replace.
  destruct (py_replace_from_ends t 0 I) as [u ->]. apply py_suffix_NormUn.
Qed.

Lemma leaf_no_dependents (w : string) (autos : list string) :
  Forall (fun widget => is_autowidget widget = true) autos ->
  w <> weight_widget -> py_suffix 6 w <> "NormUn" ->
  autowidgets_this w autos = [].
Proof.
  intros Hn Hw Hs. unfold autowidgets_this.
  induction Hn as [|x l Hx _ IH]; [done|].
  rewrite filter_cons_False; [done|]. unfold _autoinputs. intros Hin.
  apply elem_of_cons in Hin as [->|Hin].
  - by apply Hs, wname_unnorm_ends.
  - by apply list_elem_of_singleton in Hin.
Qed.

Lemma update_dict_and_rom_widgets (w : string) st :
  widgets (update_dict_and_rom w st).2 = widgets st.
Proof.
  unfold update_dict_and_rom, bind, gets, modify. simpl.
  destruct (update_dict st); [|done].
  unfold widget_to_var. simpl. case_bool_decide; [|done].
  unfold getVal. simpl. destruct (widgets st !! w) as [q|]; [|done].
  destruct (widget_getVal (consts st) w q) as [v|e]; [|done].
  unfold update_rom, bind, modify, exec, db_failure. simpl.
  by destruct (next_exec _).
Qed.

(** X16.  Only the weight widget and the widgets named '...NormUn' have
    dependents: in a window whose autowidgets are named by the convention, a
    change of any other widget recalculates nothing.  [values_changed] is then
    its second half alone: it needs one frame of the call stack and writes no
    widget. *)
Theorem values_changed_without_dependents (depth : nat) (w : string)
  (st : State) :
  named_autowidgets st ->
  w <> weight_widget ->
  py_suffix 6 w <> "NormUn" ->
  values_changed (S depth) w st = update_dict_and_rom w st
  /\ widgets (values_changed (S depth) w st).2 = widgets st.
Proof.
  intros Hn Hw Hs.
  rewrite values_changed_no_dependents by by apply leaf_no_dependents.
  split; [done|]. apply update_dict_and_rom_widgets.
Qed.

Lemma values_changed_without_dependents_witness :
  values_changed 1 "cbTasapOik" app_weight = update_dict_and_rom "cbTasapOik" app_weight
  /\ widgets (values_changed 1 "cbTasapOik" app_weight).2 = widgets app_weight.
Proof.
  apply (values_changed_without_dependents 0 "cbTasapOik" app_weight).
  - vm_compute. repeat constructor.
  - discriminate.
  - discriminate.
Defined.

Lemma update_rom_one (var : string) (v : value) st :
  update_rom [var] [v] st
  = (Ok tt,
     if next_exec st
     then set_roms_row (<[var := v]> (roms_row st))
            (set_exec_outcomes (tail (exec_outcomes st))
               (set_sql_updates ([(var, v)] :: sql_updates st) st))
     else set_dialogs (S (dialogs st))
            (set_exec_outcomes (tail (exec_outcomes st))
               (set_sql_updates ([(var, v)] :: sql_updates st) st))).
Proof.
  unfold update_rom, bind, modify, exec, db_failure, next_exec. simpl.
  by destruct (exec_outcomes st) as [|[] rest].
Qed.

(** X17.  A window for a newly created entry: the date field shows today's
    date and every other widget is as the Designer file has it; the record is
    the defaults with the stripped date under 'TiedotPvm'; exactly one UPDATE
    was sent, and it sets the date column alone; when the database accepted
    it the row has the date, and when it refused it the row is as it was and
    one dialog was shown. *)
Theorem new_entry_writes_the_date K children row outcomes patient datestr
  depth st :
  new_EntryApp K children row outcomes patient true datestr depth = Ok st ->
  let date := VStr (py_strip datestr) in
  rdonly st = patient
  /\ update_dict st = true
  /\ widgets st = <["lnTiedotPvm" := QLineEdit datestr]> (list_to_map children)
  /\ data st = <["TiedotPvm" := date]> (data_empty st)
  /\ sql_updates st = [[("TiedotPvm", date)]]
  /\ match tail (tail outcomes) with
     | false :: _ => roms_row st = row /\ dialogs st = 1%nat
     | _ => roms_row st = <["TiedotPvm" := date]> row /\ dialogs st = 0%nat
     end.
Proof.
  intros Hnew date.
  destruct (new_EntryApp_inv _ _ _ _ _ _ _ _ _ Hnew)
    as (s1 & s3 & Hinit & _ & Hs3 & _ & _ & text & Hw & Hvc).
  rewrite init_widgets_run in Hinit. simpl in Hinit.
  destruct (list_to_map children !! weight_widget); [|done].
  destruct (forallb _ _); [|done]. injection Hinit as <-.
  destruct depth as [|depth]; [done|].
  rewrite values_changed_no_dependents in Hvc.
  2: { rewrite Hs3. simpl. apply leaf_no_dependents; [|done..].
       apply Forall_forall. intros x Hx. by apply list_elem_of_filter in Hx as [? _]. }
  match type of Hvc with update_dict_and_rom _ ?s = _ => set (s7 := s) in * end.
  destruct (decide ("lnTiedotPvm" ∈ input_widgets s7)) as [Hin|Hin].
  - rewrite (update_dict_and_rom_on "lnTiedotPvm" date s7) in Hvc;
      [|done|done|].
    2: { unfold getVal, s7. simpl. by rewrite lookup_insert_eq. }
    rewrite update_rom_one in Hvc. injection Hvc as <-.
    unfold s7. rewrite Hs3. unfold next_exec. simpl.
    destruct (tail (tail outcomes)) as [|[] rest]; simpl; by repeat split.
  - unfold update_dict_and_rom, bind, gets, modify, widget_to_var in Hvc.
    simpl in Hvc. by rewrite (bool_decide_eq_false_2 _ Hin) in Hvc.
Qed.

Lemma new_entry_writes_the_date_witness :
  let date := VStr (py_strip "04.11.2026") in
  rdonly app0 = patient0
  /\ update_dict app0 = true
  /\ widgets app0 = <["lnTiedotPvm" := QLineEdit "04.11.2026"]> (list_to_map children0)
  /\ data app0 = <["TiedotPvm" := date]> (data_empty app0)
  /\ sql_updates app0 = [[("TiedotPvm", date)]]
  /\ match tail (tail (@nil bool)) with
     | false :: _ => roms_row app0 = ∅ /\ dialogs app0 = 1%nat
     | _ => roms_row app0 = <["TiedotPvm" := date]> ∅ /\ dialogs app0 = 0%nat
     end.
Proof.
  apply (new_entry_writes_the_date K0 children0 ∅ [] patient0 "04.11.2026" 3 app0).
  vm_compute. reflexivity.
Defined.

(** X18.  A window for an existing entry: the record holds, for every key of
    the defaults, the column of the row when it is not NULL and the default
    otherwise, and nothing else (a column that is no variable of the window
    is not loaded); the construction sends no UPDATE, shows no dialog and
    leaves the row as it was. *)
Theorem existing_entry_loads_the_row K children row outcomes patient datestr
  depth st :
  new_EntryApp K children row outcomes patient false datestr depth = Ok st ->
  rdonly st = patient
  /\ update_dict st = true
  /\ sql_updates st = []
  /\ dialogs st = 0%nat
  /\ roms_row st = row
  /\ forall f, data st !! f = match data_empty st !! f with
                              | Some d => Some (default d (row !! f))
                              | None => None
                              end.
Proof.
  intros Hnew.
  destruct (new_EntryApp_inv _ _ _ _ _ _ _ _ _ Hnew)
    as (s1 & s3 & Hinit & _ & Hs3 & _ & _ & Hrd).
  rewrite init_widgets_run in Hinit. simpl in Hinit.
  destruct (list_to_map children !! weight_widget); [|done].
  destruct (forallb _ _); [|done]. injection Hinit as <-.
  cbv zeta in Hrd.
  match type of Hrd with _read_data _ ?s = _ => set (s6 := s) in * end.
  assert (Hx : next_exec s6 = true).
  { rewrite read_data_run in Hrd. by destruct (next_exec s6). }
  destruct (read_data_no_writes depth s6) as (Hr & Hs & Hg & Hu).
  destruct (read_data_config depth s6) as (He & _ & _).
  pose proof (fun f => read_data_lookup depth s6 f Hx) as Hd.
  assert (Hp : rdonly (_read_data depth s6).2 = rdonly s6).
  { rewrite read_data_run, Hx.
    match goal with |- context [restore_forms depth ?s] =>
      by destruct (restore_forms_effect depth s) as (_&_&_&_&_&_&->&_)
    end. }
  rewrite Hrd in Hr, Hs, Hg, Hu, He, Hd, Hp. simpl in Hr, Hs, Hg, Hu, He, Hd, Hp.
  rewrite Hs3 in Hs, Hg, Hr. simpl in Hs, Hg, Hr.
  assert (Hrow : roms_row s3 = row) by (by rewrite Hs3).
  split; [done|]. split; [by apply Hu|]. do 3 (split; [done|]).
  intros f. rewrite Hd, He, Hrow. case_bool_decide as Hf.
  - apply elem_of_dom in Hf as [d ->]. by destruct (row !! f).
  - apply not_elem_of_dom in Hf. by rewrite Hf.
Qed.

Lemma existing_entry_loads_the_row_witness :
  rdonly app_existing = patient0
  /\ update_dict app_existing = true
  /\ sql_updates app_existing = []
  /\ dialogs app_existing = 0%nat
  /\ roms_row app_existing = {[ "AntropPaino" := VNum 70; "Vanha" := VNum 1 ]}
  /\ forall f, data app_existing !! f
               = match data_empty app_existing !! f with
                 | Some d =>
                     Some (default d (({[ "AntropPaino" := VNum 70; "Vanha" := VNum 1 ]}
                                        : gmap string value) !! f))
                 | None => None
                 end.
Proof.
  apply (existing_entry_loads_the_row K0 children0
           {[ "AntropPaino" := VNum 70; "Vanha" := VNum 1 ]} [] patient0 "" 3
           app_existing).
  vm_compute. reflexivity.
Defined.

(** ** Counting modified values *)

Lemma modified_keys_count (st : State) (keys : list string) :
  Forall (fun k => k ∈ dom (data st) /\ k ∈ dom (data_empty st)) keys ->
  exists l, modified_keys st keys = Ok l
            /\ (length l + length (filter (fun key => is_default st key = true) keys)
                = length keys)%nat.
Proof.
  induction 1 as [|k keys [Hd He] _ (l & Hl & Hlen)]; [by exists []|].
  apply elem_of_dom in Hd as [v Hv]. apply elem_of_dom in He as [v0 Hv0].
  cbn [modified_keys]. unfold getitem. rewrite Hv, Hv0, Hl.
  eexists. split; [done|].
  assert (Hdef : is_default st k = value_eqb v v0).
  { unfold is_default. by rewrite Hv, Hv0. }
  destruct (value_eqb v v0) eqn:Eq.
  - rewrite filter_cons_True by done. simpl. lia.
  - rewrite filter_cons_False by (rewrite Hdef; done). simpl. lia.
Qed.

Lemma modified_keys_missing (st : State) (keys : list string) (k : string) :
  Forall (fun k => k ∈ dom (data st)) keys ->
  k ∈ keys -> k ∉ dom (data_empty st) ->
  modified_keys st keys = Raise KeyError.
Proof.
  intros Hall Hk Hno. induction Hall as [|x keys Hx _ IH].
  - by apply elem_of_nil in Hk.
  - apply elem_of_dom in Hx as [v Hv]. cbn [modified_keys]. unfold getitem.
    rewrite Hv. destruct (data_empty st !! x) as [v0|] eqn:Hv0; [|done].
    apply elem_of_cons in Hk as [->|Hk].
    + exfalso. apply Hno, elem_of_dom. eauto.
    + by rewrite (IH Hk).
Qed.

Lemma record_keys_in_dom (st : State) :
  Forall (fun k => k ∈ dom (data st)) (map_to_list (data st)).*1.
Proof.
  apply Forall_forall. intros k Hk.
  apply list_elem_of_fmap in Hk as ([k' v] & -> & Hkv).
  apply elem_of_map_to_list in Hkv. apply elem_of_dom. eauto.
Qed.

(** X19.  Every variable of the record is either at its default or modified:
    when every key of the record has a default, [n_modified] returns, and its
    count and the number of [vars_default] add up to the size of the record.
    A key of the record without default ends [n_modified] in [KeyError]. *)
Theorem n_modified_and_vars_default (st : State) :
  (dom (data st) ⊆ dom (data_empty st) ->
   exists n, n_modified st = Ok n
             /\ (n + length (vars_default st) = size (data st))%nat)
  /\ (forall k, k ∈ dom (data st) -> k ∉ dom (data_empty st) ->
        n_modified st = Raise KeyError).
Proof.
  split.
  - intros Hsub.
    destruct (modified_keys_count st (map_to_list (data st)).*1) as (l & Hl & Hlen).
    { eapply Forall_impl; [apply record_keys_in_dom|].
      intros k Hk. split; [done|]. by apply Hsub. }
    exists (length l). unfold n_modified. rewrite Hl. split; [done|].
    unfold vars_default. rewrite Hlen, length_fmap. apply length_map_to_list.
  - intros k Hk Hno. unfold n_modified.
    rewrite (modified_keys_missing st _ k); [done | apply record_keys_in_dom | | done].
    apply elem_of_dom in Hk as [v Hv]. apply list_elem_of_fmap.
    exists (k, v). split; [done|]. by apply elem_of_map_to_list.
Qed.

Lemma n_modified_and_vars_default_witness :
  exists n, n_modified app_weight = Ok n
            /\ (n + length (vars_default app_weight) = size (data app_weight))%nat.
Proof.
  apply (n_modified_and_vars_default app_weight).
  apply (bool_decide_unpack _). vm_compute. exact I.
Defined.

(** ** Widget names and variable names *)

Lemma substring_whole (s : string) : String.substring 0 (String.length s) s = s.
Proof. induction s as [|c s IH]; [done|]. simpl. by rewrite IH. Qed.

Lemma py_prefix_2 (a : string) (c1 c2 : Ascii.ascii) :
  py_prefix 2 a = String c1 (String c2 "") ->
  exists r, a = String c1 (String c2 r) /\ py_drop 2 a = r.
Proof.
  destruct a as [|x1 [|x2 r]]; try discriminate. unfold py_prefix, py_drop.
  simpl. intros [= -> ->]. exists r. by rewrite Nat.sub_0_r, substring_whole.
Qed.

Lemma py_prefix_3 (a : string) (c1 c2 c3 : Ascii.ascii) :
  py_prefix 3 a = String c1 (String c2 (String c3 "")) ->
  exists r, a = String c1 (String c2 (String c3 r)) /\ py_drop 3 a = r.
Proof.
  destruct a as [|x1 [|x2 [|x3 r]]]; try discriminate. unfold py_prefix, py_drop.
  simpl. intros [= -> -> ->]. exists r. by rewrite Nat.sub_0_r, substring_whole.
Qed.

Lemma widget_name_of_var (a : string) (k : wkind) :
  widget_kind a = Some k ->
  a = (match k with
       | Ksp => "sp" | Kln => "ln" | Kcb => "cb" | Kcmt => ""
       | Kxb => "xb" | Kcsb => "csb"
       end ++ varname_of a)%string.
Proof.
  unfold widget_kind, varname_of.
  destruct (String.eqb_spec (py_prefix 2 a) "sp") as [Hsp|_].
  { intros [= <-]. apply py_prefix_2 in Hsp as (r & Ha & Hr).
    rewrite Hr. by rewrite Ha. }
  destruct (String.eqb_spec (py_prefix 2 a) "ln") as [Hln|_].
  { intros [= <-]. apply py_prefix_2 in Hln as (r & Ha & Hr).
    rewrite Hr. by rewrite Ha. }
  destruct (String.eqb_spec (py_prefix 2 a) "cb") as [Hcb|_].
  { intros [= <-]. apply py_prefix_2 in Hcb as (r & Ha & Hr).
    rewrite Hr. by rewrite Ha. }
  destruct (String.eqb_spec (py_prefix 3 a) "cmt") as [Hcmt|_].
  { by intros [= <-]. }
  destruct (String.eqb_spec (py_prefix 2 a) "xb") as [Hxb|_].
  { intros [= <-]. apply py_prefix_2 in Hxb as (r & Ha & Hr).
    rewrite Hr. by rewrite Ha. }
  destruct (String.eqb_spec (py_prefix 3 a) "csb") as [Hcsb|_]; [|done].
  intros [= <-]. apply py_prefix_3 in Hcsb as (r & Ha & Hr).
  rewrite Hr. by rewrite Ha.
Qed.

(** X20.  Within one class of input widgets the variable name determines the
    widget: two input widgets that [init_widgets] puts in the same class and
    that [widget_to_var] maps to the same variable are the same widget.  (A
    spin box 'spX' and a line editor 'lnX' share the variable 'X'.) *)
Theorem widget_to_var_injective_in_class (a b : string) :
  is_input_widget a = true ->
  widget_kind a = widget_kind b ->
  varname_of a = varname_of b ->
  a = b.
Proof.
  unfold is_input_widget. intros Ha Hk Hv.
  destruct (widget_kind a) as [k|] eqn:Eka; [|done]. symmetry in Hk.
  rewrite (widget_name_of_var a k Eka), (widget_name_of_var b k Hk).
  by rewrite Hv.
Qed.

Lemma widget_to_var_injective_in_class_witness :
  "csbLonkkaFleksioOik" = "csbLonkkaFleksioOik".
Proof.
  apply (widget_to_var_injective_in_class "csbLonkkaFleksioOik"
           "csbLonkkaFleksioOik"); reflexivity.
Defined.

(** ** Statements sent to the database *)

Lemma one_column_set_widgets ws st :
  updates_one_column st ->
  any_change st (set_widgets ws st) /\ updates_one_column (set_widgets ws st).
Proof. done. Qed.

Lemma one_column_keeps_update_dict_and_rom (w : string) :
  keeps updates_one_column any_change (update_dict_and_rom w).
Proof.
  intros st HI. split; [done|].
  unfold update_dict_and_rom, bind, gets, modify. simpl.
  destruct (update_dict st); [|done].
  unfold widget_to_var. simpl. case_bool_decide as Hw; [|done].
  unfold getVal. simpl. destruct (widgets st !! w) as [q|]; [|done].
  destruct (widget_getVal (consts st) w q) as [v|e]; [|done].
  rewrite update_rom_one. simpl.
  assert (Hnew : updates_one_column
                   (set_sql_updates ([(varname_of w, v)] :: sql_updates st) st)).
  { constructor; [by exists w, v | done]. }
  by destruct (next_exec _).
Qed.

Lemma one_column_keeps_values_changed (depth : nat) (w : string) :
  keeps updates_one_column any_change (values_changed depth w).
Proof.
  apply keeps_values_changed; [apply _ | apply one_column_set_widgets |].
  apply one_column_keeps_update_dict_and_rom.
Qed.

Lemma one_column_keeps_restore_forms (depth : nat) :
  keeps updates_one_column any_change (restore_forms depth).
Proof.
  unfold restore_forms.
  apply keeps_bind; [apply _ | by intros st H |]. intros _.
  apply keeps_bind; [apply _ | apply keeps_gets; apply _ |]. intros wnames.
  apply keeps_bind; [apply _ | | by intros _ st H].
  apply keeps_for_each; [apply _|]. intros wname _.
  apply keeps_bind; [apply _ | apply keeps_widget_to_var; apply _ |]. intros var.
  apply keeps_bind; [apply _ | apply keeps_same; [apply _ | done] |]. intros val.
  apply keeps_setVal; [apply _ | apply one_column_set_widgets |].
  intros w. apply one_column_keeps_values_changed.
Qed.

Lemma one_column_keeps_read_data (depth : nat) :
  keeps updates_one_column any_change (_read_data depth).
Proof.
  intros st HI. split; [done|]. rewrite read_data_run.
  destruct (next_exec st); [|done].
  by apply one_column_keeps_restore_forms.
Qed.

Lemma one_column_keeps_read_forms :
  keeps updates_one_column any_change read_forms.
Proof.
  unfold read_forms.
  apply keeps_bind; [apply _ | apply keeps_gets; apply _ |]. intros wnames.
  apply keeps_for_each; [apply _|]. intros wname _.
  apply keeps_bind; [apply _ | apply keeps_widget_to_var; apply _ |]. intros var.
  apply keeps_bind; [apply _ | apply keeps_getVal; apply _ |]. intros val.
  by intros st H.
Qed.

Lemma one_column_keeps_run_op (depth : nat) (o : op) :
  keeps updates_one_column any_change (run_op depth o).
Proof.
  destruct o as [wname w|wname val| | | |row outcomes]; unfold run_op.
  - apply keeps_bind; [apply _ | apply keeps_gets; apply _ |]. intros off.
    apply keeps_if; [apply keeps_ret; apply _|].
    apply keeps_bind; [apply _ | by intros st H |]. intros _.
    apply one_column_keeps_values_changed.
  - apply keeps_setVal; [apply _ | apply one_column_set_widgets |].
    intros w. apply one_column_keeps_values_changed.
  - apply one_column_keeps_read_data.
  - apply one_column_keeps_read_forms.
  - apply one_column_keeps_restore_forms.
  - by intros st H.
Qed.

Lemma one_column_run_ops (depth : nat) (ops : list op) (st : State) :
  updates_one_column st -> updates_one_column (run_ops depth ops st).
Proof.
  revert st. induction ops as [|o ops IH]; intros st H; [done|].
  cbn [run_ops]. apply IH. by apply one_column_keeps_run_op.
Qed.

Lemma new_EntryApp_one_column K children row outcomes patient newly_created
  datestr depth st :
  new_EntryApp K children row outcomes patient newly_created datestr depth
  = Ok st ->
  updates_one_column st.
Proof.
  intros Hnew.
  destruct (new_EntryApp_inv _ _ _ _ _ _ _ _ _ Hnew)
    as (s1 & s3 & Hinit & _ & Hs3 & _ & _ & Hrest).
  rewrite init_widgets_run in Hinit. simpl in Hinit.
  destruct (list_to_map children !! weight_widget); [|done].
  destruct (forallb _ _); [|done]. injection Hinit as <-.
  cbv zeta in Hrest.
  assert (H3 : sql_updates s3 = []) by (by rewrite Hs3).
  destruct newly_created.
  - destruct Hrest as (text & _ & Hvc).
    match type of Hvc with values_changed _ _ ?s = _ =>
      assert (H7 : updates_one_column s)
    end.
    { unfold updates_one_column. simpl. rewrite H3. constructor. }
    apply (one_column_keeps_values_changed depth "lnTiedotPvm") in H7 as [_ H7].
    by rewrite Hvc in H7.
  - match type of Hrest with _read_data _ ?s = _ =>
      assert (H6 : updates_one_column s)
    end.
    { unfold updates_one_column. simpl. rewrite H3. constructor. }
    apply (one_column_keeps_read_data depth) in H6 as [_ H6].
    by rewrite Hrest in H6.
Qed.

(** X21.  The window writes one column at a time: from construction on and
    after every sequence of events, every UPDATE that was sent sets exactly
    one column, and the column is the variable of an input widget. *)
Theorem every_update_sets_one_column K children row outcomes patient
  newly_created datestr depth st (depth' : nat) (ops : list op) :
  new_EntryApp K children row outcomes patient newly_created datestr depth
  = Ok st ->
  Forall (fun stmt => exists w v,
            w ∈ input_widgets (run_ops depth' ops st)
            /\ stmt = [(varname_of w, v)])
    (sql_updates (run_ops depth' ops st)).
Proof.
  intros Hnew. apply one_column_run_ops. by eapply new_EntryApp_one_column.
Qed.

Lemma every_update_sets_one_column_witness :
  Forall (fun stmt => exists w v,
            w ∈ input_widgets
                  (run_ops 3 [Edit "spAntropPaino" (QSpinBox (-1) 70); ReadData] app0)
            /\ stmt = [(varname_of w, v)])
    (sql_updates (run_ops 3 [Edit "spAntropPaino" (QSpinBox (-1) 70); ReadData] app0)).
Proof.
  apply (every_update_sets_one_column K0 children0 ∅ [] patient0 true
           "04.11.2026" 3 app0).
  vm_compute. reflexivity.
Defined.

(** ** The Escape key *)

(** X22.  Escape in a spin box is a [setVal] of the 'not measured' text: the
    key handler and [spinbox_setval] both put the spin box at its minimum,
    with the same change notification.  When the spin box is no autowidget it
    reads 'not measured' afterwards, however the notification ends. *)
Theorem escape_resets_spinbox (depth : nat) (obj : string) (minimum old : Q)
  (st : State) :
  widget_kind obj = Some Ksp ->
  widgets st !! obj = Some (QSpinBox minimum old) ->
  keyPressEvent_resetOnEsc depth obj st
  = setVal (values_changed depth) obj (VStr (spinbox_novalue_text (consts st))) st
  /\ (obj ∉ autowidgets st ->
      (getVal obj (keyPressEvent_resetOnEsc depth obj st).2).1
      = Ok (VStr (spinbox_novalue_text (consts st)))).
Proof.
  intros Hk Hw.
  assert (Hrun : keyPressEvent_resetOnEsc depth obj st
                 = if negb (Qeq_bool minimum old)
                   then values_changed depth obj
                          (set_widgets (<[obj := QSpinBox minimum minimum]> (widgets st)) st)
                   else (Ok tt,
                         set_widgets (<[obj := QSpinBox minimum minimum]> (widgets st)) st)).
  { unfold keyPressEvent_resetOnEsc, bind, gets, modify. rewrite Hw.
    by destruct (negb _). }
  split.
  - rewrite Hrun. unfold setVal, bind, gets, modify. rewrite Hw.
    unfold widget_setVal. rewrite Hk. unfold spinbox_setval. cbn.
    rewrite String.eqb_refl. by destruct (negb _).
  - intros Hauto. rewrite Hrun.
    set (s1 := set_widgets (<[obj := QSpinBox minimum minimum]> (widgets st)) st).
    assert (Hg : forall s, widgets s !! obj = Some (QSpinBox minimum minimum) ->
                           consts s = consts st ->
                           (getVal obj s).1 = Ok (VStr (spinbox_novalue_text (consts st)))).
    { intros s Hs Hc. rewrite (getVal_spin s obj minimum minimum Hk Hs). simpl.
      unfold spinbox_getval. by rewrite Hc, (proj2 (Qeq_bool_iff minimum minimum)). }
    assert (H1 : widgets s1 !! obj = Some (QSpinBox minimum minimum)).
    { unfold s1. simpl. apply lookup_insert_eq. }
    destruct (negb _); [|by apply Hg].
    apply Hg.
    + rewrite outside_values_changed_lookup by done. exact H1.
    + by destruct (config_keeps_values_changed depth obj s1 I) as [(-> & _) _].
Qed.

Lemma escape_resets_spinbox_witness :
  keyPressEvent_resetOnEsc 3 "spAntropPaino" app_weight
  = setVal (values_changed 3) "spAntropPaino"
      (VStr (spinbox_novalue_text (consts app_weight))) app_weight
  /\ ("spAntropPaino" ∉ autowidgets app_weight ->
      (getVal "spAntropPaino"
         (keyPressEvent_resetOnEsc 3 "spAntropPaino" app_weight).2).1
      = Ok (VStr (spinbox_novalue_text (consts app_weight)))).
Proof.
  apply (escape_resets_spinbox 3 "spAntropPaino" (-1) 70 app_weight).
  - reflexivity.
  - vm_compute. reflexivity.
Defined.

(** ** Reporting keys *)

(** X23.  [keyerror_dialog] shows its dialog exactly when the new keys are
    not all among the original ones (data would be lost); keys that are only
    missing from the new ones are no reason for a dialog.  It never raises and
    changes nothing else. *)
Theorem keyerror_dialog_iff_data_lost (origkeys newkeys : gset string)
  (st : State) :
  (newkeys ⊆ origkeys -> keyerror_dialog origkeys newkeys st = (Ok tt, st))
  /\ (newkeys ⊈ origkeys ->
      keyerror_dialog origkeys newkeys st
      = (Ok tt, set_dialogs (S (dialogs st)) st)).
Proof.
  unfold keyerror_dialog. split; intros H.
  - rewrite bool_decide_eq_false_2; [done|]. intros Hne. apply Hne.
    apply set_eq. intros k.
    rewrite elem_of_difference, elem_of_intersection, elem_of_empty.
    split; [|done]. intros [Hk Hno]. apply Hno. split; [by apply H | done].
  - rewrite bool_decide_eq_true_2; [done|]. intros He. apply H.
    intros k Hk. destruct (decide (k ∈ origkeys)) as [|Hno]; [done|].
    assert (Hin : k ∈ newkeys ∖ (origkeys ∩ newkeys)).
    { apply elem_of_difference. split; [done|]. rewrite elem_of_intersection. tauto. }
    rewrite He in Hin. by apply elem_of_empty in Hin.
Qed.

Lemma keyerror_dialog_iff_data_lost_witness :
  keyerror_dialog {[ "a"; "b" ]} {[ "a" ]} app0 = (Ok tt, app0)
  /\ keyerror_dialog {[ "a" ]} {[ "a"; "b" ]} app0
     = (Ok tt, set_dialogs (S (dialogs app0)) app0).
Proof.
  destruct (keyerror_dialog_iff_data_lost {[ "a"; "b" ]} {[ "a" ]} app0) as [H1 _].
  destruct (keyerror_dialog_iff_data_lost {[ "a" ]} {[ "a"; "b" ]} app0) as [_ H2].
  split.
  - apply H1. set_solver.
  - apply H2. set_solver.
Defined.

(** ** The name of the backup file *)

Lemma py_split_from_word (word : list Ascii.ascii) (s : string) :
  no_space s ->
  py_split_from word s
  = match (rev word ++ String.list_ascii_of_string s)%list with
    | [] => []
    | l => [String.string_of_list_ascii l]
    end.
Proof.
  unfold no_space. revert word. induction s as [|c s IH]; intros word Hs.
  - cbn. rewrite app_nil_r. destruct word as [|x word]; [done|].
    cbn [rev]. by destruct (rev word ++ [x])%list eqn:E; [destruct (rev word)|].
  - cbn in Hs. apply Forall_cons in Hs as [Hc Hs]. cbn [py_split_from].
    rewrite Hc, (IH _ Hs). cbn [rev String.list_ascii_of_string].
    by rewrite <- app_assoc.
Qed.

Lemma py_split_from_two (word : list Ascii.ascii) (a b : string) :
  no_space a -> no_space b -> b <> "" ->
  (rev word ++ String.list_ascii_of_string a)%list <> [] ->
  py_split_from word (a ++ " " ++ b)
  = [String.string_of_list_ascii (rev word ++ String.list_ascii_of_string a); b].
Proof.
  unfold no_space. revert word. induction a as [|c a IH]; intros word Ha Hb Hbne Hne.
  - change (("" ++ " " ++ b)%string) with (String " "%char b).
    cbn [py_split_from]. change (is_space " "%char) with true. cbn beta iota.
    cbn in Hne. rewrite app_nil_r in Hne. cbn. rewrite app_nil_r.
    rewrite (py_split_from_word [] b Hb). cbn.
    destruct word as [|x word]; [done|].
    destruct b as [|y b]; [done|]. cbn.
    by rewrite String.string_of_list_ascii_of_string.
  - rewrite string_app_cons. cbn in Ha. apply Forall_cons in Ha as [Hc Ha].
    cbn [py_split_from]. rewrite Hc.
    rewrite (IH (c :: word)); [|done|done|done|].
    + cbn [rev String.list_ascii_of_string]. by rewrite <- app_assoc.
    + cbn [rev]. rewrite <- app_assoc. by destruct (rev word).
Qed.

Lemma py_split_two (a b : string) :
  no_space a -> no_space b -> a <> "" -> b <> "" ->
  py_split (a ++ " " ++ b) = [a; b].
Proof.
  intros Ha Hb Hane Hbne. unfold py_split.
  rewrite py_split_from_two; try done.
  - cbn. by rewrite String.string_of_list_ascii_of_string.
  - cbn. by destruct a.
Qed.

Lemma patient_id_lookup (st : State) :
  get_patient_id_data st !! "TiedotID" = Some (VStr (rdonly_patient_code (rdonly st)))
  /\ get_patient_id_data st !! "TiedotNimi"
     = Some (VStr (rdonly_firstname (rdonly st) ++ " " ++ rdonly_lastname (rdonly st))).
Proof. done. Qed.

(** X24.  The name of the backup file: when the record has no entries of its
    own for the patient's code and name, and the first and the last name are
    single words, the file is named by the code, the last name followed by
    the first name without a separator, and the time stamp. *)
Theorem compose_json_filename_of_patient (env : Env) (st : State) :
  data st !! "TiedotID" = None ->
  data st !! "TiedotNimi" = None ->
  no_space (rdonly_firstname (rdonly st)) ->
  no_space (rdonly_lastname (rdonly st)) ->
  rdonly_firstname (rdonly st) <> "" ->
  rdonly_lastname (rdonly st) <> "" ->
  _compose_json_filename env st
  = Ok (rdonly_patient_code (rdonly st) ++ "_"
        ++ rdonly_lastname (rdonly st) ++ rdonly_firstname (rdonly st)
        ++ "_" ++ now_stamp env ++ ".json").
Proof.
  intros Hid Hname Hf Hl Hfne Hlne.
  destruct (patient_id_lookup st) as [Hpid Hpname].
  unfold _compose_json_filename, filename_pdata, getitem.
  rewrite !lookup_union, Hid, Hname, Hpid, Hpname.
  change (None ∪ Some ?x) with (Some x). cbv beta iota.
  rewrite py_split_two by done.
  change (rev [?a; ?b]) with [b; a]. cbn [String.concat].
  change (("" ++ ?x)%string) with x.
  by rewrite <- !string_app_assoc.
Qed.

Lemma compose_json_filename_of_patient_witness :
  _compose_json_filename env_demo app0
  = Ok (rdonly_patient_code (rdonly app0) ++ "_"
        ++ rdonly_lastname (rdonly app0) ++ rdonly_firstname (rdonly app0)
        ++ "_" ++ now_stamp env_demo ++ ".json").
Proof.
  apply (compose_json_filename_of_patient env_demo app0).
  - vm_compute. reflexivity.
  - vm_compute. reflexivity.
  - vm_compute. repeat constructor.
  - vm_compute. repeat constructor.
  - vm_compute. discriminate.
  - vm_compute. discriminate.
Defined.



(** ** Closing the window *)

Lemma do_close_outcome (env : Env) (w : Window) :
  let r := do_close env w in
  app r.2 = app w
  /\ (r.1 = Ok true
      /\ closing r.2 = S (closing w)
      /\ (newly_created w = false -> files r.2 = files w)
      /\ (newly_created w = true ->
          exists fn, _compose_json_filename env (app w) = Ok fn
                     /\ files r.2
                        = if open_ok env fn
                          then (fn, save_file (json_enc env) (app w)) :: files w
                          else files w)
      \/ (exists e, r.1 = Raise e) /\ r.2 = w).
Proof.
  unfold do_close. destruct (newly_created w) eqn:Hn.
  - destruct (_compose_json_filename env (app w)) as [fn|e] eqn:Hfn; simpl.
    + split; [by destruct (open_ok env fn)|]. left.
      repeat split; try done; [by destruct (open_ok env fn)|].
      intros _. exists fn. split; [done|]. by destruct (open_ok env fn).
    + split; [done|]. right. eauto.
  - simpl. split; [done|]. left. repeat split; done.
Qed.

(** X26.  The [closing] signal is emitted exactly when the close event is
    accepted.  [closeEvent] accepts when the window was told to close without
    confirmation or the date of the record is valid; a backup is written only
    for a newly created entry, and a file that cannot be written does not
    keep the window open.  An event that is not accepted shows one dialog and
    writes nothing.  The date is validated after the widget that had the
    focus has lost it. *)
Theorem closeEvent_accepts_iff (env : Env) (depth : nat)
  (focused : option string) (w : Window) (accepted : bool) :
  let st1 := (setFocus depth focused (app w)).2 in
  let r := closeEvent env depth focused w in
  r.1 = Ok accepted ->
  (accepted = true
   <-> confirm_close w = false \/ _validate_outputs env st1 = Ok true)
  /\ closing r.2 = (if accepted then S (closing w) else closing w)
  /\ (if accepted
      then app r.2 = st1
           /\ (newly_created w = false -> files r.2 = files w)
           /\ (newly_created w = true ->
               exists fn, _compose_json_filename env st1 = Ok fn
                          /\ files r.2
                             = if open_ok env fn
                               then (fn, save_file (json_enc env) st1) :: files w
                               else files w)
      else app r.2 = set_dialogs (S (dialogs st1)) st1 /\ files r.2 = files w).
Proof.
  intros st1 r. unfold r, closeEvent. subst st1.
  destruct (setFocus depth focused (app w)) as [[[]|e] st1]; [|done]. simpl.
  pose proof (do_close_outcome env (set_app st1 w)) as Hdo. cbv zeta in Hdo.
  destruct (confirm_close w) eqn:Hc; simpl.
  - destruct (_validate_outputs env st1) as [[]|e] eqn:Hv; [| |done].
    + destruct Hdo as [Ha [(Hr & Hcl & Hf0 & Hf1)|[[e He] _]]];
        [|by rewrite He]. rewrite Hr. intros [= <-].
      repeat split; try done; eauto.
    + intros [= <-]. simpl. repeat split; try done. by intros [|].
  - destruct Hdo as [Ha [(Hr & Hcl & Hf0 & Hf1)|[[e He] _]]];
      [|by rewrite He]. rewrite Hr. intros [= <-].
    repeat split; try done; eauto.
Qed.

Lemma closeEvent_accepts_iff_witness :
  let st1 := (setFocus 3 None (app win0)).2 in
  let r := closeEvent env_demo 3 None win0 in
  (true = true
   <-> confirm_close win0 = false \/ _validate_outputs env_demo st1 = Ok true)
  /\ closing r.2 = S (closing win0)
  /\ app r.2 = st1
     /\ (newly_created win0 = false -> files r.2 = files win0)
     /\ (newly_created win0 = true ->
         exists fn, _compose_json_filename env_demo st1 = Ok fn
                    /\ files r.2
                       = if open_ok env_demo fn
                         then (fn, save_file (json_enc env_demo) st1) :: files win0
                         else files win0).
Proof.
  apply (closeEvent_accepts_iff env_demo 3 None win0 true).
  vm_compute. reflexivity.
Defined.

(** X27.  [force_close] never asks: it does not validate the date, shows no
    dialog and never leaves the event unaccepted; for an entry that is not
    newly created it closes the window whatever the record holds. *)
Theorem force_close_never_refuses (env : Env) (depth : nat)
  (focused : option string) (w : Window) :
  let st1 := (setFocus depth focused (app w)).2 in
  let r := force_close env depth focused w in
  r.1 <> Ok false
  /\ app r.2 = st1
  /\ ((setFocus depth focused (app w)).1 = Ok tt ->
      newly_created w = false ->
      r.1 = Ok true /\ closing r.2 = S (closing w) /\ files r.2 = files w).
Proof.
  intros st1 r. unfold r, force_close, closeEvent. subst st1. simpl.
  destruct (setFocus depth focused (app w)) as [[[]|e] st1]; [|done]. simpl.
  unfold do_close. simpl. destruct (newly_created w).
  - destruct (_compose_json_filename env st1) as [fn|e]; simpl; [|done].
    split; [done|]. split; [by destruct (open_ok env fn)|done].
  - done.
Qed.

Lemma force_close_never_refuses_witness :
  (force_close env_demo 3 None (mkWindow app_no_item true false [] 0)).1 = Ok true
  /\ closing (force_close env_demo 3 None (mkWindow app_no_item true false [] 0)).2
     = 1%nat
  /\ files (force_close env_demo 3 None (mkWindow app_no_item true false [] 0)).2
     = [].
Proof.
  destruct (force_close_never_refuses env_demo 3 None
              (mkWindow app_no_item true false [] 0)) as (_ & _ & H).
  apply H; reflexivity.
Defined.

Lemma date_widget_is_input K children row outcomes patient datestr depth st :
  new_EntryApp K children row outcomes patient true datestr depth = Ok st ->
  "lnTiedotPvm" ∈ input_widgets st.
Proof.
  intros Hnew.
  destruct (new_EntryApp_inv _ _ _ _ _ _ _ _ _ Hnew)
    as (s1 & s3 & Hinit & _ & Hs3 & _ & _ & text & Hw & Hvc).
  rewrite init_widgets_run in Hinit. simpl in Hinit.
  destruct (list_to_map children !! weight_widget); [|done].
  destruct (forallb _ _); [|done]. injection Hinit as <-.
  match type of Hvc with values_changed _ _ ?s = _ =>
    destruct (config_keeps_values_changed depth "lnTiedotPvm" s I)
      as [(_ & Hi & _) _]
  end.
  rewrite Hvc in Hi. simpl in Hi. rewrite Hi, Hs3. simpl.
  apply list_elem_of_filter. split; [done|].
  rewrite Hs3 in Hw. simpl in Hw.
  apply elem_of_list_to_map_2 in Hw.
  apply list_elem_of_fmap. by exists ("lnTiedotPvm", QLineEdit text).
Qed.

Lemma run_ops_input_widgets (depth : nat) (ops : list op) (st : State) :
  input_widgets (run_ops depth ops st) = input_widgets st.
Proof.
  revert st. induction ops as [|o ops IH]; intros st; [done|].
  cbn [run_ops]. rewrite IH.
  assert (Hk : keeps always same_config (run_op depth o)).
  { destruct o; unfold run_op.
    - config_steps ltac:(apply config_keeps_values_changed).
    - apply config_keeps_setVal.
    - apply config_keeps_read_data.
    - apply config_keeps_read_forms.
    - apply config_keeps_restore_forms.
    - by intros s _. }
  by destruct (Hk st I) as [(_ & -> & _) _].
Qed.

(** X28.  A window that was constructed for a new entry always has a date to
    validate: after every sequence of events the record has the key
    'TiedotPvm', so [_validate_outputs] does not end in [KeyError]. *)
Theorem date_is_always_there K children row outcomes patient datestr depth st
  (env : Env) (depth' : nat) (ops : list op) :
  new_EntryApp K children row outcomes patient true datestr depth = Ok st ->
  is_Some (data (run_ops depth' ops st) !! "TiedotPvm")
  /\ _validate_outputs env (run_ops depth' ops st) <> Raise KeyError.
Proof.
  intros Hnew.
  assert (Hd : is_Some (data (run_ops depth' ops st) !! "TiedotPvm")).
  { pose proof (date_widget_is_input _ _ _ _ _ _ _ _ Hnew) as Hin.
    apply new_EntryApp_keys_ok in Hnew.
    destruct (keys_ok_run_ops depth' ops st Hnew) as [_ Hk].
    apply elem_of_dom. apply (Hk "lnTiedotPvm").
    by rewrite run_ops_input_widgets. }
  split; [done|]. destruct Hd as [v Hv].
  unfold _validate_outputs, getitem. rewrite Hv. by destruct v.
Qed.

Lemma date_is_always_there_witness :
  is_Some (data (run_ops 3 [ReadData; Edit "lnTiedotPvm" (QLineEdit "")] app0)
             !! "TiedotPvm")
  /\ _validate_outputs env_demo
       (run_ops 3 [ReadData; Edit "lnTiedotPvm" (QLineEdit "")] app0)
     <> Raise KeyError.
Proof.
  apply (date_is_always_there K0 children0 ∅ [] patient0 "04.11.2026" 3 app0).
  vm_compute. reflexivity.
Defined.

Lemma do_close_result (env : Env) (w : Window) :
  (do_close env w).1
  = (if newly_created w
     then match _compose_json_filename env (app w) with
          | Ok _ => Ok true
          | Raise e => Raise e
          end
     else Ok true)
  /\ app (do_close env w).2 = app w.
Proof.
  unfold do_close. destruct (newly_created w); [|done].
  destruct (_compose_json_filename env (app w)) as [fn|e]; [|done].
  by destruct (open_ok env fn).
Qed.

Lemma closeEvent_after_flush (env : Env) (depth : nat)
  (focused : option string) (w : Window) (st1 : State) (date : string) :
  setFocus depth focused (app w) = (Ok tt, st1) ->
  confirm_close w = true ->
  data st1 !! "TiedotPvm" = Some (VStr date) ->
  let r := closeEvent env depth focused w in
  data (app r.2) = data st1
  /\ (r.1 = Ok false <-> strptime_ok env date = false)
  /\ (strptime_ok env date = true ->
      newly_created w = false
      \/ is_ok (_compose_json_filename env (app r.2)) = true ->
      r.1 = Ok true).
Proof.
  intros Hf Hc Hd. cbv zeta. unfold closeEvent. rewrite Hf. simpl. rewrite Hc.
  simpl. unfold _validate_outputs, getitem. rewrite Hd. simpl.
  destruct (strptime_ok env date); [|done].
  destruct (do_close_result env (set_app st1 w)) as [Hr Ha]. simpl in Hr, Ha.
  rewrite Ha, Hr. split; [done|]. split.
  - split; [|done]. destruct (newly_created w); [|done].
    by destruct (_compose_json_filename env st1).
  - intros _ [->|Hok]; [done|]. destruct (newly_created w); [|done].
    by destruct (_compose_json_filename env st1).
Qed.

(** X29.  The date that is validated is the date as typed.  In a window whose
    autowidgets are named by the convention, whose date field is an input
    line editor and which asks before it closes: when the date field has the
    focus and [self.update_dict] is on, [closeEvent] first takes the text of
    the field into the record, stripped, and refuses exactly when that text
    is no valid date, whatever date the record held before, for a newly
    created entry as for an existing one; a valid date is accepted (for a
    newly created entry when the name of the backup can be composed).  When
    [self.update_dict] is off, nothing is taken into the record and the date
    that the record holds is the one validated. *)
Theorem close_validates_typed_date (env : Env) (depth : nat) (text : string)
  (w : Window) :
  named_autowidgets (app w) ->
  "lnTiedotPvm" ∈ input_widgets (app w) ->
  widgets (app w) !! "lnTiedotPvm" = Some (QLineEdit text) ->
  confirm_close w = true ->
  let r := closeEvent env (S depth) (Some "lnTiedotPvm") w in
  (update_dict (app w) = true ->
   data (app r.2) !! "TiedotPvm" = Some (VStr (py_strip text))
   /\ (r.1 = Ok false <-> strptime_ok env (py_strip text) = false)
   /\ (strptime_ok env (py_strip text) = true ->
       newly_created w = false
       \/ is_ok (_compose_json_filename env (app r.2)) = true ->
       r.1 = Ok true))
  /\ (update_dict (app w) = false ->
      data (app r.2) = data (app w)
      /\ forall old,
           data (app w) !! "TiedotPvm" = Some (VStr old) ->
           (r.1 = Ok false <-> strptime_ok env old = false)
           /\ (strptime_ok env old = true ->
               newly_created w = false
               \/ is_ok (_compose_json_filename env (app r.2)) = true ->
               r.1 = Ok true)).
Proof.
  intros Hn Hin Hw Hc.
  assert (Hleaf : setFocus (S depth) (Some "lnTiedotPvm") (app w)
                  = update_dict_and_rom "lnTiedotPvm" (app w)).
  { unfold setFocus, eventFilter.
    change (has_event_filter "lnTiedotPvm") with true. cbv iota.
    by rewrite values_changed_no_dependents by by apply leaf_no_dependents. }
  cbv zeta. split; intros Hu.
  - assert (Hflush : exists st1,
               setFocus (S depth) (Some "lnTiedotPvm") (app w) = (Ok tt, st1)
               /\ data st1 = <["TiedotPvm" := VStr (py_strip text)]> (data (app w))).
    { rewrite Hleaf.
      rewrite (update_dict_and_rom_on "lnTiedotPvm" (VStr (py_strip text)));
        [|done|done|by unfold getVal; rewrite Hw].
      rewrite update_rom_one. eexists. split; [done|]. by destruct (next_exec _). }
    destruct Hflush as (st1 & Hf & Hd).
    assert (Hdate : data st1 !! "TiedotPvm" = Some (VStr (py_strip text))).
    { rewrite Hd. apply lookup_insert_eq. }
    destruct (closeEvent_after_flush env (S depth) (Some "lnTiedotPvm") w st1
                (py_strip text) Hf Hc Hdate) as (Hdata & Hiff & Hok).
    split; [by rewrite Hdata|]. by split.
  - assert (Hf : setFocus (S depth) (Some "lnTiedotPvm") (app w)
                 = (Ok tt, set_guard_log (("lnTiedotPvm", false) :: guard_log (app w))
                             (app w))).
    { rewrite Hleaf. unfold update_dict_and_rom, bind, gets, modify. simpl.
      by rewrite Hu. }
    split.
    + unfold closeEvent. rewrite Hf. simpl. rewrite Hc. simpl.
      destruct (_validate_outputs env _) as [[]|e]; try done.
      by destruct (do_close_result env
                     (set_app (set_guard_log (("lnTiedotPvm", false)
                                               :: guard_log (app w)) (app w)) w))
        as [_ ->].
    + intros old Hold.
      destruct (closeEvent_after_flush env (S depth) (Some "lnTiedotPvm") w _
                  old Hf Hc Hold) as (_ & Hiff & Hok).
      by split.
Qed.

Lemma close_validates_typed_date_witness :
  let w := mkWindow (set_widgets (<["lnTiedotPvm" := QLineEdit " huomenna "]>
                                    (widgets app0)) app0) true true [] 0 in
  let r := closeEvent env_demo 1 (Some "lnTiedotPvm") w in
  data (app r.2) !! "TiedotPvm" = Some (VStr (py_strip " huomenna "))
  /\ (r.1 = Ok false <-> strptime_ok env_demo (py_strip " huomenna ") = false)
  /\ (strptime_ok env_demo (py_strip " huomenna ") = true ->
      newly_created w = false
      \/ is_ok (_compose_json_filename env_demo (app r.2)) = true ->
      r.1 = Ok true).
Proof.
  destruct (close_validates_typed_date env_demo 0 " huomenna "
              (mkWindow (set_widgets (<["lnTiedotPvm" := QLineEdit " huomenna "]>
                                        (widgets app0)) app0) true true [] 0))
    as [Hon _].
  - vm_compute. repeat constructor.
  - apply (bool_decide_unpack _). vm_compute. exact I.
  - vm_compute. reflexivity.
  - reflexivity.
  - apply Hon. vm_compute. reflexivity.
Defined.

(** ** When the window records *)

Global Instance same_guard_preorder : PreOrder same_guard.
Proof.
  split; [done|]. intros s1 s2 s3 H12 H23. unfold same_guard in *. congruence.
Qed.

Lemma guard_keeps_update_dict_and_rom (w : string) :
  keeps always same_guard (update_dict_and_rom w).
Proof.
  intros st _. split; [|done].
  unfold same_guard, update_dict_and_rom, bind, gets, modify. simpl.
  destruct (update_dict st) eqn:Hu; [|done].
  unfold widget_to_var. simpl. case_bool_decide; [|done].
  unfold getVal. simpl. destruct (widgets st !! w) as [q|]; [|done].
  destruct (widget_getVal (consts st) w q) as [v|e]; [|done].
  rewrite update_rom_one. simpl. by destruct (next_exec _).
Qed.

Lemma guard_keeps_values_changed (depth : nat) (w : string) :
  keeps always same_guard (values_changed depth w).
Proof.
  apply keeps_values_changed; [apply _ | done |].
  apply guard_keeps_update_dict_and_rom.
Qed.

Lemma guard_keeps_read_forms : keeps always same_guard read_forms.
Proof.
  unfold read_forms.
  apply keeps_bind; [apply _ | apply keeps_gets; apply _ |]. intros wnames.
  apply keeps_for_each; [apply _|]. intros wname _.
  apply keeps_bind; [apply _ | apply keeps_widget_to_var; apply _ |]. intros var.
  apply keeps_bind; [apply _ | apply keeps_getVal; apply _ |]. intros val.
  by intros st H.
Qed.

(** X30.  The window stops recording only through a restore that failed: an
    event that finds [self.update_dict] on leaves it on, unless the event is a
    [restore_forms] or a [_read_data] that ended in an exception. *)
Theorem guard_off_only_after_failed_restore (depth : nat) (o : op)
  (st : State) :
  update_dict st = true ->
  update_dict (run_op depth o st).2 = false ->
  (o = ReadData \/ o = RestoreForms)
  /\ exists e, (run_op depth o st).1 = Raise e.
Proof.
  intros Hon Hoff.
  destruct o as [wname w|wname val| | | |row outcomes].
  - exfalso.
    assert (Hk : keeps always same_guard (run_op depth (Edit wname w))).
    { unfold run_op. apply keeps_bind; [apply _ | apply keeps_gets; apply _ |].
      intros off. apply keeps_if; [apply keeps_ret; apply _|].
      apply keeps_bind; [apply _ | by intros s H |]. intros _.
      apply guard_keeps_values_changed. }
    destruct (Hk st I) as [Hg _]. unfold same_guard in Hg. congruence.
  - exfalso.
    assert (Hk : keeps always same_guard (run_op depth (SetVal wname val))).
    { unfold run_op. apply keeps_setVal; [apply _ | done |].
      intros w. apply guard_keeps_values_changed. }
    destruct (Hk st I) as [Hg _]. unfold same_guard in Hg. congruence.
  - split; [by left|].
    destruct (read_data_no_writes depth st) as (_ & _ & _ & Hu).
    unfold run_op in Hoff |- *. destruct (_read_data depth st).1 as [[]|e]; [|eauto].
    rewrite Hu in Hoff; done.
  - exfalso. destruct (guard_keeps_read_forms st I) as [Hg _].
    unfold same_guard in Hg. unfold run_op in Hoff. congruence.
  - split; [by right|].
    destruct (restore_forms_effect depth st) as (_&_&_&_&_&Hu&_).
    unfold run_op in Hoff |- *. rewrite Hu in Hoff. simpl in Hoff.
    destruct (restore_forms depth st).1 as [[]|e]; [done|eauto].
  - exfalso. unfold run_op, modify in Hoff. simpl in Hoff. congruence.
Qed.

Lemma guard_off_only_after_failed_restore_witness :
  (RestoreForms = ReadData \/ RestoreForms = RestoreForms)
  /\ exists e, (run_op 3 RestoreForms app_no_item).1 = Raise e.
Proof.
  apply (guard_off_only_after_failed_restore 3 RestoreForms app_no_item).
  - vm_compute. reflexivity.
  - vm_compute. reflexivity.
Defined.
